(** * Sanbot voice-agent bridge: CRM gateway and HeyGen avatar session

    A shallow embedding of [agent/crm_functions.py] and
    [agent/heygen_byoli.py], with the properties of the token cache, the
    CRM gateway, the avatar session and the audio tap stated over it.

    Conventions of the embedding:
    - Python values coming from JSON or from loosely typed tool arguments
      are [Py.value]; a Python [dict] is an association list in insertion
      order, looked up by first match.
    - Code that can raise returns [Py.result]; [Py.Raise e] is an exception
      leaving the function.
    - Module globals ([_access_token], [_token_expires_at],
      [_is_authenticating]) are an explicit record threaded through the
      functions; attributes of [self] are record fields.
    - Calls that leave the process (HTTP requests, WebSocket calls, callbacks
      into the voice framework) are recorded as lists of effects, and what
      the outside world answers is an argument of the function.
    - Wall-clock time ([time.time()]) is an integer number of milliseconds.
    - Strings are byte strings; [lower] and [strip] act on the ASCII range.
    - Logging is not modelled, except where building the log line can raise. *)

From Stdlib Require Import ZArith List String Ascii Bool Lia Floats DecimalString.
From Stdlib.Strings Require Import Byte.
Import ListNotations.
Set Warnings "-register-all".
Local Open Scope string_scope.
Local Open Scope list_scope.

(** String concatenation, written as in an f-string's pieces. *)
Notation "a ^ b" := (String.append a b) : string_scope.

(* ================================================================= *)
(** ** Python strings *)

Module PyStr.

(** [str.lower()] on ASCII letters; a character outside ASCII is left as
    it is, where Python would also lower-case it. *)
Definition lower_ascii (c : ascii) : ascii :=
  let n := nat_of_ascii c in
  if (65 <=? n)%nat && (n <=? 90)%nat then ascii_of_nat (n + 32) else c.

Fixpoint lower (s : string) : string :=
  match s with
  | EmptyString => EmptyString
  | String c s' => String (lower_ascii c) (lower s')
  end.

(** Characters removed by [str.strip()] with no argument, in the ASCII
    range; Python also removes white space outside it (U+00A0 and others). *)
Definition is_space (c : ascii) : bool :=
  let n := nat_of_ascii c in
  ((9 <=? n)%nat && (n <=? 13)%nat) || ((28 <=? n)%nat && (n <=? 32)%nat).

(** [s.lstrip(chars)]: drop leading characters satisfying [p]. *)
Fixpoint lstrip_by (p : ascii -> bool) (s : string) : string :=
  match s with
  | EmptyString => EmptyString
  | String c s' => if p c then lstrip_by p s' else s
  end.

(** [s.rstrip(chars)]: drop trailing characters satisfying [p]. *)
Fixpoint rstrip_by (p : ascii -> bool) (s : string) : string :=
  match s with
  | EmptyString => EmptyString
  | String c s' =>
      match rstrip_by p s' with
      | EmptyString => if p c then EmptyString else String c EmptyString
      | r => String c r
      end
  end.

Definition strip (s : string) : string := rstrip_by is_space (lstrip_by is_space s).

(** [needle in hay] on strings. *)
Fixpoint contains (needle hay : string) : bool :=
  prefix needle hay
  || match hay with
     | EmptyString => false
     | String _ hay' => contains needle hay'
     end.

(** [sep.join(parts)]. *)
Fixpoint join (sep : string) (parts : list string) : string :=
  match parts with
  | [] => ""
  | [p] => p
  | p :: ps => p ^ sep ^ join sep ps
  end.

(** [s[:n]], counted in bytes; for text outside ASCII Python counts
    characters. Used only for the text of error messages. *)
Definition take (n : nat) (s : string) : string := substring 0 n s.

(** [str(n)] for an integer. *)
Definition of_Z (z : Z) : string := NilZero.string_of_int (Z.to_int z).

Definition is_slash (c : ascii) : bool := Ascii.eqb c "/".

End PyStr.

(* ================================================================= *)
(** ** Python values, truthiness and exceptions *)

Module Py.

Inductive value : Type :=
| PNone
| PBool (b : bool)
| PInt (z : Z)
| PFloat (f : float)
| PStr (s : string)
| PList (l : list value)
| PDict (d : list (string * value)).

Inductive exn : Type :=
| AttributeError (msg : string)
| TypeError (msg : string)
| ValueError (msg : string)          (* includes json.JSONDecodeError *)
| PyException (msg : string)         (* raise Exception("...") *)
| ConnectError (msg : string)        (* httpx.ConnectError *)
| TimeoutException (msg : string)    (* httpx.TimeoutException *)
| OtherError (msg : string).         (* any other subclass of Exception *)

(** [str(e)]. *)
Definition exn_str (e : exn) : string :=
  match e with
  | AttributeError m | TypeError m | ValueError m | PyException m
  | ConnectError m | TimeoutException m | OtherError m => m
  end.

Inductive result (A : Type) : Type :=
| Ok (a : A)
| Raise (e : exn).
Arguments Ok {A} a.
Arguments Raise {A} e.

Definition bind {A B} (r : result A) (k : A -> result B) : result B :=
  match r with
  | Ok a => k a
  | Raise e => Raise e
  end.

Definition raises {A} (r : result A) : bool :=
  match r with Ok _ => false | Raise _ => true end.

(** [bool(v)]. *)
Definition truthy (v : value) : bool :=
  match v with
  | PNone => false
  | PBool b => b
  | PInt z => negb (z =? 0)%Z
  | PFloat f => negb (PrimFloat.eqb f 0%float)
  | PStr s => negb (s =? "")
  | PList l => match l with [] => false | _ => true end
  | PDict d => match d with [] => false | _ => true end
  end.

(** [a or b], with [b] already evaluated (used where [b] cannot raise). *)
Definition or_ (a b : value) : value := if truthy a then a else b.

(** [d.get(k, default)] on a dict. *)
Fixpoint lookup (d : list (string * value)) (k : string) : option value :=
  match d with
  | [] => None
  | (k', v) :: d' => if k' =? k then Some v else lookup d' k
  end.

Definition dict_get (d : list (string * value)) (k : string) (default : value) : value :=
  match lookup d k with
  | Some v => v
  | None => default
  end.

Definition type_name (v : value) : string :=
  match v with
  | PNone => "NoneType"
  | PBool _ => "bool"
  | PInt _ => "int"
  | PFloat _ => "float"
  | PStr _ => "str"
  | PList _ => "list"
  | PDict _ => "dict"
  end.

Definition no_attribute (v : value) (attr : string) : exn :=
  AttributeError ("'" ^ type_name v ^ "' object has no attribute '" ^ attr ^ "'").

(** [v.get(k, default)] on an arbitrary value: only a dict has [get]. *)
Definition get (v : value) (k : string) (default : value) : result value :=
  match v with
  | PDict d => Ok (dict_get d k default)
  | _ => Raise (no_attribute v "get")
  end.

(** [v is False]. *)
Definition is_False (v : value) : bool :=
  match v with PBool false => true | _ => false end.

(** [v is not None]. *)
Definition is_not_None (v : value) : bool :=
  match v with PNone => false | _ => true end.

(** The double quote, for messages that quote a type name. *)
Definition dquote : string := String (ascii_of_nat 34) EmptyString.

(** [v + 1] as the source writes it ([nights + 1]): defined on numbers, a
    [TypeError] on everything else - for a string or a list the one of
    concatenation. *)
Definition plus_one (v : value) : result value :=
  match v with
  | PInt z => Ok (PInt (z + 1))
  | PBool b => Ok (PInt ((if b then 1 else 0) + 1))
  | PFloat f => Ok (PFloat (f + 1)%float)
  | PStr _ | PList _ =>
      Raise (TypeError ("can only concatenate " ^ type_name v ^ " (not " ^ dquote ^ "int"
                        ^ dquote ^ ") to " ^ type_name v))
  | _ => Raise (TypeError ("unsupported operand type(s) for +: '" ^ type_name v ^ "' and 'int'"))
  end.

(** [v - 1] ([nights - 1]). *)
Definition minus_one (v : value) : result value :=
  match v with
  | PInt z => Ok (PInt (z - 1))
  | PBool b => Ok (PInt ((if b then 1 else 0) - 1))
  | PFloat f => Ok (PFloat (f - 1)%float)
  | _ => Raise (TypeError ("unsupported operand type(s) for -: '" ^ type_name v ^ "' and 'int'"))
  end.

(** [max(1, v)] for a number [v]: the second argument wins only when it is
    strictly greater than the first. *)
Definition max_1 (v : value) : value :=
  match v with
  | PInt z => if (1 <? z)%Z then PInt z else PInt 1
  | PFloat f => if PrimFloat.ltb 1%float f then PFloat f else PInt 1
  | _ => PInt 1
  end.

Definition of_option (o : option string) : value :=
  match o with
  | Some s => PStr s
  | None => PNone
  end.

Section Repr.

(** [repr] of floats, lists and dicts, as [str()] and f-strings print them.
    No property below depends on how these are printed. *)
Variable py_repr : value -> string.

(** [str(v)], also what an f-string field [{v}] inserts. *)
Definition str (v : value) : string :=
  match v with
  | PNone => "None"
  | PBool true => "True"
  | PBool false => "False"
  | PInt z => PyStr.of_Z z
  | PStr s => s
  | _ => py_repr v
  end.

End Repr.

End Py.

Declare Scope py_scope.
Delimit Scope py_scope with py.
Notation "x <- r ;; k" := (Py.bind r (fun x => k))
(at level 61, r at next level, right associativity) : py_scope.
Notation "r ;;; k" := (Py.bind r (fun _ => k))
(at level 61, right associativity) : py_scope.

(* ================================================================= *)
(** ** agent/crm_functions.py *)

Module Crm.
Import Py.
Local Open Scope py_scope.

(** Token state: the module globals. *)
Record auth_state : Type := {
  _access_token : value;          (* None until a login succeeded *)
  _token_expires_at : Z;
  _is_authenticating : bool
}.

Definition TOKEN_LIFETIME_SECONDS : Z := 50 * 60.

(** Seconds as clock units (milliseconds). *)
Definition seconds (s : Z) : Z := s * 1000.

(** One call on the shared [httpx.AsyncClient]. *)
Record http_request : Type := {
  req_method : string;
  req_url : string;
  req_headers : list (string * string);
  req_json : value;               (* None when no body is sent *)
  req_timeout : Z                 (* seconds *)
}.

(** What comes back: an exception of the transport, or a response with its
    status, its text and what [response.json()] gives. *)
Inductive http_outcome : Type :=
| HttpFail (e : exn)
| HttpResponse (status : Z) (text : string) (json : result value).

Section Env.

(** Configuration read from the environment at import time. *)
Variables CRM_BASE_URL CRM_EMAIL CRM_PASSWORD : string.
(** [urllib.parse.urlencode] on the query dict. *)
Variable urlencode : list (string * value) -> string.
Variable py_repr : value -> string.

Definition _url (path : string) : string :=
  let base := PyStr.rstrip_by PyStr.is_slash CRM_BASE_URL in
  let path := PyStr.lstrip_by PyStr.is_slash path in
  base ^ "/" ^ path.

(* ----------------------------------------------------------------- *)
(** *** Authentication *)

Definition login_request : http_request :=
  {| req_method := "POST";
     req_url := _url "auth/login";
     req_headers := [("Content-Type", "application/json")];
     req_json := PDict [("email", PStr CRM_EMAIL); ("password", PStr CRM_PASSWORD)];
     req_timeout := 20 |}.

(** [_login], from the response of the POST to the token: the status check,
    [resp.json()], the log line listing [body.keys()], and the lenient
    extraction of the token. *)
Definition login_token (o : http_outcome) : result value :=
  match o with
  | HttpFail e => Raise e
  | HttpResponse status text json =>
      if (status >=? 400)%Z
      then Raise (PyException ("HTTP " ^ PyStr.of_Z status ^ ": " ^ PyStr.take 200 text))
      else
        body <- json ;;
        match body with
        | PDict b =>
            let inner := dict_get b "data" (PDict []) in
            t1 <- get inner "accessToken" PNone ;;
            t2 <- get inner "access_token" PNone ;;
            let token :=
              or_ t1 (or_ t2 (or_ (dict_get b "accessToken" PNone)
                (or_ (dict_get b "access_token" PNone) (dict_get b "token" PNone)))) in
            if negb (truthy token)
            then Raise (PyException ("No token in login response: " ^ str py_repr body))
            else Ok token
        | _ => Raise (no_attribute body "keys")
        end
  end.

Definition _has_valid_token (st : auth_state) (now : Z) : bool :=
  is_not_None (_access_token st) && (now <? _token_expires_at st)%Z.

(* ----------------------------------------------------------------- *)
(** *** Authenticated requests *)

Definition _auth_headers (st : auth_state) : list (string * string) :=
  if negb (truthy (_access_token st))
  then [("Content-Type", "application/json")]
  else [("Content-Type", "application/json");
        ("Authorization", "Bearer " ^ str py_repr (_access_token st))].

(** The tagged failure result. *)
Definition failure (msg : string) : value :=
  PDict [("success", PBool false); ("error", PStr msg)].

(** The two [except] clauses of [_crm_request]. *)
Definition request_failed (e : exn) : value :=
  match e with
  | TimeoutException _ =>
      failure "CRM request timed out — server may be unreachable"
  | _ => failure (exn_str e)
  end.

(** [_crm_request] from the outcome of its request on: the status checks,
    [response.json()] and the [except] clauses. *)
Definition crm_response (o : http_outcome) : value :=
  match o with
  | HttpFail e => request_failed e
  | HttpResponse status text json =>
      if (status =? 401)%Z
      then failure "CRM token expired — restart agent to refresh"
      else if (status >=? 400)%Z
      then failure ("API error: " ^ PyStr.of_Z status)
      else match json with
           | Ok v => v
           | Raise e => request_failed e
           end
  end.

(** The request [_crm_request] sends when a token is cached. *)
Definition crm_call (st : auth_state) (endpoint method : string) (body : value)
  : http_request :=
  let headers := _auth_headers st in
  let url := _url endpoint in
  {| req_method := method; req_url := url; req_headers := headers;
     req_json := if method =? "GET" then PNone else body;
     req_timeout := 10 |}.

(** [_crm_request(endpoint, method, body)]: the result, and the requests it
    sent. [net] is what the network answers to a request. *)
Definition _crm_request (st : auth_state) (net : http_request -> http_outcome)
    (endpoint method : string) (body : value) : value * list http_request :=
  if negb (truthy (_access_token st))
  then (failure "CRM not authenticated (token missing)", [])
  else
    let req := crm_call st endpoint method body in
    (crm_response (net req), [req]).

(* ----------------------------------------------------------------- *)
(** *** Helpers *)

Definition any_in (keywords : list string) (lower : string) : bool :=
  existsb (fun x => PyStr.contains x lower) keywords.

Definition _normalize_hotel_type (s : string) : option string :=
  if s =? "" then None
  else
    let lower := PyStr.strip (PyStr.lower s) in
    if any_in ["5"; "five"; "luxury"] lower then Some "5 Star"
    else if any_in ["4"; "four"; "premium"] lower then Some "4 Star"
    else if any_in ["3"; "three"; "standard"] lower then Some "3 Star"
    else if any_in ["2"; "two"; "budget"] lower then Some "2 Star"
    else if PyStr.contains "resort" lower then Some "Resort"
    else if PyStr.contains "villa" lower then Some "Villa"
    else if PyStr.contains "home" lower || PyStr.contains "stay" lower then Some "Homestay"
    else Some s.

Definition _normalize_meal_plan (s : string) : option string :=
  if s =? "" then None
  else
    let lower := PyStr.strip (PyStr.lower s) in
    if PyStr.contains "all" lower || (lower =? "ap") then Some "AP"
    else if any_in ["half"; "modified"] lower || (lower =? "map") then Some "MAP"
    else if any_in ["breakfast"; "continental"] lower || (lower =? "cp") then Some "CP"
    else if any_in ["no"; "european"; "room only"] lower || (lower =? "ep") then Some "EP"
    else Some s.

(** A normalizer called on whatever the caller put in [params]: a falsy
    value of any type gives None, a string is normalized, anything else has
    no [lower]. *)
Definition on_str (f : string -> option string) (v : value) : result value :=
  match v with
  | PStr s => Ok (of_option (f s))
  | _ => if truthy v then Raise (no_attribute v "lower") else Ok PNone
  end.

(* ----------------------------------------------------------------- *)
(** *** Public API: save_lead *)

(** [params.get(k) or None]. *)
Definition get_or_none (params : list (string * value)) (k : string) : value :=
  or_ (dict_get params k PNone) PNone.

(** The [lead_data] dict literal, before the None values are removed. *)
Definition lead_fields (params : list (string * value)) : result (list (string * value)) :=
  let nights := dict_get params "nights" PNone in
  durationDays <- (if truthy nights then plus_one (or_ nights (PInt 0)) else Ok PNone) ;;
  hotelType <- on_str _normalize_hotel_type (dict_get params "hotel_type" (PStr "")) ;;
  mealPlan <- on_str _normalize_meal_plan (dict_get params "meal_plan" (PStr "")) ;;
  Ok [ ("name", dict_get params "name" (PStr ""));
       ("email", get_or_none params "email");
       ("mobile", get_or_none params "phone");
       ("destination", get_or_none params "destination");
       ("journeyStartDate", get_or_none params "travel_date");
       ("durationNights", get_or_none params "nights");
       ("durationDays", durationDays);
       ("adults", dict_get params "adults" (PInt 2));
       ("children", dict_get params "children" (PInt 0));
       ("infants", PInt 0);
       ("hotelType", hotelType);
       ("mealPlan", mealPlan);
       ("specialRequirement", get_or_none params "special_requirements");
       ("aiSummary", get_or_none params "conversation_summary");
       ("source", PStr "Voice Agent");
       ("sourceType", PStr "voice_agent");
       ("utmSource", PStr "sanbot");
       ("utmMedium", PStr "voice");
       ("utmCampaign", PStr "orchestrated-livekit");
       ("notes", PStr "Lead captured via SanBot Voice Agent (Orchestrated Mode).") ].

(** [{k: v for k, v in lead_data.items() if v is not None}]. *)
Definition drop_none (d : list (string * value)) : list (string * value) :=
  filter (fun kv => is_not_None (snd kv)) d.

(** The payload [save_lead] posts. *)
Definition lead_payload (params : list (string * value)) : result (list (string * value)) :=
  lead_data <- lead_fields params ;;
  Ok (drop_none lead_data).

(** [save_lead], from the result of [_crm_request] on. *)
Definition save_lead_result (params : list (string * value)) (result : value)
  : Py.result value :=
  success <- get result "success" PNone ;;
  id <- get result "id" PNone ;;
  lead_id <- get result "lead_id" PNone ;;
  if truthy success || truthy id || truthy lead_id then
    Ok (PDict [ ("success", PBool true);
                ("message", PStr ("Lead saved for " ^ str py_repr (dict_get params "name" PNone) ^ "!"));
                ("lead_id", or_ id (or_ lead_id (PStr "saved"))) ])
  else
    error <- get result "error" (PStr "Unknown error") ;;
    Ok (PDict [ ("success", PBool false);
                ("message", PStr ("Failed to save lead: " ^ str py_repr error)) ]).

Definition save_lead (st : auth_state) (net : http_request -> http_outcome)
    (params : list (string * value)) : Py.result value * list http_request :=
  match lead_payload params with
  | Raise e => (Raise e, [])
  | Ok lead_data =>
      let '(result, reqs) := _crm_request st net "leads" "POST" (PDict lead_data) in
      (save_lead_result params result, reqs)
  end.

(* ----------------------------------------------------------------- *)
(** *** Public API: find_packages *)

(** [if params.get(k): query_params[q] = str(params[k])]. *)
Definition add_str_param (params : list (string * value)) (k q : string)
    (query_params : list (string * value)) : list (string * value) :=
  let v := dict_get params k PNone in
  if truthy v then query_params ++ [(q, PStr (str py_repr v))] else query_params.

(** The [minNights]/[maxNights] pair for a truthy [nights]. *)
Definition nights_range (nights : value) : result (list (string * value)) :=
  lo <- minus_one nights ;;
  hi <- plus_one nights ;;
  Ok [ ("minNights", PStr (str py_repr (max_1 lo)));
       ("maxNights", PStr (str py_repr hi)) ].

(** [query_params] before the [nights] filter; the keys are distinct, so
    each assignment appends. *)
Definition find_packages_filters (params : list (string * value))
  : list (string * value) :=
  let query := dict_get params "query" (PStr "") in
  let destination := or_ (dict_get params "destination" (PStr "")) query in
  let q := if truthy destination then [("destination", destination)] else [] in
  let q := add_str_param params "min_price" "minPrice" q in
  let q := add_str_param params "max_price" "maxPrice" q in
  let package_type := dict_get params "package_type" PNone in
  if truthy package_type then q ++ [("packageType", package_type)] else q.

(** The whole [query_params] dict [find_packages] builds. *)
Definition find_packages_query (params : list (string * value))
  : result (list (string * value)) :=
  let q := find_packages_filters params in
  let nights := dict_get params "nights" PNone in
  range <- (if truthy nights then nights_range nights else Ok []) ;;
  let q := q ++ range in
  Ok (q ++ [("limit", PStr (str py_repr (dict_get params "limit" (PInt 5))))]).

Definition find_packages_endpoint (query_params : list (string * value)) : string :=
  match query_params with
  | [] => "packages"
  | _ => "packages" ^ "?" ^ urlencode query_params
  end.

(** One line of the voice summary, for the package at position [i]. *)
Definition package_line (i : nat) (pkg : value) : result string :=
  n1 <- get pkg "packageName" PNone ;;
  n2 <- get pkg "package_name" PNone ;;
  n3 <- get pkg "name" (PStr "Package") ;;
  let name := or_ n1 (or_ n2 n3) in
  t1 <- get pkg "totalNights" PNone ;;
  t2 <- get pkg "total_nights" PNone ;;
  t3 <- get pkg "nights" (PStr "?") ;;
  let nights := or_ t1 (or_ t2 t3) in
  p1 <- get pkg "sellingPrice" PNone ;;
  p2 <- get pkg "selling_price" PNone ;;
  p3 <- get pkg "price" (PStr "?") ;;
  let price := or_ p1 (or_ p2 p3) in
  currency <- get pkg "currency" (PStr "INR") ;;
  Ok (PyStr.of_Z (Z.of_nat i + 1) ^ ". " ^ str py_repr name ^ " - "
      ^ str py_repr nights ^ " nights at " ^ str py_repr currency ^ " "
      ^ str py_repr price ^ ".").

(** The loop over [enumerate(package_list[:3])], from position [i]. *)
Fixpoint package_lines (i : nat) (pkgs : list value) : result (list string) :=
  match pkgs with
  | [] => Ok []
  | pkg :: pkgs' =>
      line <- package_line i pkg ;;
      lines <- package_lines (S i) pkgs' ;;
      Ok (line :: lines)
  end.

Definition voice_summary (package_list : list value) : result string :=
  let count := List.length package_list in
  if (count =? 0)%nat
  then Ok "No packages found. Let me suggest some alternatives!"
  else
    let head := "Found " ^ PyStr.of_Z (Z.of_nat count) ^ " package"
                ^ (if (1 <? count)%nat then "s" else "") ^ "!" in
    lines <- package_lines 0 (firstn 3 package_list) ;;
    let more :=
      if (3 <? count)%nat
      then ["And " ^ PyStr.of_Z (Z.of_nat count - 3) ^ " more options."]
      else [] in
    Ok (PyStr.join " " ((head :: lines) ++ more)).

(** [find_packages], from the result of [_crm_request] on. *)
Definition find_packages_result (result : value) : Py.result value :=
  success <- get result "success" PNone ;;
  if is_False success then
    error <- get result "error" PNone ;;
    Ok (PDict [ ("success", PBool false);
                ("message", PStr ("Could not fetch packages: " ^ str py_repr error));
                ("packages", PList []) ])
  else
    p1 <- get result "packages" PNone ;;
    p2 <- get result "data" PNone ;;
    let packages := or_ p1 (or_ p2 result) in
    let package_list := match packages with PList l => l | _ => [] end in
    summary <- voice_summary package_list ;;
    Ok (PDict [ ("success", PBool true);
                ("count", PInt (Z.of_nat (List.length package_list)));
                ("packages", PList package_list);
                ("voice_summary", PStr summary) ]).

Definition find_packages (st : auth_state) (net : http_request -> http_outcome)
    (params : list (string * value)) : Py.result value * list http_request :=
  match find_packages_query params with
  | Raise e => (Raise e, [])
  | Ok query_params =>
      let '(result, reqs) :=
        _crm_request st net (find_packages_endpoint query_params) "GET" PNone in
      (find_packages_result result, reqs)
  end.

(* ----------------------------------------------------------------- *)
(** *** Public API: get_package_details *)

(** The characters of a string, as iterating over it yields them. *)
Fixpoint chars (s : string) : list string :=
  match s with
  | EmptyString => []
  | String c s' => String c EmptyString :: chars s'
  end.

(** [", ".join(...)] needs every item to be a string; [i] is the position of
    the head of [l] in the sequence joined. *)
Fixpoint all_str (i : nat) (l : list value) : result (list string) :=
  match l with
  | [] => Ok []
  | PStr s :: l' => ss <- all_str (S i) l' ;; Ok (s :: ss)
  | v :: _ =>
      Raise (TypeError ("sequence item " ^ PyStr.of_Z (Z.of_nat i)
                        ^ ": expected str instance, " ^ type_name v ^ " found"))
  end.

(** [", ".join(inclusions[:4])] with [" and more"] appended when
    [len(inclusions) > 4], for a truthy [inclusions]. *)
Definition inclusions_text (inclusions : value) : result string :=
  match inclusions with
  | PList l =>
      items <- all_str 0 (firstn 4 l) ;;
      Ok (PyStr.join ", " items ^ (if (4 <? List.length l)%nat then " and more" else ""))
  | PStr s =>
      Ok (PyStr.join ", " (chars (PyStr.take 4 s))
          ^ (if (4 <? String.length s)%nat then " and more" else ""))
  | PDict _ => Raise (TypeError "unhashable type: 'slice'")
  | _ => Raise (TypeError ("'" ^ type_name inclusions ^ "' object is not subscriptable"))
  end.

(** [get_package_details], from the result of [_crm_request] on. *)
Definition get_package_details_result (package_id : string) (result : value)
  : Py.result value :=
  success <- get result "success" PNone ;;
  if is_False success then
    error <- get result "error" PNone ;;
    Ok (PDict [ ("success", PBool false);
                ("message", PStr ("Could not find package: " ^ str py_repr error)) ])
  else
    data <- get result "data" PNone ;;
    let pkg := or_ data result in
    n1 <- get pkg "packageName" PNone ;;
    n2 <- get pkg "package_name" PNone ;;
    n3 <- get pkg "name" (PStr "Unknown") ;;
    let name := or_ n1 (or_ n2 n3) in
    t1 <- get pkg "totalNights" PNone ;;
    t2 <- get pkg "total_nights" PNone ;;
    t3 <- get pkg "nights" (PInt 0) ;;
    let nights := or_ t1 (or_ t2 t3) in
    d1 <- get pkg "totalDays" PNone ;;
    d2 <- get pkg "total_days" PNone ;;
    days <- (if truthy d1 then Ok d1
             else if truthy d2 then Ok d2
             else if truthy nights then plus_one nights
             else Ok (PInt 0)) ;;
    p1 <- get pkg "sellingPrice" PNone ;;
    p2 <- get pkg "selling_price" PNone ;;
    p3 <- get pkg "basePrice" PNone ;;
    p4 <- get pkg "base_price" PNone ;;
    p5 <- get pkg "price" (PInt 0) ;;
    let price := or_ p1 (or_ p2 (or_ p3 (or_ p4 p5))) in
    currency <- get pkg "currency" (PStr "INR") ;;
    let head := str py_repr name ^ ". " ^ str py_repr nights ^ " nights "
                ^ str py_repr days ^ " days starting from " ^ str py_repr currency
                ^ " " ^ str py_repr price ^ " per person." in
    inclusions <- get pkg "inclusions" (PList []) ;;
    desc_parts <-
      (if truthy inclusions then
         inc_text <- inclusions_text inclusions ;;
         Ok [head; "Includes: " ^ inc_text ^ "."]
       else Ok [head]) ;;
    id <- get pkg "id" (PStr package_id) ;;
    description <- get pkg "description" (PStr "") ;;
    destinations <- get pkg "destinations" (PList []) ;;
    exclusions <- get pkg "exclusions" (PList []) ;;
    Ok (PDict [ ("success", PBool true);
                ("id", id);
                ("name", name);
                ("description", description);
                ("price", price);
                ("currency", currency);
                ("nights", nights);
                ("days", days);
                ("destinations", destinations);
                ("inclusions", inclusions);
                ("exclusions", exclusions);
                ("voice_description", PStr (PyStr.join " " desc_parts)) ]).

Definition get_package_details (st : auth_state) (net : http_request -> http_outcome)
    (package_id : string) : Py.result value * list http_request :=
  let '(result, reqs) := _crm_request st net ("packages/" ^ package_id) "GET" PNone in
  (get_package_details_result package_id result, reqs).

(* ----------------------------------------------------------------- *)
(** *** Concurrent callers of _ensure_authenticated *)

(** A caller of [_ensure_authenticated], as a coroutine: where it is
    suspended, or how it ended. *)
Inductive caller : Type :=
| NotStarted
| AwaitPost                          (* in [await client.post(login_url, ...)] *)
| AwaitSleep (i : nat) (since : Z)   (* in [await asyncio.sleep(0.1)], iteration [i] of [range(50)] *)
| Returned (token : value)
| Raised (e : exn).

(** [_ensure_authenticated()] from its call to its first suspension: the
    cached token if valid, otherwise [_login()] up to its first [await]. *)
Definition enter (st : auth_state) (now : Z)
  : auth_state * caller * list http_request :=
  if _has_valid_token st now then (st, Returned (_access_token st), [])
  else if _is_authenticating st then (st, AwaitSleep 0 now, [])
  else
    ({| _access_token := _access_token st;
        _token_expires_at := _token_expires_at st;
        _is_authenticating := true |},
     AwaitPost, [login_request]).

(** A waiter of [_login] resumed from [asyncio.sleep(0.1)] in iteration [i]. *)
Definition wake (st : auth_state) (now : Z) (i : nat) : caller :=
  if truthy (_access_token st) && (now <? _token_expires_at st)%Z
  then Returned (_access_token st)
  else if (S i <? 50)%nat then AwaitSleep (S i) now
  else Raised (PyException "Authentication timeout").

(** The leader of [_login] resumed with the outcome of its POST; the
    [finally] clause clears the flag on every path. *)
Definition reply (st : auth_state) (now : Z) (o : http_outcome) : auth_state * caller :=
  match login_token o with
  | Ok token =>
      ({| _access_token := token;
          _token_expires_at := now + seconds TOKEN_LIFETIME_SECONDS;
          _is_authenticating := false |},
       Returned token)
  | Raise e =>
      ({| _access_token := _access_token st;
          _token_expires_at := _token_expires_at st;
          _is_authenticating := false |},
       Raised e)
  end.

(** The event loop with any number of callers of [_ensure_authenticated]:
    the shared token state, the clock, each caller's coroutine, and the
    login requests sent so far. *)
Record system : Type := {
  auth : auth_state;
  clock : Z;
  callers : nat -> caller;
  sent : list http_request
}.

(** What the event loop does next: start a caller, resume a sleeping waiter,
    or deliver the outcome of the leader's POST; [now] is the clock then. *)
Inductive event : Type :=
| Enter (i : nat) (now : Z)
| Wake (i : nat) (now : Z)
| Reply (i : nat) (now : Z) (o : http_outcome).

Definition set_caller (cs : nat -> caller) (i : nat) (c : caller) : nat -> caller :=
  fun j => if (j =? i)%nat then c else cs j.

(** One scheduling step; [None] when the event cannot happen in this state
    (the clock would go back, the sleep is not over, or caller [i] is not
    suspended there). *)
Definition step (sys : system) (ev : event) : option system :=
  match ev with
  | Enter i now =>
      match callers sys i with
      | NotStarted =>
          if (clock sys <=? now)%Z then
            let '(st, c, reqs) := enter (auth sys) now in
            Some {| auth := st; clock := now;
                    callers := set_caller (callers sys) i c;
                    sent := sent sys ++ reqs |}
          else None
      | _ => None
      end
  | Wake i now =>
      match callers sys i with
      | AwaitSleep k since =>
          if (clock sys <=? now)%Z && (since + 100 <=? now)%Z then
            Some {| auth := auth sys; clock := now;
                    callers := set_caller (callers sys) i (wake (auth sys) now k);
                    sent := sent sys |}
          else None
      | _ => None
      end
  | Reply i now o =>
      match callers sys i with
      | AwaitPost =>
          if (clock sys <=? now)%Z then
            let '(st, c) := reply (auth sys) now o in
            Some {| auth := st; clock := now;
                    callers := set_caller (callers sys) i c;
                    sent := sent sys |}
          else None
      | _ => None
      end
  end.

Fixpoint run (sys : system) (evs : list event) : option system :=
  match evs with
  | [] => Some sys
  | ev :: evs' =>
      match step sys ev with
      | Some sys' => run sys' evs'
      | None => None
      end
  end.

(** Process start: nobody has called yet and nothing was sent. *)
Definition boot (st : auth_state) (now : Z) : system :=
  {| auth := st; clock := now; callers := fun _ => NotStarted; sent := [] |}.

Definition is_enter (ev : event) : bool :=
  match ev with Enter _ _ => true | _ => false end.

Definition is_reply (ev : event) : bool :=
  match ev with Reply _ _ _ => true | _ => false end.

(** The callers overlap the leader's round trip: every caller enters before
    the POST is answered. *)
Fixpoint enters_before_reply (evs : list event) : bool :=
  match evs with
  | [] => true
  | ev :: evs' =>
      if is_reply ev then forallb (fun e => negb (is_enter e)) evs'
      else enters_before_reply evs'
  end.

End Env.
End Crm.

(* ================================================================= *)
(** ** agent/heygen_byoli.py *)

Module HeyGen.

Definition bytes : Type := list byte.

Definition HEYGEN_SAMPLE_RATE : Z := 24000.

(** The sentinel [b"__FLUSH__"]. *)
Definition FLUSH : bytes := list_byte_of_string "__FLUSH__".

(** [asyncio.Queue(maxsize=500)]. *)
Definition QUEUE_MAXSIZE : nat := 500.

Fixpoint bytes_eqb (a b : bytes) : bool :=
  match a, b with
  | [], [] => true
  | x :: a', y :: b' => Byte.eqb x y && bytes_eqb a' b'
  | _, _ => false
  end.

Definition is_flush (item : bytes) : bool := bytes_eqb item FLUSH.

(** An [rtc.AudioFrame]: its sample rate and [frame.data.tobytes()]. *)
Record frame : Type := {
  sample_rate : Z;
  data : bytes
}.

(** Calls the tap makes on the voice framework and on the HeyGen session. *)
Inductive tap_effect : Type :=
| PlaybackFinished (playback_position : float) (interrupted : bool)
    (* self.on_playback_finished(playback_position=..., interrupted=...) *)
| NotifyInterrupt
    (* asyncio.ensure_future(self._heygen.notify_interrupt()) *)
| CancelSenderTask
    (* self._sender_task.cancel(), awaited *)
| OriginalAclose.
    (* await self._original.aclose() *)

(** Calls of the background sender on the HeyGen session. *)
Inductive sender_effect : Type :=
| SendAudio (b64_audio : string)
| NotifySpeakEnd.

(** [put_nowait]: [None] is [asyncio.QueueFull]. *)
Definition put_nowait (q : list bytes) (item : bytes) : option (list bytes) :=
  if (List.length q <? QUEUE_MAXSIZE)%nat then Some (q ++ [item]) else None.

(** Puts inside one [try]: the first [QueueFull] leaves the loop. *)
Fixpoint put_until_full (q : list bytes) (items : list bytes) : list bytes :=
  match items with
  | [] => q
  | x :: xs =>
      match put_nowait q x with
      | Some q' => put_until_full q' xs
      | None => q
      end
  end.

(** Puts each in its own [try]: a [QueueFull] drops that item only. *)
Fixpoint put_each (q : list bytes) (items : list bytes) : list bytes :=
  match items with
  | [] => q
  | x :: xs =>
      match put_nowait q x with
      | Some q' => put_each q' xs
      | None => put_each q xs
      end
  end.

(** [while not q.empty(): q.get_nowait()]. *)
Fixpoint drain_queue (q : list bytes) : list bytes :=
  match q with
  | [] => []
  | _ :: q' => drain_queue q'
  end.

Section AudioTap.

(** [rtc.AudioResampler]: its state, constructor, [push] and [flush]. *)
Variable resampler : Type.
Variable new_resampler : Z -> Z -> Z -> resampler.
Variable resampler_push : resampler -> frame -> resampler * list frame.
Variable resampler_flush : resampler -> resampler * list frame.
(** [base64.b64encode(...).decode("ascii")]. *)
Variable b64encode : bytes -> string.

(** The attributes of a [HeyGenAudioTap], with the two counters of the
    [AudioOutput] base class that [super().capture_frame()] and
    [super().flush()] touch. *)
Record tap : Type := {
  _resampler : option resampler;
  _resampler_checked : bool;
  _send_queue : list bytes;
  _closed : bool;
  _segment_active : bool;
  capturing : bool;
  playback_segments_count : nat
}.

(** A tap as [__init__] leaves it. *)
Definition new_tap : tap :=
  {| _resampler := None; _resampler_checked := false; _send_queue := [];
     _closed := false; _segment_active := false;
     capturing := false; playback_segments_count := 0 |}.

Definition capture_frame (t : tap) (f : frame) : tap :=
  (* super().capture_frame(frame); self._segment_active = True *)
  let count := if capturing t then playback_segments_count t
               else S (playback_segments_count t) in
  if _closed t then
    {| _resampler := _resampler t; _resampler_checked := _resampler_checked t;
       _send_queue := _send_queue t; _closed := _closed t;
       _segment_active := true; capturing := true;
       playback_segments_count := count |}
  else
    let r :=
      if negb (_resampler_checked t) && negb (sample_rate f =? HEYGEN_SAMPLE_RATE)%Z
      then Some (new_resampler (sample_rate f) HEYGEN_SAMPLE_RATE 1)
      else _resampler t in
    let '(r, items) :=
      match r with
      | Some rs => let '(rs', out) := resampler_push rs f in (Some rs', map data out)
      | None => (None, [data f])
      end in
    {| _resampler := r; _resampler_checked := true;
       _send_queue := put_until_full (_send_queue t) items;
       _closed := _closed t;
       _segment_active := true; capturing := true;
       playback_segments_count := count |}.

Definition flush (t : tap) : tap * list tap_effect :=
  let finished :=
    if _segment_active t then [PlaybackFinished 0%float false] else [] in
  let '(r, items) :=
    match _resampler t with
    | Some rs => let '(rs', out) := resampler_flush rs in (Some rs', map data out)
    | None => (None, [])
    end in
  ({| _resampler := r; _resampler_checked := _resampler_checked t;
      _send_queue := put_each (put_each (_send_queue t) items) [FLUSH];
      _closed := _closed t;
      _segment_active := false; capturing := false;
      playback_segments_count := playback_segments_count t |},
   finished).

Definition clear_buffer (t : tap) : tap * list tap_effect :=
  let finished :=
    if _segment_active t then [PlaybackFinished 0%float true] else [] in
  ({| _resampler := _resampler t; _resampler_checked := _resampler_checked t;
      _send_queue := drain_queue (_send_queue t);
      _closed := _closed t;
      _segment_active := false; capturing := false;
      playback_segments_count := playback_segments_count t |},
   finished ++ [NotifyInterrupt]).

(** [aclose]: [original] is [None] when the wrapped output has no [aclose],
    otherwise how awaiting it ends. The sender task's own exceptions are
    swallowed; the wrapped output's are not. *)
Definition aclose (t : tap) (original : option (Py.result unit))
  : tap * option Py.exn * list tap_effect :=
  let t' :=
    {| _resampler := _resampler t; _resampler_checked := _resampler_checked t;
       _send_queue := _send_queue t; _closed := true;
       _segment_active := _segment_active t; capturing := capturing t;
       playback_segments_count := playback_segments_count t |} in
  match original with
  | None => (t', None, [CancelSenderTask])
  | Some (Py.Ok _) => (t', None, [CancelSenderTask; OriginalAclose])
  | Some (Py.Raise e) => (t', Some e, [CancelSenderTask; OriginalAclose])
  end.

(** What the voice pipeline does to the tap. *)
Inductive tap_call : Type :=
| CaptureFrame (f : frame)
| Flush
| ClearBuffer.

Definition call (t : tap) (c : tap_call) : tap * list tap_effect :=
  match c with
  | CaptureFrame f => (capture_frame t f, [])
  | Flush => flush t
  | ClearBuffer => clear_buffer t
  end.

Fixpoint calls (t : tap) (cs : list tap_call) : tap * list tap_effect :=
  match cs with
  | [] => (t, [])
  | c :: cs' =>
      let '(t1, e1) := call t c in
      let '(t2, e2) := calls t1 cs' in
      (t2, e1 ++ e2)
  end.

(** The [interrupted] flags of the [on_playback_finished] calls, in order. *)
Fixpoint finished_signals (effs : list tap_effect) : list bool :=
  match effs with
  | [] => []
  | PlaybackFinished _ interrupted :: effs' => interrupted :: finished_signals effs'
  | _ :: effs' => finished_signals effs'
  end.

(* ----------------------------------------------------------------- *)
(** *** The background sender *)

(** The inner [while not self._send_queue.empty()] loop: the batch, whether
    it stopped on the sentinel, and what is left in the queue. *)
Fixpoint drain_batch (batch : bytes) (q : list bytes) : bytes * bool * list bytes :=
  match q with
  | [] => (batch, false, [])
  | extra :: q' =>
      if is_flush extra then (batch, true, q')
      else drain_batch (batch ++ extra) q'
  end.

(** One turn of [while True] in [_send_loop], on the queue as it is when
    [get()] returns; [None] while the queue is empty. *)
Definition send_iteration (q : list bytes) : option (list sender_effect * list bytes) :=
  match q with
  | [] => None
  | item :: q' =>
      if is_flush item then Some ([NotifySpeakEnd], q')
      else
        let '(batch, found, rest) := drain_batch item q' in
        Some (SendAudio (b64encode batch) :: (if found then [NotifySpeakEnd] else []),
              rest)
  end.

(** [_send_loop] for at most [fuel] turns, until the queue is empty. *)
Fixpoint send_loop (fuel : nat) (q : list bytes) : list sender_effect * list bytes :=
  match fuel with
  | O => ([], q)
  | S fuel' =>
      match send_iteration q with
      | None => ([], q)
      | Some (effs, q') =>
          let '(effs', q'') := send_loop fuel' q' in
          (effs ++ effs', q'')
      end
  end.

(** What goes over the channel, or sits in the queue, as one stream:
    audio bytes, and a mark where speech ended. *)
Inductive token : Type :=
| AudioByte (b : byte)
| SpeakEnd.

Definition queue_stream (q : list bytes) : list token :=
  flat_map (fun item => if is_flush item then [SpeakEnd] else map AudioByte item) q.

(** A message of the sender before encoding: an audio batch or a speak-end. *)
Definition message_stream (ms : list (option bytes)) : list token :=
  flat_map (fun m => match m with
                     | Some batch => map AudioByte batch
                     | None => [SpeakEnd]
                     end) ms.

Definition encode_message (m : option bytes) : sender_effect :=
  match m with
  | Some batch => SendAudio (b64encode batch)
  | None => NotifySpeakEnd
  end.

(* ----------------------------------------------------------------- *)
(** *** HeyGenBYOLISession.stop *)

Inductive keep_alive_task : Type :=
| RestKeepAlive
| WsKeepAlive.

(** Calls [stop] makes outside the session object. *)
Inductive session_effect : Type :=
| TapEffect (e : tap_effect)
| CancelTask (t : keep_alive_task)
| WsClose
| WsSessionClose
| PostStop (session_token : string) (session_id : option string).
    (* POST /v1/sessions/stop, bearer session_token,
       json {session_id, reason: USER_DISCONNECTED} *)

Record session : Type := {
  session_id : option string;
  session_token : option string;
  ws_url : option string;
  _rest_keep_alive_task : option keep_alive_task;
  _ws_keep_alive_task : option keep_alive_task;
  _ws_session : option unit;
  _ws : option bool;              (* the WebSocket and its [closed] flag *)
  _audio_tap : option tap;
  _started : bool
}.

Definition cancel (task : option keep_alive_task) : list session_effect :=
  match task with
  | Some t => [CancelTask t]
  | None => []
  end.

Definition _cleanup_ws (s : session) : session * list session_effect :=
  let e1 := match _ws s with Some false => [WsClose] | _ => [] end in
  let e2 := match _ws_session s with Some _ => [WsSessionClose] | None => [] end in
  ({| session_id := session_id s; session_token := session_token s;
      ws_url := ws_url s;
      _rest_keep_alive_task := _rest_keep_alive_task s;
      _ws_keep_alive_task := _ws_keep_alive_task s;
      _ws_session := None; _ws := None;
      _audio_tap := _audio_tap s; _started := _started s |},
   e1 ++ e2).

(** [if self.session_token:]. *)
Definition truthy_str (o : option string) : bool :=
  match o with
  | Some s => negb (s =? "")
  | None => false
  end.

(** [stop()]: the session afterwards, the exception leaving it if any, and
    the outside calls made. [original] is how closing the wrapped audio
    output ends (see [aclose]). *)
Definition stop (s : session) (original : option (Py.result unit))
  : session * option Py.exn * list session_effect :=
  if negb (_started s) then (s, None, [])
  else
    let '(tap', raised, e_tap) :=
      match _audio_tap s with
      | Some t => let '(t', r, e) := aclose t original in (Some t', r, map TapEffect e)
      | None => (None, None, [])
      end in
    match raised with
    | Some e =>
        ({| session_id := session_id s; session_token := session_token s;
            ws_url := ws_url s;
            _rest_keep_alive_task := _rest_keep_alive_task s;
            _ws_keep_alive_task := _ws_keep_alive_task s;
            _ws_session := _ws_session s; _ws := _ws s;
            _audio_tap := tap'; _started := _started s |},
         Some e, e_tap)
    | None =>
        let e_tasks := cancel (_ws_keep_alive_task s) ++ cancel (_rest_keep_alive_task s) in
        let '(s1, e_ws) := _cleanup_ws s in
        let e_stop :=
          if truthy_str (session_token s1)
          then [PostStop (match session_token s1 with Some tok => tok | None => "" end)
                         (session_id s1)]
          else [] in
        ({| session_id := None; session_token := None; ws_url := None;
            _rest_keep_alive_task := None; _ws_keep_alive_task := None;
            _ws_session := _ws_session s1; _ws := _ws s1;
            _audio_tap := None; _started := false |},
         None, e_tap ++ e_tasks ++ e_ws ++ e_stop)
    end.

(** Outside calls that are the external stop request. *)
Definition stop_requests (effs : list session_effect) : list session_effect :=
  filter (fun e => match e with PostStop _ _ => true | _ => false end) effs.

End AudioTap.
End HeyGen.

(* ================================================================= *)
(** ** Specification-side definitions *)

(** The normalization of hotel types and meal plans as the design document
    describes it: a fixed, ordered table of rules matched against the
    lower-cased input; the first rule that matches gives the category. *)
Module RuleTable.

Record rule : Type := {
  substrings : list string;   (* matches when one of these occurs in the input *)
  codes : list string;        (* matches when the stripped input is one of these *)
  category : string
}.

Definition matches (lower : string) (r : rule) : bool :=
  existsb (fun k => PyStr.contains k lower) (substrings r)
  || existsb (String.eqb lower) (codes r).

Definition normalize (rules : list rule) (s : string) : option string :=
  if s =? "" then None
  else
    match find (matches (PyStr.strip (PyStr.lower s))) rules with
    | Some r => Some (category r)
    | None => Some s
    end.

Definition hotel_rules : list rule :=
  [ {| substrings := ["5"; "five"; "luxury"]; codes := []; category := "5 Star" |};
    {| substrings := ["4"; "four"; "premium"]; codes := []; category := "4 Star" |};
    {| substrings := ["3"; "three"; "standard"]; codes := []; category := "3 Star" |};
    {| substrings := ["2"; "two"; "budget"]; codes := []; category := "2 Star" |};
    {| substrings := ["resort"]; codes := []; category := "Resort" |};
    {| substrings := ["villa"]; codes := []; category := "Villa" |};
    {| substrings := ["home"; "stay"]; codes := []; category := "Homestay" |} ].

Definition meal_rules : list rule :=
  [ {| substrings := ["all"]; codes := ["ap"]; category := "AP" |};
    {| substrings := ["half"; "modified"]; codes := ["map"]; category := "MAP" |};
    {| substrings := ["breakfast"; "continental"]; codes := ["cp"]; category := "CP" |};
    {| substrings := ["no"; "european"; "room only"]; codes := ["ep"]; category := "EP" |} ].

(** Two inputs that differ only in letter case are treated alike by a
    normalizer [f]: the same category, or each passed through as it is. *)
Definition case_insensitive (f : string -> option string) : Prop :=
  forall s1 s2, PyStr.lower s1 = PyStr.lower s2 ->
    f s1 = f s2 \/ (f s1 = Some s1 /\ f s2 = Some s2).

End RuleTable.

(** Reading a tool result the way its consumer does. *)
Module Outcome.
Import Py.

(** The result object carries [success: true]. *)
Definition reports_success (r : result value) : bool :=
  match r with
  | Ok (PDict d) => match lookup d "success" with Some (PBool true) => true | _ => false end
  | _ => false
  end.

(** The result object is a tagged failure: [success: false] and a message. *)
Definition tagged_failure (r : result value) : bool :=
  match r with
  | Ok (PDict d) =>
      match lookup d "success", lookup d "message" with
      | Some (PBool false), Some (PStr _) => true
      | _, _ => false
      end
  | _ => false
  end.

(** The response object has one of the keys [success], [id], [lead_id]. *)
Definition has_lead_key (body : value) : bool :=
  match body with
  | PDict d =>
      existsb (fun k => match lookup d k with Some _ => true | None => false end)
              ["success"; "id"; "lead_id"]
  | _ => false
  end.

(** The response object has a truthy value under one of those keys. *)
Definition has_truthy_lead_key (d : list (string * value)) : bool :=
  truthy (dict_get d "success" PNone) || truthy (dict_get d "id" PNone)
  || truthy (dict_get d "lead_id" PNone).

End Outcome.

(** What a caller of [_ensure_authenticated] may have come to, seen from
    the system it runs in. *)
Module SingleFlight.
Import Py Crm.

Definition timed_out : exn := PyException "Authentication timeout".

(** A caller that has not entered, or entered while the login was in flight
    and is polling (fewer than 50 sleeps behind it) or gave up. *)
Definition waiting (c : caller) : Prop :=
  match c with
  | NotStarted => True
  | AwaitSleep k _ => (k < 50)%nat
  | Raised e => e = timed_out
  | _ => False
  end.

(** A caller other than the leader: not entered, polling, timed out, or
    returned with the token the leader cached and returned. *)
Definition waiter (sys : system) (leader : nat) (c : caller) : Prop :=
  match c with
  | NotStarted => True
  | AwaitPost => False
  | AwaitSleep k _ => (k < 50)%nat
  | Returned token =>
      token = _access_token (auth sys) /\ callers sys leader = Returned token
  | Raised e => e = timed_out
  end.

(** The caller that sent the login request: still waiting for the answer
    with the flag set, returned with the token now cached, or failed. *)
Definition leading (sys : system) (c : caller) : Prop :=
  match c with
  | AwaitPost => _is_authenticating (auth sys) = true
  | Returned token =>
      token = _access_token (auth sys) /\ _is_authenticating (auth sys) = false
  | Raised _ => _is_authenticating (auth sys) = false
  | _ => False
  end.

Section Phases.

(** The login request, and the token state and the clock at process start. *)
Variable login : http_request.
Variable st0 : auth_state.
Variable t0 : Z.

(** The leader is in its round trip. *)
Definition in_flight (leader : nat) (sys : system) : Prop :=
  callers sys leader = AwaitPost
  /\ _access_token (auth sys) = _access_token st0
  /\ _token_expires_at (auth sys) = _token_expires_at st0
  /\ _is_authenticating (auth sys) = true
  /\ sent sys = [login]
  /\ (t0 <= clock sys)%Z
  /\ forall i, i <> leader -> waiting (callers sys i).

(** The leader's round trip is over. *)
Definition answered (leader : nat) (sys : system) : Prop :=
  sent sys = [login]
  /\ _is_authenticating (auth sys) = false
  /\ (t0 <= clock sys)%Z
  /\ ((exists token, callers sys leader = Returned token
                     /\ _access_token (auth sys) = token)
      \/ (exists e, callers sys leader = Raised e
                    /\ _access_token (auth sys) = _access_token st0
                    /\ _token_expires_at (auth sys) = _token_expires_at st0))
  /\ forall i, i <> leader -> waiter sys leader (callers sys i).

End Phases.

End SingleFlight.

(** Concrete taps and sessions for the examples. *)
Module Sample.
Import HeyGen.

(** A tap whose frames arrive at 24 kHz needs no resampler; these stand in
    for the resampler and the encoder in the examples below. *)
Definition no_push (r : unit) (f : frame) : unit * list frame := (r, [f]).
Definition no_flush (r : unit) : unit * list frame := (r, []).
Definition raw (b : bytes) : string := string_of_list_byte b.

Definition live_session : session unit :=
  {| session_id := Some "sid"; session_token := Some "stok";
     ws_url := Some "wss://heygen.example/ws";
     _rest_keep_alive_task := Some RestKeepAlive;
     _ws_keep_alive_task := Some WsKeepAlive;
     _ws_session := Some tt; _ws := Some false;
     _audio_tap := Some (new_tap unit); _started := true |}.

Definition stopped_session : session unit :=
  {| session_id := None; session_token := None; ws_url := None;
     _rest_keep_alive_task := None; _ws_keep_alive_task := None;
     _ws_session := None; _ws := None;
     _audio_tap := None; _started := false |}.

(** A tap whose queue is full. *)
Definition full_tap : tap unit :=
  {| _resampler := None; _resampler_checked := true;
     _send_queue := repeat [x00; x00] 500;
     _closed := false; _segment_active := false;
     capturing := false; playback_segments_count := 0 |}.

Definition frame_24k (b : bytes) : frame :=
  {| sample_rate := 24000; data := b |}.

End Sample.

(* ================================================================= *)
(** ** agent/heygen_byoli.py: messages on the WebSocket *)

Module Channel.
Import HeyGen.

(** The JSON messages of the channel, by their [type]. *)
Inductive ws_message : Type :=
| AgentSpeak (audio : string)              (* agent.speak *)
| AgentSpeakEnd (event_id : string)        (* agent.speak_end *)
| AgentStartListening (event_id : string)  (* agent.start_listening *)
| AgentInterrupt (event_id : string)       (* agent.interrupt *)
| SessionKeepAlive (event_id : string).    (* session.keep_alive *)

Section Session.

Variable resampler : Type.

(** [_send_ws(msg)]: what is handed to [self._ws.send_json]. A send that
    fails is logged and swallowed, so how it ends is no argument. *)
Definition _send_ws (s : session resampler) (msg : ws_message) : list ws_message :=
  match _ws resampler s with
  | Some false => [msg]
  | _ => []
  end.

Definition send_audio (s : session resampler) (b64_audio : string) : list ws_message :=
  _send_ws s (AgentSpeak b64_audio).

(** [notify_speak_end()]: two sends with an [await] between them; [s1] and
    [s2] are the session at each, [id1] and [id2] the two [uuid4()] drawn. *)
Definition notify_speak_end (s1 s2 : session resampler) (id1 id2 : string)
  : list ws_message :=
  _send_ws s1 (AgentSpeakEnd id1) ++ _send_ws s2 (AgentStartListening id2).

Definition notify_interrupt (s : session resampler) (id : string) : list ws_message :=
  _send_ws s (AgentInterrupt id).

(** [wrap_audio_output(original_output)]: the session remembers the new tap. *)
Definition wrap_audio_output (s : session resampler) : session resampler * tap resampler :=
  ({| session_id := session_id resampler s;
      session_token := session_token resampler s;
      ws_url := ws_url resampler s;
      _rest_keep_alive_task := _rest_keep_alive_task resampler s;
      _ws_keep_alive_task := _ws_keep_alive_task resampler s;
      _ws_session := _ws_session resampler s; _ws := _ws resampler s;
      _audio_tap := Some (new_tap resampler);
      _started := _started resampler s |},
   new_tap resampler).

(** The session fields as [__init__] leaves them. *)
Definition idle : session resampler :=
  {| session_id := None; session_token := None; ws_url := None;
     _rest_keep_alive_task := None; _ws_keep_alive_task := None;
     _ws_session := None; _ws := None;
     _audio_tap := None; _started := false |}.

End Session.
End Channel.

(* ================================================================= *)
(** ** agent/agent.py: the tools *)

Module Agent.
Import Py Crm.

(** [robot_action]: the command name sent for a [type]. *)
Definition robot_command (type : string) : string :=
  if negb (prefix "robot_" type) then "robot_" ^ type else type.

(** [robot_action]: the key under which the value is sent. *)
Definition arg_key (type : string) : string :=
  if type =? "gesture" then "gesture"
  else if type =? "emotion" then "emotion"
  else if type =? "look" then "direction"
  else if type =? "move_hands" then "action"
  else if type =? "move_body" then "action"
  else "action".

(** The [command] and [arguments] [robot_action] hands to
    [send_robot_command]. *)
Definition robot_action (type value : string) : string * list (string * string) :=
  (robot_command type, [(arg_key type, value)]).

(** The dict [save_customer_lead] passes to [crm_functions.save_lead]. *)
Definition save_customer_lead_params (name phone email details : string)
  : list (string * value) :=
  [ ("name", PStr name); ("phone", PStr phone); ("email", PStr email);
    ("conversation_summary", PStr details) ].

Section Tools.

Variables CRM_BASE_URL : string.
Variable urlencode : list (string * value) -> string.
Variable py_repr : value -> string.

(** [save_customer_lead], up to the [json.dumps] of the result. *)
Definition save_customer_lead (st : auth_state) (net : http_request -> http_outcome)
    (name phone email details : string) : Py.result value * list http_request :=
  save_lead CRM_BASE_URL py_repr st net (save_customer_lead_params name phone email details).

(** The tool [find_packages], up to the [json.dumps] of the result;
    [enable] is the environment's ENABLE_PACKAGE_SEARCH (default "true"). *)
Definition find_packages_tool (enable : string) (st : auth_state)
    (net : http_request -> http_outcome) (query package_id : string)
  : Py.result value * list http_request :=
  if negb (PyStr.lower enable =? "true") then
    (Ok (PDict [ ("success", PBool false);
                 ("message", PStr "Package search is currently unavailable. Please note the customer's destination interest and our team will follow up with options.") ]),
     [])
  else if negb (package_id =? "") then
    get_package_details CRM_BASE_URL py_repr st net package_id
  else
    find_packages CRM_BASE_URL urlencode py_repr st net [("query", PStr query)].

End Tools.
End Agent.

(* ================================================================= *)
(** ** More specification-side definitions *)

Module Shape.
Import Py Crm.

Definition is_dict (v : value) : bool :=
  match v with PDict _ => true | _ => false end.

Definition is_str (v : value) : bool :=
  match v with PStr _ => true | _ => false end.

(** The outcome of a request is one [_crm_request] turns into a failure:
    an exception, a status from 400 on, or a body that is not JSON. *)
Definition failing (o : http_outcome) : bool :=
  match o with
  | HttpFail _ => true
  | HttpResponse status _ json => (400 <=? status)%Z || raises json
  end.

(** The fields of a login response in which a token is looked for, in the
    order they are tried. *)
Definition token_candidates (body inner : list (string * value)) : list value :=
  [ dict_get inner "accessToken" PNone; dict_get inner "access_token" PNone;
    dict_get body "accessToken" PNone; dict_get body "access_token" PNone;
    dict_get body "token" PNone ].

(** The list [find_packages] takes the packages from. *)
Definition package_list (result : list (string * value)) : list value :=
  match or_ (dict_get result "packages" PNone)
            (or_ (dict_get result "data" PNone) (PDict result)) with
  | PList l => l
  | _ => []
  end.

(** The keys of the result of [get_package_details] on success. *)
Definition detail_keys : list string :=
  [ "success"; "id"; "name"; "description"; "price"; "currency"; "nights";
    "days"; "destinations"; "inclusions"; "exclusions"; "voice_description" ].

(** When an event happens. *)
Definition event_time (ev : event) : Z :=
  match ev with
  | Enter _ now | Wake _ now | Reply _ now _ => now
  end.

(** [n] slashes. *)
Fixpoint slashes (n : nat) : string :=
  match n with
  | O => ""
  | S n' => String "/" (slashes n')
  end.

(** Everyone who has entered got the cached token, and nothing was sent. *)
Definition served (st : auth_state) (sys : system) : Prop :=
  auth sys = st
  /\ sent sys = []
  /\ forall i, callers sys i = NotStarted \/ callers sys i = Returned (_access_token st).

(** At most one caller awaits the POST, and the flag is set exactly while
    one does. *)
Definition single_flight (sys : system) : Prop :=
  (forall i j, callers sys i = AwaitPost -> callers sys j = AwaitPost -> i = j)
  /\ (_is_authenticating (auth sys) = true <-> exists i, callers sys i = AwaitPost).

(** The optional fields of a lead: the key in [params] and the key in the
    payload. *)
Definition optional_fields : list (string * string) :=
  [ ("email", "email"); ("phone", "mobile"); ("destination", "destination");
    ("travel_date", "journeyStartDate"); ("nights", "durationNights");
    ("special_requirements", "specialRequirement");
    ("conversation_summary", "aiSummary") ].

(** The attribution tags of every lead. *)
Definition attribution : list (string * value) :=
  [ ("source", PStr "Voice Agent"); ("sourceType", PStr "voice_agent");
    ("utmSource", PStr "sanbot"); ("utmMedium", PStr "voice");
    ("utmCampaign", PStr "orchestrated-livekit");
    ("notes", PStr "Lead captured via SanBot Voice Agent (Orchestrated Mode).") ].

(** A payload entry for a string that is there only when not empty. *)
Definition opt_entry (k s : string) : list (string * value) :=
  if s =? "" then [] else [(k, PStr s)].

End Shape.

(* ================================================================= *)
(** ** Schedules: what each caller of _login comes to *)

Module Polls.
Import Py Crm SingleFlight.

(** How often caller [i] was resumed from its sleep in a schedule. *)
Fixpoint wakes (i : nat) (evs : list event) : nat :=
  match evs with
  | [] => 0
  | Wake j _ :: evs' => (if (j =? i)%nat then 1 else 0) + wakes i evs'
  | _ :: evs' => wakes i evs'
  end.

(** The answer to the login POST in a schedule, and when it came. *)
Fixpoint answer (evs : list event) : option (Z * http_outcome) :=
  match evs with
  | [] => None
  | Reply _ now o :: _ => Some (now, o)
  | _ :: evs' => answer evs'
  end.

(** A poll that found no valid token: sleep again, or give up at the 50th. *)
Definition next_poll (k : nat) (now : Z) : caller :=
  if (S k <? 50)%nat then AwaitSleep (S k) now else Raised timed_out.

Section Outcome.

Variable py_repr : value -> string.
(** The token state at process start. *)
Variable st0 : auth_state.

(** The leader and the token state, by the answer to the POST: none yet,
    a token, or a failure. *)
Definition leader_outcome (evs : list event) (sys : system) (leader : nat) : Prop :=
  match answer evs with
  | None =>
      callers sys leader = AwaitPost
      /\ auth sys = {| _access_token := _access_token st0;
                       _token_expires_at := _token_expires_at st0;
                       _is_authenticating := true |}
  | Some (now, o) =>
      match login_token py_repr o with
      | Ok token =>
          callers sys leader = Returned token
          /\ auth sys = {| _access_token := token;
                           _token_expires_at := now + seconds TOKEN_LIFETIME_SECONDS;
                           _is_authenticating := false |}
      | Raise e =>
          callers sys leader = Raised e
          /\ auth sys = {| _access_token := _access_token st0;
                           _token_expires_at := _token_expires_at st0;
                           _is_authenticating := false |}
      end
  end.

(** A caller other than the leader, by the number of its polls: not
    entered; sleeping with exactly its polls so far behind it; returned,
    within 50 polls, with the token the leader cached and returned; or
    raised the timeout at its 50th poll. *)
Definition waiter_outcome (evs : list event) (sys : system) (leader i : nat) : Prop :=
  match callers sys i with
  | NotStarted => wakes i evs = 0%nat
  | AwaitPost => False
  | AwaitSleep k _ => k = wakes i evs /\ (k < 50)%nat
  | Returned token =>
      callers sys leader = Returned token
      /\ _access_token (auth sys) = token
      /\ (1 <= wakes i evs <= 50)%nat
  | Raised e => e = timed_out /\ wakes i evs = 50%nat
  end.

(** What the next poll of a sleeping waiter gives, at time [now]. *)
Definition poll_result (sys : system) (leader : nat) (k : nat) (now : Z) : caller :=
  match callers sys leader with
  | Returned token =>
      if (now <? _token_expires_at (auth sys))%Z then Returned token
      else next_poll k now
  | _ => next_poll k now
  end.

(** The login request, and the clock at process start. *)
Variable login : http_request.
Variable t0 : Z.

(** What holds after the leader entered and [rest] followed. *)
Definition settled (leader : nat) (rest : list event) (sys : system) : Prop :=
  sent sys = [login]
  /\ (t0 <= clock sys)%Z
  /\ leader_outcome rest sys leader
  /\ forall i, i <> leader -> waiter_outcome rest sys leader i.

End Outcome.
End Polls.

(* ================================================================= *)
(** ** Schedules: the pipeline and the background sender *)

Module Schedule.
Import HeyGen.

(** Who runs next: the voice pipeline with a call on the tap, or the
    sender task with one turn of its loop. The sender is started in
    [__init__] and runs whenever the pipeline is suspended. *)
Inductive turn : Type :=
| Pipeline (c : tap_call)
| Sender.

(** The calls of the pipeline in a schedule, in order. *)
Definition pipeline_of (sched : list turn) : list tap_call :=
  flat_map (fun x => match x with Pipeline c => [c] | Sender => [] end) sched.

(** What a call puts on the queue of a tap without a resampler. *)
Definition queued_by (c : tap_call) : list bytes :=
  match c with
  | CaptureFrame f => [data f]
  | Flush => [FLUSH]
  | ClearBuffer => []
  end.

(** A call that only adds to the queue of a tap without a resampler: a
    frame at the rate of the avatar, or a flush. *)
Definition adds_audio (c : tap_call) : bool :=
  match c with
  | CaptureFrame f => (sample_rate f =? HEYGEN_SAMPLE_RATE)%Z
  | Flush => true
  | ClearBuffer => false
  end.

(** The speak-end notifications among the calls of the sender. *)
Definition speak_ends (effs : list sender_effect) : nat :=
  List.length (filter (fun e => match e with NotifySpeakEnd => true | _ => false end) effs).

Definition bytes_eq_dec (a b : bytes) : {a = b} + {a <> b} :=
  list_eq_dec Byte.byte_eq_dec a b.

(** The speak-end marks in a stream. *)
Definition marks (l : list token) : nat :=
  List.length (filter (fun x => match x with SpeakEnd => true | AudioByte _ => false end) l).

Section Turns.

Variable resampler : Type.
Variable new_resampler : Z -> Z -> Z -> resampler.
Variable resampler_push : resampler -> frame -> resampler * list frame.
Variable resampler_flush : resampler -> resampler * list frame.
Variable b64encode : bytes -> string.

(** The tap after the sender took items off its queue. *)
Definition set_queue (t : tap resampler) (q : list bytes) : tap resampler :=
  {| _resampler := _resampler resampler t;
     _resampler_checked := _resampler_checked resampler t;
     _send_queue := q;
     _closed := _closed resampler t;
     _segment_active := _segment_active resampler t;
     capturing := capturing resampler t;
     playback_segments_count := playback_segments_count resampler t |}.

(** The tap under a schedule: the calls of the pipeline act on it as they
    come; a turn of the sender takes its batch off the queue as it then is
    and sends it (a sender that finds the queue empty stays in [get()]).
    The sender's awaits inside a turn touch no state of the tap, so its
    messages are recorded at the point the batch is taken. *)
Fixpoint interleave (t : tap resampler) (sched : list turn)
  : tap resampler * list tap_effect * list sender_effect :=
  match sched with
  | [] => (t, [], [])
  | Pipeline c :: sched' =>
      let '(t1, e1) := call resampler new_resampler resampler_push resampler_flush t c in
      let '(t2, e2, m2) := interleave t1 sched' in
      (t2, e1 ++ e2, m2)
  | Sender :: sched' =>
      match send_iteration b64encode (_send_queue resampler t) with
      | None => interleave t sched'
      | Some (m1, q') =>
          let '(t2, e2, m2) := interleave (set_queue t q') sched' in
          (t2, e2, m1 ++ m2)
      end
  end.

End Turns.
End Schedule.

(* ================================================================= *)
(** ** Properties of the Python string helpers *)

Module PyStrFacts.
Import PyStr.

Lemma prefix_split (n h : string) :
  prefix n h = true <-> exists b, h = n ^ b.
Proof.
  revert h; induction n as [|c n IH]; intros h; simpl.
  - split; [intros _; now exists h | intros _; now destruct h].
  - destruct h as [|d h]; simpl.
    + split; [discriminate | intros [b Hb]; discriminate].
    + destruct (ascii_dec c d) as [->|Hne].
      * rewrite IH. split; intros [b Hb]; exists b; congruence.
      * split; [discriminate | intros [b Hb]; congruence].
Qed.

(** [contains] is the substring test. *)
Lemma contains_split (n h : string) :
  contains n h = true <-> exists a b, h = a ^ n ^ b.
Proof.
  induction h as [|d h IH]; cbn [contains].
  - rewrite orb_false_r, prefix_split. split.
    + intros [b Hb]. now exists "", b.
    + intros [a [b Hab]]. destruct a; simpl in Hab; [now exists b | discriminate].
  - rewrite orb_true_iff, prefix_split, IH. split.
    + intros [[b Hb] | [a [b Hab]]].
      * now exists "", b.
      * exists (String d a), b. simpl. now rewrite Hab.
    + intros [a [b Hab]]. destruct a as [|c a]; simpl in Hab.
      * left. now exists b.
      * right. exists a, b. congruence.
Qed.

Lemma lower_empty (s : string) : (lower s =? "") = (s =? "").
Proof. now destruct s. Qed.

End PyStrFacts.

(* ================================================================= *)
(** ** Properties of the CRM gateway *)

Module CrmFacts.
Import Py Crm.

(* ----------------------------------------------------------------- *)
(** *** Normalization of hotel types and meal plans *)

Lemma hotel_follows_table (s : string) :
  _normalize_hotel_type s = RuleTable.normalize RuleTable.hotel_rules s.
Proof.
  unfold _normalize_hotel_type, RuleTable.normalize.
  destruct (s =? ""); [reflexivity|].
  unfold RuleTable.hotel_rules, RuleTable.matches, any_in; cbn [find existsb RuleTable.substrings RuleTable.codes RuleTable.category].
  rewrite ?orb_false_r.
  repeat match goal with
         | |- context [if ?b then _ else _] => destruct b; [reflexivity|]; cbn [orb]
         end.
  reflexivity.
Qed.

Lemma meal_follows_table (s : string) :
  _normalize_meal_plan s = RuleTable.normalize RuleTable.meal_rules s.
Proof.
  unfold _normalize_meal_plan, RuleTable.normalize.
  destruct (s =? ""); [reflexivity|].
  unfold RuleTable.meal_rules, RuleTable.matches, any_in; cbn [find existsb RuleTable.substrings RuleTable.codes RuleTable.category].
  rewrite ?orb_false_r.
  repeat match goal with
         | |- context [if ?b then _ else _] => destruct b; [reflexivity|]; cbn [orb]
         end.
  reflexivity.
Qed.

Lemma table_case_insensitive (rules : list RuleTable.rule) :
  RuleTable.case_insensitive (RuleTable.normalize rules).
Proof.
  intros s1 s2 Hl. unfold RuleTable.normalize.
  rewrite <- (PyStrFacts.lower_empty s1), <- (PyStrFacts.lower_empty s2), Hl.
  destruct (PyStr.lower s2 =? ""); [now left|].
  destruct (find _ rules); [now left | now right].
Qed.



(* ----------------------------------------------------------------- *)
(** *** Requests with the cached token *)

Lemma lookup_app (a b : list (string * value)) (k : string) :
  lookup (a ++ b) k = match lookup a k with Some v => Some v | None => lookup b k end.
Proof.
  induction a as [|[k' v] a IH]; simpl; [reflexivity|].
  destruct (k' =? k); [reflexivity | exact IH].
Qed.

Section Gateway.

Variables CRM_BASE_URL : string.
Variable urlencode : list (string * value) -> string.
Variable py_repr : value -> string.

Local Abbreviation crm_request := (_crm_request CRM_BASE_URL py_repr).
Local Abbreviation save := (save_lead CRM_BASE_URL py_repr).
Local Abbreviation find := (find_packages CRM_BASE_URL urlencode py_repr).
Local Abbreviation details := (get_package_details CRM_BASE_URL py_repr).

Lemma crm_request_no_token st net endpoint method body :
  truthy (_access_token st) = false ->
  crm_request st net endpoint method body
  = (failure "CRM not authenticated (token missing)", []).
Proof. intros H. unfold _crm_request. now rewrite H. Qed.

Lemma crm_request_with_token st net endpoint method body :
  truthy (_access_token st) = true ->
  crm_request st net endpoint method body
  = (crm_response (net (crm_call CRM_BASE_URL py_repr st endpoint method body)),
     [crm_call CRM_BASE_URL py_repr st endpoint method body]).
Proof. intros H. unfold _crm_request. now rewrite H. Qed.

(** Requests of the CRM gateway carry the 10 s timeout of the shared client, the
    login POST its own 20 s: no gateway request is the login request. *)
Lemma crm_request_is_not_login st net endpoint method body email password :
  ~ In (login_request CRM_BASE_URL email password)
       (snd (crm_request st net endpoint method body)).
Proof.
  unfold _crm_request. destruct (negb (truthy (_access_token st))); simpl.
  - tauto.
  - intros [H | []]. apply (f_equal req_timeout) in H. discriminate H.
Qed.

(** C3. With no token cached, [_crm_request] returns the not-authenticated
    failure ([success: false], a message of its own) and sends nothing; so do
    the three tool operations; and with or without a token, no request sent
    by [_crm_request] or by a tool operation is the login request. *)
Theorem no_token_fails_fast_without_login :
  (forall st net endpoint method body,
      truthy (_access_token st) = false ->
      crm_request st net endpoint method body
      = (PDict [("success", PBool false);
                ("error", PStr "CRM not authenticated (token missing)")], []))
  /\ (forall st net params,
      truthy (_access_token st) = false ->
      snd (save st net params) = [] /\ snd (find st net params) = []
      /\ (forall p, lead_payload params = Ok p ->
            fst (save st net params)
            = Ok (PDict [("success", PBool false);
                         ("message", PStr "Failed to save lead: CRM not authenticated (token missing)")]))
      /\ (forall q, find_packages_query py_repr params = Ok q ->
            fst (find st net params)
            = Ok (PDict [("success", PBool false);
                         ("message", PStr "Could not fetch packages: CRM not authenticated (token missing)");
                         ("packages", PList [])])))
  /\ (forall st net package_id,
      truthy (_access_token st) = false ->
      details st net package_id
      = (Ok (PDict [("success", PBool false);
                    ("message", PStr "Could not find package: CRM not authenticated (token missing)")]),
         []))
  /\ (forall st net email password,
      (forall endpoint method body,
          ~ In (login_request CRM_BASE_URL email password)
               (snd (crm_request st net endpoint method body)))
      /\ (forall params,
          ~ In (login_request CRM_BASE_URL email password) (snd (save st net params))
          /\ ~ In (login_request CRM_BASE_URL email password) (snd (find st net params)))
      /\ (forall package_id,
          ~ In (login_request CRM_BASE_URL email password) (snd (details st net package_id)))).
Proof.
  split; [exact crm_request_no_token|].
  split.
  { intros st net params H. unfold save_lead, find_packages.
    repeat split.
    - destruct (lead_payload params); [|reflexivity].
      now rewrite crm_request_no_token.
    - destruct (find_packages_query py_repr params); [|reflexivity].
      now rewrite crm_request_no_token.
    - intros p Hp. rewrite Hp. now rewrite crm_request_no_token.
    - intros q Hq. rewrite Hq. now rewrite crm_request_no_token. }
  split.
  { intros st net package_id H. unfold get_package_details.
    now rewrite crm_request_no_token. }
  intros st net email password. split; [|split].
  - intros. apply crm_request_is_not_login.
  - intros params. unfold save_lead, find_packages. split.
    + destruct (lead_payload params); [|simpl; tauto].
      pose proof (crm_request_is_not_login st net "leads" "POST" (PDict a) email password) as H.
      destruct (crm_request st net "leads" "POST" (PDict a)). exact H.
    + destruct (find_packages_query py_repr params) as [q|]; [|simpl; tauto].
      pose proof (crm_request_is_not_login st net (find_packages_endpoint urlencode q)
                    "GET" PNone email password) as H.
      destruct (crm_request st net (find_packages_endpoint urlencode q) "GET" PNone). exact H.
  - intros package_id. unfold get_package_details.
    pose proof (crm_request_is_not_login st net ("packages/" ^ package_id)
                  "GET" PNone email password) as H.
    destruct (crm_request st net ("packages/" ^ package_id) "GET" PNone). exact H.
Qed.

(** C10. A cached token whose expiry has passed is not looked at by
    [_crm_request]: the token is no longer valid for [_has_valid_token], yet
    the request is sent with that token as the bearer header, and the result
    is whatever the answer maps to; a 401 answer becomes the token-expired
    failure. *)
Theorem stale_token_is_sent_anyway :
  forall tok expires flag now net endpoint method body,
    truthy tok = true ->
    (expires <= now)%Z ->
    let st := {| _access_token := tok; _token_expires_at := expires;
                 _is_authenticating := flag |} in
    let req := {| req_method := method;
                  req_url := _url CRM_BASE_URL endpoint;
                  req_headers := [("Content-Type", "application/json");
                                  ("Authorization", "Bearer " ^ str py_repr tok)];
                  req_json := if method =? "GET" then PNone else body;
                  req_timeout := 10 |} in
    _has_valid_token st now = false
    /\ crm_request st net endpoint method body = (crm_response (net req), [req])
    /\ (forall text json,
          net req = HttpResponse 401 text json ->
          fst (crm_request st net endpoint method body)
          = PDict [("success", PBool false);
                   ("error", PStr "CRM token expired — restart agent to refresh")]).
Proof.
  intros tok expires flag now net endpoint method body Htok Hexp st req.
  assert (Hreq : crm_call CRM_BASE_URL py_repr st endpoint method body = req).
  { unfold crm_call, _auth_headers, st, req; simpl. now rewrite Htok. }
  split; [|split].
  - unfold _has_valid_token, st; simpl.
    replace (now <? expires)%Z with false by (symmetry; apply Z.ltb_ge; exact Hexp).
    apply andb_false_r.
  - rewrite crm_request_with_token by exact Htok. now rewrite Hreq.
  - intros text json Hnet.
    rewrite crm_request_with_token by exact Htok. rewrite Hreq, Hnet. reflexivity.
Qed.

End Gateway.

Lemma stale_token_is_sent_anyway_witness :
  let st := {| _access_token := PStr "tok"; _token_expires_at := 3000000;
               _is_authenticating := false |} in
  let net := fun _ : http_request => HttpResponse 401 "" (Ok PNone) in
  _has_valid_token st 3000001 = false
  /\ snd (_crm_request "https://crm.tripandevent.com/api" (fun _ => "") st net
            "packages" "GET" PNone)
     = [ {| req_method := "GET";
            req_url := "https://crm.tripandevent.com/api/packages";
            req_headers := [("Content-Type", "application/json");
                            ("Authorization", "Bearer tok")];
            req_json := PNone;
            req_timeout := 10 |} ].
Proof.
  destruct (stale_token_is_sent_anyway "https://crm.tripandevent.com/api" (fun _ => "")
              (PStr "tok") 3000000 false 3000001
              (fun _ => HttpResponse 401 "" (Ok PNone)) "packages" "GET" PNone
              eq_refl ltac:(lia)) as (Hvalid & Hsent & _).
  split; [exact Hvalid|].
  cbv zeta. rewrite Hsent. reflexivity.
Defined.

Lemma no_token_fails_fast_without_login_witness :
  _crm_request "https://crm.tripandevent.com/api" (fun _ => "")
    {| _access_token := PNone; _token_expires_at := 0; _is_authenticating := false |}
    (fun _ => HttpResponse 200 "{}" (Ok (PDict []))) "packages" "GET" PNone
  = (PDict [("success", PBool false);
            ("error", PStr "CRM not authenticated (token missing)")], []).
Proof.
  destruct (no_token_fails_fast_without_login "https://crm.tripandevent.com/api"
              (fun _ => "") (fun _ => "")) as (H & _).
  apply H. reflexivity.
Defined.

(* ----------------------------------------------------------------- *)
(** *** find_packages: the duration filter *)

Section Operations.

Variables CRM_BASE_URL : string.
Variable urlencode : list (string * value) -> string.
Variable py_repr : value -> string.

(** The filters in front of the nights range use other keys. *)
Lemma filters_before_nights (params : list (string * value)) (k : string) :
  k = "minNights" \/ k = "maxNights" ->
  lookup (find_packages_filters py_repr params) k = None.
Proof.
  intros Hk. unfold find_packages_filters, add_str_param. cbv zeta.
  repeat match goal with
         | |- context [if truthy ?v then _ else _] => destruct (truthy v)
         end;
    rewrite ?lookup_app; destruct Hk as [-> | ->]; reflexivity.
Qed.

Lemma max_1_int (z : Z) : max_1 (PInt z) = PInt (Z.max 1 z).
Proof.
  unfold max_1. destruct (Z.ltb_spec 1 z); f_equal; lia.
Qed.

Lemma query_with_nights (params : list (string * value)) (n : Z) :
  (0 < n)%Z ->
  dict_get params "nights" PNone = PInt n ->
  find_packages_query py_repr params
  = Ok ((find_packages_filters py_repr params
         ++ [("minNights", PStr (PyStr.of_Z (Z.max 1 (n - 1))));
             ("maxNights", PStr (PyStr.of_Z (n + 1)))])
        ++ [("limit", PStr (str py_repr (dict_get params "limit" (PInt 5))))]).
Proof.
  intros Hpos Hn. unfold find_packages_query. rewrite Hn.
  assert (Ht : truthy (PInt n) = true).
  { simpl. destruct (Z.eqb_spec n 0); [lia | reflexivity]. }
  rewrite Ht. unfold nights_range. cbn [minus_one plus_one bind].
  rewrite max_1_int. reflexivity.
Qed.

(** C7, as the code has it. For a positive duration [n] the query carries
    [minNights = max(1, n - 1)] and [maxNights = n + 1], and these go into
    the URL of the request; from two nights on this is the range
    [n - 1 .. n + 1], and for one night the lower bound stays at 1. *)
Theorem duration_filter_range :
  forall params n,
    (0 < n)%Z ->
    dict_get params "nights" PNone = PInt n ->
    exists q,
      find_packages_query py_repr params = Ok q
      /\ lookup q "minNights" = Some (PStr (PyStr.of_Z (Z.max 1 (n - 1))))
      /\ lookup q "maxNights" = Some (PStr (PyStr.of_Z (n + 1)))
      /\ ((2 <= n)%Z -> lookup q "minNights" = Some (PStr (PyStr.of_Z (n - 1))))
      /\ (forall st net,
            truthy (_access_token st) = true ->
            map req_url (snd (find_packages CRM_BASE_URL urlencode py_repr st net params))
            = [_url CRM_BASE_URL ("packages?" ^ urlencode q)]).
Proof.
  intros params n Hpos Hn.
  eexists. split; [apply (query_with_nights params n Hpos Hn)|].
  assert (Hmin : forall k, lookup (find_packages_filters py_repr params) k = None ->
                   forall (r l : list (string * value)),
                   lookup ((find_packages_filters py_repr params ++ r) ++ l) k
                   = match lookup r k with Some v => Some v | None => lookup l k end).
  { intros k Hk r l. now rewrite !lookup_app, Hk. }
  split; [|split; [|split]].
  - rewrite Hmin by (apply filters_before_nights; now left). reflexivity.
  - rewrite Hmin by (apply filters_before_nights; now right). reflexivity.
  - intros H2. rewrite Hmin by (apply filters_before_nights; now left).
    rewrite Z.max_r by lia. reflexivity.
  - intros st net Htok. unfold find_packages.
    rewrite (query_with_nights params n Hpos Hn).
    unfold _crm_request. rewrite Htok. cbn [negb snd map req_url crm_call].
    unfold find_packages_endpoint.
    match goal with
    | |- context [match ?l ++ [?x] with [] => _ | _ :: _ => _ end] =>
        destruct (l ++ [x]) eqn:E; [now apply app_eq_nil in E | reflexivity]
    end.
Qed.

End Operations.

Lemma duration_filter_range_witness :
  exists q,
    find_packages_query (fun _ => "") [("query", PStr "goa"); ("nights", PInt 3)] = Ok q
    /\ lookup q "minNights" = Some (PStr "2")
    /\ lookup q "maxNights" = Some (PStr "4").
Proof.
  destruct (duration_filter_range "https://crm.tripandevent.com/api" (fun _ => "")
              (fun _ => "") [("query", PStr "goa"); ("nights", PInt 3)] 3
              ltac:(lia) eq_refl) as (q & Hq & Hmin & Hmax & _).
  exists q. repeat split; assumption.
Defined.

(** C7 as written fails for one night: the lower bound sent is 1, not 0. *)
Lemma duration_filter_one_night :
  exists q,
    find_packages_query (fun _ => "") [("query", PStr "goa"); ("nights", PInt 1)] = Ok q
    /\ lookup q "minNights" = Some (PStr "1")
    /\ lookup q "minNights" <> Some (PStr (PyStr.of_Z (1 - 1)))
    /\ lookup q "maxNights" = Some (PStr (PyStr.of_Z (1 + 1))).
Proof.
  eexists. split; [reflexivity|].
  split; [reflexivity|]. split; [discriminate | reflexivity].
Qed.

(* ----------------------------------------------------------------- *)
(** *** save_lead: the payload and the success test *)

Lemma drop_none_has_no_none (d : list (string * value)) :
  Forall (fun kv => snd kv <> PNone) (drop_none d).
Proof.
  apply Forall_forall. intros [k v] Hin.
  apply filter_In in Hin. destruct Hin as [_ Hv].
  simpl in *. intros ->. discriminate Hv.
Qed.

Section SaveLead.

Variables CRM_BASE_URL : string.
Variable py_repr : value -> string.

Lemma save_lead_on_object st net params p d :
  lead_payload params = Ok p ->
  fst (_crm_request CRM_BASE_URL py_repr st net "leads" "POST" (PDict p)) = PDict d ->
  Outcome.reports_success (fst (save_lead CRM_BASE_URL py_repr st net params))
  = Outcome.has_truthy_lead_key d.
Proof.
  intros Hp Hd. unfold save_lead. rewrite Hp.
  destruct (_crm_request CRM_BASE_URL py_repr st net "leads" "POST" (PDict p))
    as [result reqs].
  simpl in Hd. subst result. cbn [fst].
  unfold save_lead_result, Outcome.has_truthy_lead_key. cbn [get bind].
  destruct (truthy (dict_get d "success" PNone) || truthy (dict_get d "id" PNone)
            || truthy (dict_get d "lead_id" PNone)); reflexivity.
Qed.

(** C5, as the code has it. With only [name = "Asha"] the payload is the
    name, the party defaults and the attribution tags, and no payload ever
    has a None value; whenever the request gives back a JSON object,
    [save_lead] reports success exactly when that object has a truthy value
    under [success], [id] or [lead_id] - also for a response with a status
    below 400, and so for HTTP 200. *)
Theorem save_lead_payload_and_success :
  lead_payload [("name", PStr "Asha")]
  = Ok [ ("name", PStr "Asha"); ("adults", PInt 2); ("children", PInt 0);
         ("infants", PInt 0); ("source", PStr "Voice Agent");
         ("sourceType", PStr "voice_agent"); ("utmSource", PStr "sanbot");
         ("utmMedium", PStr "voice"); ("utmCampaign", PStr "orchestrated-livekit");
         ("notes", PStr "Lead captured via SanBot Voice Agent (Orchestrated Mode).") ]
  /\ lead_payload [("name", PStr "Asha"); ("phone", PStr ""); ("email", PStr "");
                   ("conversation_summary", PStr "")]
     = lead_payload [("name", PStr "Asha")]
  /\ (forall params p,
        lead_payload params = Ok p -> Forall (fun kv => snd kv <> PNone) p)
  /\ (forall st net params p d,
        lead_payload params = Ok p ->
        fst (_crm_request CRM_BASE_URL py_repr st net "leads" "POST" (PDict p)) = PDict d ->
        Outcome.reports_success (fst (save_lead CRM_BASE_URL py_repr st net params))
        = Outcome.has_truthy_lead_key d)
  /\ (forall st status text params p d,
        truthy (_access_token st) = true ->
        lead_payload params = Ok p ->
        (status < 400)%Z ->
        Outcome.reports_success
          (fst (save_lead CRM_BASE_URL py_repr st
                  (fun _ => HttpResponse status text (Ok (PDict d))) params))
        = Outcome.has_truthy_lead_key d).
Proof.
  split; [reflexivity|]. split; [reflexivity|].
  split.
  { intros params p Hp. unfold lead_payload in Hp.
    destruct (lead_fields params) as [fields|]; [|discriminate].
    simpl in Hp. injection Hp as <-. apply drop_none_has_no_none. }
  split; [exact save_lead_on_object|].
  intros st status text params p d Htok Hp Hstatus.
  apply save_lead_on_object with (p := p); [exact Hp|].
  unfold _crm_request. rewrite Htok. cbn [negb fst crm_response].
  destruct (Z.eqb_spec status 401); [lia|].
  destruct (Z.geb_spec status 400); [lia | reflexivity].
Qed.

End SaveLead.

Lemma save_lead_payload_and_success_witness :
  Outcome.reports_success
    (fst (save_lead "https://crm.tripandevent.com/api" (fun _ => "")
            {| _access_token := PStr "tok"; _token_expires_at := 3000000;
               _is_authenticating := false |}
            (fun _ => HttpResponse 200 "" (Ok (PDict [("id", PInt 17)])))
            [("name", PStr "Asha")]))
  = true
  /\ Forall (fun kv => snd kv <> PNone)
       [ ("name", PStr "Asha"); ("adults", PInt 2); ("children", PInt 0);
         ("infants", PInt 0); ("source", PStr "Voice Agent");
         ("sourceType", PStr "voice_agent"); ("utmSource", PStr "sanbot");
         ("utmMedium", PStr "voice"); ("utmCampaign", PStr "orchestrated-livekit");
         ("notes", PStr "Lead captured via SanBot Voice Agent (Orchestrated Mode).") ].
Proof.
  destruct (save_lead_payload_and_success "https://crm.tripandevent.com/api" (fun _ => ""))
    as (Hasha & _ & Hnone & _ & Hresp).
  split.
  - rewrite (Hresp {| _access_token := PStr "tok"; _token_expires_at := 3000000;
                       _is_authenticating := false |}
               200%Z "" [("name", PStr "Asha")] _ [("id", PInt 17)]
               eq_refl Hasha ltac:(lia)).
    reflexivity.
  - apply (Hnone [("name", PStr "Asha")]). exact Hasha.
Defined.

(** C5 as written fails: a response that has the key [success] with the
    value false has one of the three keys, and [save_lead] reports failure. *)
Lemma save_lead_success_false_is_failure :
  let body := PDict [("success", PBool false)] in
  Outcome.has_lead_key body = true
  /\ Outcome.reports_success
       (fst (save_lead "https://crm.tripandevent.com/api" (fun _ => "")
               {| _access_token := PStr "tok"; _token_expires_at := 3000000;
                  _is_authenticating := false |}
               (fun _ => HttpResponse 200 "" (Ok body))
               [("name", PStr "Asha")]))
     = false.
Proof. split; reflexivity. Qed.

(* ----------------------------------------------------------------- *)
(** *** What the operations do with failures and with odd bodies *)

Section Failures.

Variables CRM_BASE_URL : string.
Variable py_repr : value -> string.

(** A transport exception, a 401 and any status from 400 on all become the
    tagged failure of [_crm_request]. *)
Lemma crm_response_failure (o : http_outcome) :
  match o with
  | HttpFail _ => True
  | HttpResponse status _ json => (400 <= status)%Z \/ raises json = true
  end ->
  exists msg, crm_response o = failure msg.
Proof.
  destruct o as [e | status text json]; simpl.
  - intros _. destruct e; eexists; reflexivity.
  - intros H. destruct (Z.eqb_spec status 401); [eexists; reflexivity|].
    destruct (Z.geb_spec status 400); [eexists; reflexivity|].
    destruct H as [H | H]; [lia|].
    destruct json as [v | e]; [discriminate|].
    destruct e; eexists; reflexivity.
Qed.

(** Each operation turns a tagged failure of [_crm_request] into a tagged
    failure of its own, without raising. *)
Lemma failures_stay_tagged (msg : string) (params : list (string * value))
    (package_id : string) :
  Outcome.tagged_failure (save_lead_result py_repr params (failure msg)) = true
  /\ Outcome.tagged_failure (find_packages_result py_repr (failure msg)) = true
  /\ Outcome.tagged_failure (get_package_details_result py_repr package_id (failure msg)) = true.
Proof. repeat split. Qed.

End Failures.

(** C4 fails on the code. With a token cached and the CRM answering HTTP 200
    with the JSON array [[]], [find_packages] raises [AttributeError] instead
    of returning a result; so do [get_package_details] and [save_lead]. *)
Theorem find_packages_raises_on_array_body :
  let st := {| _access_token := PStr "tok"; _token_expires_at := 3000000;
               _is_authenticating := false |} in
  let net := fun _ : http_request => HttpResponse 200 "[]" (Ok (PList [])) in
  fst (find_packages "https://crm.tripandevent.com/api" (fun _ => "destination=goa&limit=5")
         (fun _ => "") st net [("query", PStr "goa")])
  = Raise (AttributeError "'list' object has no attribute 'get'")
  /\ fst (get_package_details "https://crm.tripandevent.com/api" (fun _ => "") st net "42")
     = Raise (AttributeError "'list' object has no attribute 'get'")
  /\ fst (save_lead "https://crm.tripandevent.com/api" (fun _ => "") st net
            [("name", PStr "Asha")])
     = Raise (AttributeError "'list' object has no attribute 'get'").
Proof. repeat split. Qed.

End CrmFacts.

(* ================================================================= *)
(** ** Properties of the audio tap and of the avatar session *)

Module HeyGenFacts.
Import HeyGen Sample.

Section Tap.

Variable resampler : Type.
Variable new_resampler : Z -> Z -> Z -> resampler.
Variable resampler_push : resampler -> frame -> resampler * list frame.
Variable resampler_flush : resampler -> resampler * list frame.
Variable b64encode : bytes -> string.

Local Abbreviation tap := (HeyGen.tap resampler).
Local Abbreviation capture := (capture_frame resampler new_resampler resampler_push).
Local Abbreviation flush := (HeyGen.flush resampler resampler_flush).
Local Abbreviation clear := (clear_buffer resampler).
Local Abbreviation calls := (HeyGen.calls resampler new_resampler resampler_push resampler_flush).
Local Abbreviation call := (HeyGen.call resampler new_resampler resampler_push resampler_flush).

(* ----------------------------------------------------------------- *)
(** *** Segments *)

Lemma capture_starts_segment (t : tap) (f : frame) :
  _segment_active resampler (capture t f) = true.
Proof.
  unfold capture_frame. destruct (_closed resampler t); [reflexivity|].
  destruct (if negb (_resampler_checked resampler t)
               && negb (sample_rate f =? HEYGEN_SAMPLE_RATE)%Z
            then Some (new_resampler (sample_rate f) HEYGEN_SAMPLE_RATE 1)
            else _resampler resampler t) as [rs|]; [|reflexivity].
  destruct (resampler_push rs f). reflexivity.
Qed.

Lemma calls_app (t : tap) (a b : list tap_call) :
  calls t (a ++ b)
  = let '(t1, e1) := calls t a in
    let '(t2, e2) := calls t1 b in
    (t2, e1 ++ e2).
Proof.
  revert t; induction a as [|c a IH]; intros t; simpl.
  - destruct (calls t b); reflexivity.
  - destruct (call t c) as [t1 e1]. rewrite IH.
    destruct (calls t1 a) as [t2 e2]. destruct (calls t2 b) as [t3 e3].
    now rewrite app_assoc.
Qed.

(** Capturing frames signals nothing, and leaves a segment active. *)
Lemma captures_are_silent (t : tap) (f : frame) (fs : list frame) :
  snd (calls t (map CaptureFrame (f :: fs))) = []
  /\ _segment_active resampler (fst (calls t (map CaptureFrame (f :: fs)))) = true.
Proof.
  revert t f; induction fs as [|g fs IH]; intros t f.
  - simpl. split; [reflexivity | apply capture_starts_segment].
  - specialize (IH (capture t f) g).
    change (map CaptureFrame (f :: g :: fs))
      with (CaptureFrame f :: map CaptureFrame (g :: fs)).
    cbn [HeyGen.calls HeyGen.call].
    destruct (calls (capture t f) (map CaptureFrame (g :: fs))) as [t2 e2].
    simpl in IH |- *. exact IH.
Qed.

Lemma flush_signals (t : tap) :
  finished_signals (snd (flush t))
  = (if _segment_active resampler t then [false] else [])
  /\ _segment_active resampler (fst (flush t)) = false.
Proof.
  unfold HeyGen.flush.
  destruct (_resampler resampler t) as [rs|]; [destruct (resampler_flush rs)|];
    destruct (_segment_active resampler t); split; reflexivity.
Qed.

Lemma clear_signals (t : tap) :
  finished_signals (snd (clear t))
  = (if _segment_active resampler t then [true] else [])
  /\ _segment_active resampler (fst (clear t)) = false.
Proof.
  unfold clear_buffer.
  destruct (_segment_active resampler t); split; reflexivity.
Qed.

(** C1. After one or more [capture_frame] calls, from any state of the tap,
    a [flush()] makes exactly one [on_playback_finished] call, with
    [interrupted=False], and a [clear_buffer()] exactly one, with
    [interrupted=True]; either leaves no segment active; and with no segment
    active, [flush()] and [clear_buffer()] make no such call. *)
Theorem one_finished_signal_per_segment :
  forall (t : tap) (f : frame) (fs : list frame),
    let frames := map CaptureFrame (f :: fs) in
    finished_signals (snd (calls t (frames ++ [Flush]))) = [false]
    /\ finished_signals (snd (calls t (frames ++ [ClearBuffer]))) = [true]
    /\ _segment_active resampler (fst (calls t (frames ++ [Flush]))) = false
    /\ _segment_active resampler (fst (calls t (frames ++ [ClearBuffer]))) = false
    /\ (forall t0 : tap,
          _segment_active resampler t0 = false ->
          finished_signals (snd (flush t0)) = []
          /\ finished_signals (snd (clear t0)) = []).
Proof.
  intros t f fs frames.
  destruct (captures_are_silent t f fs) as [Hsilent Hactive].
  fold frames in Hsilent, Hactive.
  rewrite !calls_app.
  destruct (calls t frames) as [t1 e1]. simpl in Hsilent, Hactive. subst e1.
  cbn [HeyGen.calls HeyGen.call].
  destruct (flush_signals t1) as [Hf1 Hf2]. destruct (clear_signals t1) as [Hc1 Hc2].
  rewrite Hactive in Hf1, Hc1.
  destruct (flush t1) as [tf ef]. destruct (clear t1) as [tc ec].
  simpl in *. rewrite !app_nil_r.
  repeat split; try assumption.
  - destruct (flush_signals t0) as [H0 _]. now rewrite H in H0.
  - destruct (clear_signals t0) as [H0 _]. now rewrite H in H0.
Qed.

(* ----------------------------------------------------------------- *)
(** *** The sender and the sentinel *)

Lemma drain_batch_to_sentinel (chunks : list bytes) (batch : bytes) (rest : list bytes) :
  forallb (fun c => negb (is_flush c)) chunks = true ->
  drain_batch batch (chunks ++ FLUSH :: rest) = (batch ++ List.concat chunks, true, rest).
Proof.
  revert batch; induction chunks as [|c chunks IH]; intros batch H; simpl.
  - now rewrite app_nil_r.
  - simpl in H. apply andb_true_iff in H. destruct H as [Hc H].
    destruct (is_flush c); [discriminate|].
    rewrite IH by exact H. now rewrite app_assoc.
Qed.

Lemma drain_batch_stream (q : list bytes) :
  forall batch b found rest,
    drain_batch batch q = (b, found, rest) ->
    (List.length rest <= List.length q)%nat
    /\ map AudioByte b ++ (if found then [SpeakEnd] else []) ++ queue_stream rest
       = map AudioByte batch ++ queue_stream q.
Proof.
  induction q as [|extra q IH]; intros batch b found rest H; simpl in H.
  - injection H as <- <- <-. split; [lia | reflexivity].
  - unfold queue_stream at 2. cbn [flat_map]. fold (queue_stream q).
    destruct (is_flush extra).
    + injection H as <- <- <-. split; [simpl; lia | reflexivity].
    + apply IH in H. destruct H as [Hlen Hs]. split; [simpl; lia|].
      rewrite Hs, map_app, app_assoc. reflexivity.
Qed.

Lemma send_iteration_stream (q : list bytes) effs rest :
  send_iteration b64encode q = Some (effs, rest) ->
  exists ms,
    effs = map (encode_message b64encode) ms
    /\ message_stream ms ++ queue_stream rest = queue_stream q
    /\ (List.length rest < List.length q)%nat.
Proof.
  destruct q as [|item q]; [discriminate|].
  unfold send_iteration. unfold queue_stream at 2. cbn [flat_map]. fold (queue_stream q).
  destruct (is_flush item).
  - intros H. injection H as <- <-. exists [None]. repeat split. simpl. lia.
  - destruct (drain_batch item q) as [[b found] r] eqn:E.
    intros H. injection H as <- <-.
    apply drain_batch_stream in E. destruct E as [Hlen Hs].
    exists (Some b :: (if found then [None] else [])).
    split; [destruct found; reflexivity|].
    split; [|simpl; lia].
    rewrite <- Hs. destruct found; simpl; rewrite ?app_nil_r, <- ?app_assoc; reflexivity.
Qed.

Lemma message_stream_app (a b : list (option bytes)) :
  message_stream (a ++ b) = message_stream a ++ message_stream b.
Proof. unfold message_stream. apply flat_map_app. Qed.

Lemma send_loop_stream (fuel : nat) :
  forall q,
    (List.length q <= fuel)%nat ->
    exists ms,
      send_loop b64encode fuel q = (map (encode_message b64encode) ms, [])
      /\ message_stream ms = queue_stream q.
Proof.
  induction fuel as [|fuel IH]; intros q Hlen.
  - destruct q; [|simpl in Hlen; lia]. now exists [].
  - cbn [send_loop]. destruct (send_iteration b64encode q) as [[effs rest]|] eqn:E.
    + apply send_iteration_stream in E. destruct E as (ms1 & -> & Hs & Hlt).
      destruct (IH rest ltac:(lia)) as (ms2 & Hrun & Hs2).
      rewrite Hrun. exists (ms1 ++ ms2). split; [now rewrite map_app|].
      rewrite message_stream_app, Hs2. exact Hs.
    + destruct q as [|item q]; [now exists []|].
      unfold send_iteration in E. destruct (is_flush item); [discriminate|].
      destruct (drain_batch item q) as [[b found] r]. discriminate.
Qed.

(** C8. In one turn of the sender, audio chunks followed by the sentinel go
    out as one audio message holding exactly those chunks and then, as a
    message of its own, the speak-end; a sentinel at the head of the queue
    gives the speak-end alone. Over a whole queue the loop empties it, and
    the messages sent carry the audio bytes and the speak-end marks in the
    order they were queued. *)
Theorem sentinel_is_never_batched :
  (forall item chunks rest,
      is_flush item = false ->
      forallb (fun c => negb (is_flush c)) chunks = true ->
      send_iteration b64encode (item :: chunks ++ FLUSH :: rest)
      = Some ([SendAudio (b64encode (item ++ List.concat chunks)); NotifySpeakEnd], rest))
  /\ (forall rest,
      send_iteration b64encode (FLUSH :: rest) = Some ([NotifySpeakEnd], rest))
  /\ (forall q,
      exists ms,
        send_loop b64encode (List.length q) q = (map (encode_message b64encode) ms, [])
        /\ message_stream ms = queue_stream q).
Proof.
  split; [|split].
  - intros item chunks rest Hitem Hchunks. unfold send_iteration.
    rewrite Hitem, drain_batch_to_sentinel by exact Hchunks. reflexivity.
  - intros rest. reflexivity.
  - intros q. apply send_loop_stream. lia.
Qed.

(* ----------------------------------------------------------------- *)
(** *** stop() *)

Local Abbreviation session := (HeyGen.session resampler).
Local Abbreviation stop := (HeyGen.stop resampler).

Lemma stop_not_started (s : session) original :
  _started resampler s = false -> stop s original = (s, None, []).
Proof. intros H. unfold HeyGen.stop. now rewrite H. Qed.

Lemma stop_requests_app (a b : list (session_effect)) :
  stop_requests (a ++ b) = stop_requests a ++ stop_requests b.
Proof. unfold stop_requests. apply filter_app. Qed.

Lemma stop_requests_tap (l : list tap_effect) :
  stop_requests (map TapEffect l) = [].
Proof. induction l; simpl; auto. Qed.

Lemma stop_requests_cancel (o : option keep_alive_task) :
  stop_requests (cancel o) = [].
Proof. destruct o; reflexivity. Qed.

Lemma stop_requests_cleanup (s : session) :
  stop_requests (snd (_cleanup_ws resampler s)) = [].
Proof.
  unfold _cleanup_ws. cbn [snd].
  destruct (_ws resampler s) as [[|]|], (_ws_session resampler s) as [u|]; reflexivity.
Qed.

(** A [stop()] that returns leaves the session not started, and has asked
    the avatar service to stop at most once. *)
Lemma stop_returns (s s' : session) original effs :
  stop s original = (s', None, effs) ->
  _started resampler s' = false /\ (List.length (stop_requests effs) <= 1)%nat.
Proof.
  unfold HeyGen.stop. destruct (_started resampler s) eqn:Hs; cbn [negb].
  2:{ intros H. injection H as <- <-. split; [exact Hs | simpl; lia]. }
  destruct (match _audio_tap resampler s with
            | Some t => let '(t', r, e) := aclose resampler t original in
                        (Some t', r, map TapEffect e)
            | None => (None, None, [])
            end) as [[tap' raised] e_tap] eqn:Etap.
  assert (He : stop_requests e_tap = []).
  { destruct (_audio_tap resampler s) as [t|].
    - destruct (aclose resampler t original) as [[t' r] e].
      injection Etap as <- <- <-. apply stop_requests_tap.
    - injection Etap as <- <- <-. reflexivity. }
  destruct raised as [e|]; [discriminate|].
  pose proof (stop_requests_cleanup s) as Hws.
  destruct (_cleanup_ws resampler s) as [s1 e_ws]. cbn [snd] in Hws.
  intros H. injection H as <- <-. split; [reflexivity|].
  rewrite !stop_requests_app, He, Hws, !stop_requests_cancel.
  destruct (truthy_str (session_token resampler s1)); simpl; lia.
Qed.

(** C9. [stop()] on a session that is not started changes nothing and calls
    nothing; and after a [stop()] that returned - having sent the stop
    request at most once - a second [stop()] changes nothing and calls
    nothing, so no second stop request is sent. *)
Theorem stop_is_idempotent :
  (forall (s : session) original,
      _started resampler s = false -> stop s original = (s, None, []))
  /\ (forall (s s' : session) original original' effs,
      stop s original = (s', None, effs) ->
      stop s' original' = (s', None, [])
      /\ (List.length (stop_requests effs) <= 1)%nat
      /\ stop_requests (effs ++ snd (stop s' original')) = stop_requests effs).
Proof.
  split; [exact stop_not_started|].
  intros s s' original original' effs H.
  destruct (stop_returns s s' original effs H) as [Hs' Hone].
  rewrite (stop_not_started s' original' Hs').
  repeat split; [exact Hone|]. simpl. now rewrite app_nil_r.
Qed.

End Tap.

Lemma one_finished_signal_per_segment_witness :
  finished_signals (snd (flush unit no_flush (new_tap unit))) = []
  /\ finished_signals (snd (clear_buffer unit (new_tap unit))) = []
  /\ finished_signals
       (snd (calls unit (fun _ _ _ => tt) no_push no_flush (new_tap unit)
               [CaptureFrame {| sample_rate := 24000; data := [x01; x02] |};
                CaptureFrame {| sample_rate := 24000; data := [x03; x04] |};
                ClearBuffer]))
     = [true].
Proof.
  destruct (one_finished_signal_per_segment unit (fun _ _ _ => tt) no_push no_flush
              (new_tap unit) {| sample_rate := 24000; data := [x01; x02] |}
              [{| sample_rate := 24000; data := [x03; x04] |}])
    as (_ & Hclear & _ & _ & Hidle).
  destruct (Hidle (new_tap unit) eq_refl) as [H1 H2].
  repeat split; assumption.
Defined.

Lemma sentinel_is_never_batched_witness :
  send_iteration raw ([x01; x02] :: [[x03; x04]] ++ FLUSH :: [[x05]])
  = Some ([SendAudio (raw ([x01; x02] ++ List.concat [[x03; x04]])); NotifySpeakEnd],
          [[x05]]).
Proof.
  destruct (sentinel_is_never_batched raw) as (H & _ & _).
  apply H; reflexivity.
Defined.

Lemma stop_is_idempotent_witness :
  stop unit live_session None
  = (stopped_session, None,
     [TapEffect CancelSenderTask; CancelTask WsKeepAlive; CancelTask RestKeepAlive;
      WsClose; WsSessionClose; PostStop "stok" (Some "sid")])
  /\ stop unit stopped_session None = (stopped_session, None, []).
Proof.
  destruct (stop_is_idempotent unit) as (Hidle & Htwice).
  split; [reflexivity|].
  destruct (Htwice live_session stopped_session None None _ eq_refl) as (H & _ & _).
  exact H.
Defined.

End HeyGenFacts.

(* ================================================================= *)
(** ** Concurrent callers of _ensure_authenticated *)

Module LoginFacts.
Import Py Crm SingleFlight.

Lemma set_caller_same cs i c : set_caller cs i c i = c.
Proof. unfold set_caller. now rewrite Nat.eqb_refl. Qed.

Lemma set_caller_other cs i c j : j <> i -> set_caller cs i c j = cs j.
Proof.
  intros H. unfold set_caller. destruct (Nat.eqb_spec j i); [contradiction | reflexivity].
Qed.

Section Login.

Variables CRM_BASE_URL CRM_EMAIL CRM_PASSWORD : string.
Variable py_repr : value -> string.

Local Abbreviation step := (Crm.step CRM_BASE_URL CRM_EMAIL CRM_PASSWORD py_repr).
Local Abbreviation run := (Crm.run CRM_BASE_URL CRM_EMAIL CRM_PASSWORD py_repr).
Local Abbreviation the_login := (login_request CRM_BASE_URL CRM_EMAIL CRM_PASSWORD).

(** The token state at process start, and the clock then: no login in
    flight and no valid token. *)
Variable st0 : auth_state.
Variable t0 : Z.
Hypothesis idle : _is_authenticating st0 = false.
Hypothesis no_valid_token : _has_valid_token st0 t0 = false.

Local Abbreviation in_flight := (SingleFlight.in_flight the_login st0 t0).
Local Abbreviation answered := (SingleFlight.answered the_login st0 t0).

(** Time only moves on, so the token of [st0] never becomes valid. *)
Lemma never_valid (now : Z) :
  (t0 <= now)%Z ->
  (now <? _token_expires_at st0)%Z = true ->
  is_not_None (_access_token st0) = false.
Proof.
  intros Hnow Hlt. unfold _has_valid_token in no_valid_token.
  apply andb_false_iff in no_valid_token. destruct no_valid_token as [H | H]; [exact H|].
  apply Z.ltb_ge in H. apply Z.ltb_lt in Hlt. lia.
Qed.

Lemma truthy_is_not_None (v : value) : truthy v = true -> is_not_None v = true.
Proof. now destruct v. Qed.

Lemma first_enter_leads (i : nat) (now : Z) (sys : system) :
  step (boot st0 t0) (Enter i now) = Some sys -> in_flight i sys.
Proof.
  unfold Crm.step, boot; cbn [callers clock auth sent].
  destruct (Z.leb_spec t0 now) as [Hnow|]; [|discriminate].
  unfold enter.
  assert (Hv : _has_valid_token st0 now = false).
  { unfold _has_valid_token.
    destruct (now <? _token_expires_at st0)%Z eqn:E; [|apply andb_false_r].
    now rewrite (never_valid now Hnow E). }
  rewrite Hv, idle. intros H. injection H as <-.
  unfold SingleFlight.in_flight; cbn [callers clock auth sent _access_token _token_expires_at
                          _is_authenticating app].
  rewrite set_caller_same. repeat split; try reflexivity; try assumption.
  intros j Hj. now rewrite set_caller_other.
Qed.

Lemma wake_while_invalid (st : auth_state) (now : Z) (k : nat) :
  _access_token st = _access_token st0 ->
  _token_expires_at st = _token_expires_at st0 ->
  (t0 <= now)%Z -> (k < 50)%nat ->
  waiting (wake st now k).
Proof.
  intros Htok Hexp Hnow Hk. unfold wake. rewrite Htok, Hexp.
  destruct (truthy (_access_token st0)) eqn:Et; cbn [andb].
  - destruct (now <? _token_expires_at st0)%Z eqn:E.
    + apply truthy_is_not_None in Et. rewrite (never_valid now Hnow E) in Et. discriminate.
    + destruct (Nat.ltb_spec (S k) 50); simpl; [assumption | reflexivity].
  - destruct (Nat.ltb_spec (S k) 50); simpl; [assumption | reflexivity].
Qed.

Lemma step_in_flight (leader : nat) (sys sys' : system) (ev : event) :
  in_flight leader sys ->
  step sys ev = Some sys' ->
  (is_reply ev = false /\ in_flight leader sys')
  \/ (is_reply ev = true /\ answered leader sys').
Proof.
  intros (Hl & Htok & Hexp & Hflag & Hsent & Hclk & Hw) Hstep.
  destruct ev as [i now | i now | i now o]; unfold Crm.step in Hstep.
  - (* another caller enters: it finds the flag set and goes to sleep *)
    left. split; [reflexivity|].
    destruct (callers sys i) eqn:Ei; try discriminate.
    destruct (Z.leb_spec (clock sys) now) as [Hnow|]; [|discriminate].
    assert (Hi : i <> leader) by (intros ->; congruence).
    unfold enter in Hstep.
    assert (Hv : _has_valid_token (auth sys) now = false).
    { unfold _has_valid_token. rewrite Htok, Hexp.
      destruct (now <? _token_expires_at st0)%Z eqn:E; [|apply andb_false_r].
      now rewrite (never_valid now ltac:(lia) E). }
    rewrite Hv, Hflag in Hstep. injection Hstep as <-.
    unfold SingleFlight.in_flight; cbn [callers clock auth sent].
    rewrite set_caller_other by congruence. rewrite app_nil_r.
    repeat split; try assumption; try lia.
    intros j Hj. destruct (Nat.eq_dec j i) as [->|Hji].
    + rewrite set_caller_same. simpl. lia.
    + rewrite set_caller_other by exact Hji. now apply Hw.
  - (* a waiter wakes up: the token is still not valid *)
    left. split; [reflexivity|].
    destruct (callers sys i) as [| |k since| |] eqn:Ei; try discriminate.
    destruct ((clock sys <=? now)%Z && (since + 100 <=? now)%Z) eqn:Et; [|discriminate].
    apply andb_true_iff in Et. destruct Et as [Hnow _]. apply Z.leb_le in Hnow.
    assert (Hi : i <> leader) by (intros ->; congruence).
    injection Hstep as <-.
    unfold SingleFlight.in_flight; cbn [callers clock auth sent].
    rewrite set_caller_other by congruence.
    repeat split; try assumption; try lia.
    intros j Hj. destruct (Nat.eq_dec j i) as [->|Hji].
    + rewrite set_caller_same. apply wake_while_invalid; try assumption; try lia.
      specialize (Hw i Hi). now rewrite Ei in Hw.
    + rewrite set_caller_other by exact Hji. now apply Hw.
  - (* the answer arrives: only the leader awaits it *)
    right. split; [reflexivity|].
    destruct (callers sys i) eqn:Ei; try discriminate.
    destruct (Z.leb_spec (clock sys) now) as [Hnow|]; [|discriminate].
    assert (Hi : i = leader).
    { destruct (Nat.eq_dec i leader) as [e|n]; [exact e|].
      specialize (Hw i n). rewrite Ei in Hw. contradiction. }
    subst i. unfold reply in Hstep.
    destruct (login_token py_repr o) as [token | e]; injection Hstep as <-;
      unfold SingleFlight.answered; cbn [callers clock auth sent _access_token _token_expires_at
                             _is_authenticating];
      rewrite set_caller_same.
    + repeat split; try assumption; try lia.
      * left. now exists token.
      * intros j Hj. rewrite set_caller_other by exact Hj.
        specialize (Hw j Hj). destruct (callers sys j); simpl in *; tauto.
    + repeat split; try assumption; try lia.
      * right. now exists e.
      * intros j Hj. rewrite set_caller_other by exact Hj.
        specialize (Hw j Hj). destruct (callers sys j); simpl in *; tauto.
Qed.

Lemma step_answered (leader : nat) (sys sys' : system) (ev : event) :
  answered leader sys ->
  is_enter ev = false ->
  step sys ev = Some sys' ->
  answered leader sys'.
Proof.
  intros (Hsent & Hflag & Hclk & Hl & Hw) Hev Hstep.
  destruct ev as [i now | i now | i now o]; [discriminate | |];
    unfold Crm.step in Hstep.
  - destruct (callers sys i) as [| |k since| |] eqn:Ei; try discriminate.
    destruct ((clock sys <=? now)%Z && (since + 100 <=? now)%Z) eqn:Et; [|discriminate].
    apply andb_true_iff in Et. destruct Et as [Hnow _]. apply Z.leb_le in Hnow.
    assert (Hi : i <> leader).
    { intros ->. destruct Hl as [(tok & Hr & _) | (e & Hr & _)]; congruence. }
    injection Hstep as <-.
    unfold SingleFlight.answered; cbn [callers clock auth sent].
    rewrite set_caller_other by congruence.
    repeat split; try assumption; try lia.
    intros j Hj. destruct (Nat.eq_dec j i) as [->|Hji].
    + rewrite set_caller_same.
      pose proof (Hw i Hi) as Hk. rewrite Ei in Hk. simpl in Hk.
      destruct Hl as [(tok & Hr & Ht) | (e & Hr & Ht & Hx)].
      * unfold wake.
        destruct (truthy (_access_token (auth sys))
                  && (now <? _token_expires_at (auth sys))%Z).
        -- simpl. cbn [callers auth]. rewrite set_caller_other by congruence.
           split; [reflexivity | congruence].
        -- destruct (Nat.ltb_spec (S k) 50); simpl; [assumption | reflexivity].
      * pose proof (wake_while_invalid (auth sys) now k Ht Hx ltac:(lia) Hk) as Hq.
        destruct (wake (auth sys) now k); simpl in *; tauto.
    + rewrite set_caller_other by exact Hji.
      specialize (Hw j Hj). destruct (callers sys j); simpl in *; try tauto.
      cbn [callers auth]. rewrite set_caller_other by congruence. exact Hw.
  - destruct (callers sys i) eqn:Ei; try discriminate.
    exfalso. destruct (Nat.eq_dec i leader) as [->|n].
    + destruct Hl as [(tok & Hr & _) | (e & Hr & _)]; congruence.
    + specialize (Hw i n). rewrite Ei in Hw. exact Hw.
Qed.

Lemma run_answered (leader : nat) (evs : list event) :
  forall sys sys',
    answered leader sys ->
    forallb (fun e => negb (is_enter e)) evs = true ->
    run sys evs = Some sys' ->
    answered leader sys'.
Proof.
  induction evs as [|ev evs IH]; intros sys sys' Hinv Hevs Hrun; simpl in Hrun.
  - now injection Hrun as <-.
  - simpl in Hevs. apply andb_true_iff in Hevs. destruct Hevs as [Hev Hevs].
    destruct (step sys ev) as [sys1|] eqn:E; [|discriminate].
    apply (IH sys1 sys'); try assumption.
    apply (step_answered leader sys sys1 ev); try assumption.
    now destruct (is_enter ev).
Qed.

Lemma run_in_flight (leader : nat) (evs : list event) :
  forall sys sys',
    in_flight leader sys ->
    enters_before_reply evs = true ->
    run sys evs = Some sys' ->
    in_flight leader sys' \/ answered leader sys'.
Proof.
  induction evs as [|ev evs IH]; intros sys sys' Hinv Hevs Hrun; simpl in Hrun.
  - injection Hrun as <-. now left.
  - destruct (step sys ev) as [sys1|] eqn:E; [|discriminate].
    simpl in Hevs.
    destruct (step_in_flight leader sys sys1 ev Hinv E) as [[Hr H1] | [Hr H1]];
      rewrite Hr in Hevs.
    + now apply (IH sys1 sys').
    + right. now apply (run_answered leader evs sys1 sys').
Qed.

(** Single flight as an invariant of every state on the way. Callers of
    [_ensure_authenticated] that all enter before the answer
    to the login POST arrives, with no valid token cached and no login in
    flight at the start: whatever the order of their sleeps and wake-ups and
    whatever the answer, exactly one login request is sent. One caller - the
    leader - sent it; every other caller has not entered yet, is polling with
    fewer than 50 sleeps behind it, has raised the authentication timeout, or
    has returned the very token the leader cached and returned. *)
Theorem login_is_single_flight :
  forall evs sys,
    enters_before_reply evs = true ->
    existsb is_enter evs = true ->
    run (boot st0 t0) evs = Some sys ->
    sent sys = [the_login]
    /\ exists leader,
         leading sys (callers sys leader)
         /\ forall i, i <> leader -> waiter sys leader (callers sys i).
Proof.
  intros evs sys Horder Hsome Hrun.
  destruct evs as [|ev evs]; [discriminate|].
  simpl in Hrun. destruct (step (boot st0 t0) ev) as [sys1|] eqn:E; [|discriminate].
  destruct ev as [i now | i now | i now o]; try discriminate E.
  pose proof (first_enter_leads i now sys1 E) as H1.
  simpl in Horder.
  destruct (run_in_flight i evs sys1 sys H1 Horder Hrun)
    as [(Hl & Htok & Hexp & Hflag & Hsent & Hclk & Hw)
       | (Hsent & Hflag & Hclk & Hl & Hw)].
  - split; [exact Hsent|]. exists i. split.
    + rewrite Hl. exact Hflag.
    + intros j Hj. specialize (Hw j Hj).
      destruct (callers sys j); simpl in *; tauto.
  - split; [exact Hsent|]. exists i. split; [|exact Hw].
    destruct Hl as [(tok & Hr & Ht) | (e & Hr & _)]; rewrite Hr; simpl; auto.
Qed.

End Login.
Lemma login_is_single_flight_witness :
  let st0 := {| _access_token := PNone; _token_expires_at := 0;
                _is_authenticating := false |} in
  let answer := HttpResponse 200 ""
                  (Ok (PDict [("data", PDict [("accessToken", PStr "T")])])) in
  let evs := [Enter 0 0; Enter 1 10; Wake 1 200; Reply 0 300 answer; Wake 1 400] in
  match Crm.run "https://crm.tripandevent.com/api" "agent@example.com" "secret"
          (fun _ => "") (boot st0 0) evs with
  | Some sys =>
      sent sys = [login_request "https://crm.tripandevent.com/api" "agent@example.com" "secret"]
      /\ exists leader,
           leading sys (callers sys leader)
           /\ forall i, i <> leader -> waiter sys leader (callers sys i)
  | None => False
  end.
Proof.
  cbv zeta.
  assert (exists sys,
            Crm.run "https://crm.tripandevent.com/api" "agent@example.com" "secret"
              (fun _ => "")
              (boot {| _access_token := PNone; _token_expires_at := 0;
                       _is_authenticating := false |} 0)
              [Enter 0 0; Enter 1 10; Wake 1 200;
               Reply 0 300 (HttpResponse 200 ""
                              (Ok (PDict [("data", PDict [("accessToken", PStr "T")])])));
               Wake 1 400]
            = Some sys) as [sys E] by (eexists; reflexivity).
  rewrite E.
  refine (login_is_single_flight "https://crm.tripandevent.com/api" "agent@example.com"
            "secret" (fun _ => "")
            {| _access_token := PNone; _token_expires_at := 0;
               _is_authenticating := false |}
            0%Z eq_refl eq_refl _ sys _ _ E); reflexivity.
Defined.

End LoginFacts.

(* ================================================================= *)
(** ** Further properties: URLs and the login response *)

Module LoginMore.
Import Py Crm Shape.

Lemma rstrip_by_snoc (p : ascii -> bool) (c : ascii) (s : string) :
  p c = true ->
  PyStr.rstrip_by p (s ^ String c "") = PyStr.rstrip_by p s.
Proof.
  intros Hc. induction s as [|d s IH]; simpl.
  - now rewrite Hc.
  - now rewrite IH.
Qed.

Lemma rstrip_by_cons (p : ascii -> bool) (d : ascii) (s : string) :
  PyStr.rstrip_by p (String d s)
  = match PyStr.rstrip_by p s with
    | EmptyString => if p d then EmptyString else String d EmptyString
    | String e r => String d (String e r)
    end.
Proof. reflexivity. Qed.

Lemma rstrip_by_idempotent (p : ascii -> bool) (s : string) :
  PyStr.rstrip_by p (PyStr.rstrip_by p s) = PyStr.rstrip_by p s.
Proof.
  induction s as [|d s IH]; [reflexivity|].
  rewrite rstrip_by_cons.
  destruct (PyStr.rstrip_by p s) as [|e r] eqn:E.
  - destruct (p d) eqn:Ed; [reflexivity|].
    rewrite rstrip_by_cons. cbn [PyStr.rstrip_by]. now rewrite Ed.
  - rewrite rstrip_by_cons, IH. reflexivity.
Qed.

Lemma lstrip_by_idempotent (p : ascii -> bool) (s : string) :
  PyStr.lstrip_by p (PyStr.lstrip_by p s) = PyStr.lstrip_by p s.
Proof.
  induction s as [|d s IH]; simpl; [reflexivity|].
  destruct (p d) eqn:Ed; [exact IH | simpl; now rewrite Ed].
Qed.

Lemma append_assoc (a b c : string) : (a ^ b) ^ c = a ^ (b ^ c).
Proof. induction a; simpl; congruence. Qed.

Lemma rstrip_slashes (s : string) (n : nat) :
  PyStr.rstrip_by PyStr.is_slash (s ^ slashes n) = PyStr.rstrip_by PyStr.is_slash s.
Proof.
  revert s; induction n as [|n IH]; intros s; simpl.
  - f_equal. induction s; simpl; congruence.
  - change (String "/" (slashes n)) with (String "/" "" ^ slashes n).
    rewrite <- append_assoc, IH. now apply rstrip_by_snoc.
Qed.

Lemma lstrip_slashes (s : string) (n : nat) :
  PyStr.lstrip_by PyStr.is_slash (slashes n ^ s) = PyStr.lstrip_by PyStr.is_slash s.
Proof. induction n; simpl; auto. Qed.

(** X1. [_url] joins base and path with exactly one slash whatever slashes
    the base ends with and the path starts with: extra ones on either side
    change nothing, and a base and a path already stripped are just
    concatenated around ["/"]. *)
Theorem url_ignores_extra_slashes :
  forall base path n m,
    _url (base ^ slashes n) (slashes m ^ path) = _url base path
    /\ _url (PyStr.rstrip_by PyStr.is_slash base) (PyStr.lstrip_by PyStr.is_slash path)
       = _url base path
    /\ _url base path
       = PyStr.rstrip_by PyStr.is_slash base ^ "/" ^ PyStr.lstrip_by PyStr.is_slash path.
Proof.
  intros base path n m. unfold _url.
  rewrite rstrip_slashes, lstrip_slashes, rstrip_by_idempotent, lstrip_by_idempotent.
  repeat split.
Qed.

Section Login.

Variable py_repr : value -> string.

Lemma login_token_is_truthy (o : http_outcome) (token : value) :
  login_token py_repr o = Ok token -> truthy token = true.
Proof.
  unfold login_token. destruct o as [e | status text json]; [discriminate|].
  destruct (status >=? 400)%Z; [discriminate|].
  destruct json as [body|]; [|discriminate]. cbn [bind].
  destruct body as [| | | | | |b]; try discriminate.
  destruct (get (dict_get b "data" (PDict [])) "accessToken" PNone) as [t1|]; [|discriminate].
  destruct (get (dict_get b "data" (PDict [])) "access_token" PNone) as [t2|]; [|discriminate].
  cbn [bind].
  match goal with
  | |- (if negb (truthy ?t) then _ else _) = _ -> _ =>
      destruct (truthy t) eqn:E; cbn [negb]; [|discriminate]
  end.
  intros H. injection H as <-. exact E.
Qed.

(** X2. When the answer to the login POST arrives, [_login] clears the
    in-flight flag on every path. On success it caches the token it returns,
    which is truthy, with an expiry 50 minutes (3,000,000 ms) later, so that
    [_has_valid_token] holds exactly until then; on failure it raises and the
    cached token and its expiry stay as they were. *)
Theorem reply_caches_on_success_only :
  forall st now o,
    let st' := fst (reply py_repr st now o) in
    let c := snd (reply py_repr st now o) in
    _is_authenticating st' = false
    /\ match login_token py_repr o with
       | Ok token =>
           c = Returned token
           /\ truthy token = true
           /\ _access_token st' = token
           /\ _token_expires_at st' = (now + 3000000)%Z
           /\ forall t, _has_valid_token st' t = (t <? now + 3000000)%Z
       | Raise e =>
           c = Raised e
           /\ _access_token st' = _access_token st
           /\ _token_expires_at st' = _token_expires_at st
       end.
Proof.
  intros st now o. unfold reply.
  destruct (login_token py_repr o) as [token | e] eqn:E; cbn [fst snd].
  - split; [reflexivity|].
    pose proof (login_token_is_truthy o token E) as Ht.
    repeat split; try assumption.
    intros t. unfold _has_valid_token; cbn.
    destruct token; try discriminate; reflexivity.
  - repeat split.
Qed.

(** X3. On a response below status 400 whose body is a JSON object with an
    object (or nothing) under [data], the token is the first truthy value
    among [data.accessToken], [data.access_token], [accessToken],
    [access_token], [token], in that order; when there is none, the login
    raises the no-token error. *)
Theorem login_token_takes_first_candidate :
  forall status text body inner,
    (status < 400)%Z ->
    dict_get body "data" (PDict []) = PDict inner ->
    login_token py_repr (HttpResponse status text (Ok (PDict body)))
    = match find truthy (token_candidates body inner) with
      | Some token => Ok token
      | None =>
          Raise (PyException ("No token in login response: " ^ str py_repr (PDict body)))
      end.
Proof.
  intros status text body inner Hs Hinner. unfold login_token.
  destruct (Z.geb_spec status 400); [lia|].
  cbn [bind]. rewrite Hinner. cbn [get bind].
  unfold token_candidates, or_. cbn [find].
  repeat match goal with
         | |- context [if truthy ?v then _ else _] =>
             destruct (truthy v) eqn:?; cbn [negb]
         end;
    repeat match goal with
           | H : truthy ?v = _ |- context [truthy ?v] => rewrite H
           end;
    reflexivity.
Qed.

(** X4. A login response whose [data] is there but is not an object - null,
    a string, a list - makes the login fail with an [AttributeError], even
    when a token sits at the top level. *)
Theorem login_token_needs_object_data :
  forall status text body data,
    (status < 400)%Z ->
    lookup body "data" = Some data ->
    Shape.is_dict data = false ->
    login_token py_repr (HttpResponse status text (Ok (PDict body)))
    = Raise (no_attribute data "get").
Proof.
  intros status text body data Hs Hdata Hd. unfold login_token.
  destruct (Z.geb_spec status 400); [lia|].
  cbn [bind]. unfold dict_get. rewrite Hdata.
  destruct data; try discriminate; reflexivity.
Qed.

End Login.

Lemma login_token_takes_first_candidate_witness :
  login_token (fun _ => "")
    (HttpResponse 200 ""
       (Ok (PDict [("token", PStr "outer");
                   ("data", PDict [("access_token", PStr "inner")])])))
  = Ok (PStr "inner").
Proof.
  rewrite (login_token_takes_first_candidate (fun _ => "") 200 ""
             [("token", PStr "outer"); ("data", PDict [("access_token", PStr "inner")])]
             [("access_token", PStr "inner")] ltac:(lia) eq_refl).
  reflexivity.
Defined.

Lemma login_token_needs_object_data_witness :
  login_token (fun _ => "")
    (HttpResponse 200 "" (Ok (PDict [("data", PNone); ("token", PStr "T")])))
  = Raise (AttributeError "'NoneType' object has no attribute 'get'").
Proof.
  rewrite (login_token_needs_object_data (fun _ => "") 200 ""
             [("data", PNone); ("token", PStr "T")] PNone ltac:(lia) eq_refl eq_refl).
  reflexivity.
Defined.

End LoginMore.

(* ================================================================= *)
(** ** Further properties: the token cache under any schedule *)

Module TokenCache.
Import Py Crm Shape LoginFacts.

Section Cache.

Variables CRM_BASE_URL CRM_EMAIL CRM_PASSWORD : string.
Variable py_repr : value -> string.

Local Abbreviation step := (Crm.step CRM_BASE_URL CRM_EMAIL CRM_PASSWORD py_repr).
Local Abbreviation run := (Crm.run CRM_BASE_URL CRM_EMAIL CRM_PASSWORD py_repr).
Local Abbreviation the_login := (login_request CRM_BASE_URL CRM_EMAIL CRM_PASSWORD).

(* ----------------------------------------------------------------- *)
(** *** A valid token is served from the cache *)

Lemma step_served (st : auth_state) (sys sys' : system) (ev : event) :
  is_not_None (_access_token st) = true ->
  (event_time ev < _token_expires_at st)%Z ->
  served st sys ->
  step sys ev = Some sys' ->
  served st sys'.
Proof.
  intros Htok Htime (Hauth & Hsent & Hcs) Hstep.
  destruct ev as [i now | i now | i now o]; unfold Crm.step in Hstep; simpl in Htime.
  - destruct (callers sys i) eqn:Ei; try discriminate.
    destruct (clock sys <=? now)%Z; [|discriminate].
    unfold enter, _has_valid_token in Hstep. rewrite Hauth, Htok in Hstep.
    replace (now <? _token_expires_at st)%Z with true in Hstep
      by (symmetry; now apply Z.ltb_lt).
    cbn [andb] in Hstep. injection Hstep as <-.
    unfold served; cbn [auth sent callers]. rewrite Hsent.
    repeat split; try assumption.
    intros j. destruct (Nat.eq_dec j i) as [->|Hji].
    + right. apply set_caller_same.
    + rewrite set_caller_other by exact Hji. apply Hcs.
  - destruct (Hcs i) as [H | H]; rewrite H in Hstep; discriminate.
  - destruct (Hcs i) as [H | H]; rewrite H in Hstep; discriminate.
Qed.

(** X5. While the cached token is valid, any number of callers of
    [_ensure_authenticated], at any times before the expiry, each get the
    cached token at once: no login request is sent, and the token state is
    not touched. *)
Theorem valid_token_is_served_from_cache :
  forall st t0 evs sys,
    is_not_None (_access_token st) = true ->
    forallb (fun ev => (event_time ev <? _token_expires_at st)%Z) evs = true ->
    run (boot st t0) evs = Some sys ->
    sent sys = []
    /\ auth sys = st
    /\ forall i, callers sys i = NotStarted \/ callers sys i = Returned (_access_token st).
Proof.
  intros st t0 evs sys Htok Hevs Hrun.
  assert (H : served st sys).
  { assert (H0 : served st (boot st t0)) by (repeat split; now left).
    revert Hevs Hrun H0. generalize (boot st t0) as s0.
    induction evs as [|ev evs IH]; intros s0 Hevs Hrun H0; simpl in Hrun.
    - now injection Hrun as <-.
    - simpl in Hevs. apply andb_true_iff in Hevs. destruct Hevs as [Hev Hevs].
      destruct (step s0 ev) as [s1|] eqn:E; [|discriminate].
      apply (IH s1 Hevs Hrun).
      apply (step_served st s0 s1 ev Htok); try assumption.
      now apply Z.ltb_lt. }
  destruct H as (Hauth & Hsent & Hcs). auto.
Qed.

(* ----------------------------------------------------------------- *)
(** *** At most one login in flight *)

Lemma wake_is_not_a_post (st : auth_state) (now : Z) (k : nat) :
  wake st now k <> AwaitPost.
Proof.
  unfold wake.
  destruct (truthy (_access_token st) && (now <? _token_expires_at st)%Z);
    [discriminate|].
  destruct (S k <? 50)%nat; discriminate.
Qed.

(** Moving a caller that is not in the POST to a state that is not the
    POST changes neither who is in flight nor whether someone is. *)
Lemma flight_kept (cs : nat -> caller) (i : nat) (c : caller) (flag : bool) :
  cs i <> AwaitPost -> c <> AwaitPost ->
  (forall a b, cs a = AwaitPost -> cs b = AwaitPost -> a = b) ->
  (flag = true <-> exists a, cs a = AwaitPost) ->
  (forall a b, set_caller cs i c a = AwaitPost -> set_caller cs i c b = AwaitPost -> a = b)
  /\ (flag = true <-> exists a, set_caller cs i c a = AwaitPost).
Proof.
  intros Hold Hnew Huniq Hflag.
  assert (Hsame : forall a, set_caller cs i c a = AwaitPost <-> cs a = AwaitPost).
  { intros a. destruct (Nat.eq_dec a i) as [->|Na].
    - rewrite set_caller_same. split; intros H; contradiction.
    - now rewrite set_caller_other. }
  split.
  - intros a b Ha Hb. apply Huniq; now apply Hsame.
  - rewrite Hflag. split; intros [a Ha]; exists a; now apply Hsame.
Qed.

Lemma step_single_flight (sys sys' : system) (ev : event) :
  single_flight sys -> step sys ev = Some sys' -> single_flight sys'.
Proof.
  intros [Huniq Hflag] Hstep.
  destruct ev as [i now | i now | i now o]; unfold Crm.step in Hstep.
  - destruct (callers sys i) eqn:Ei; try discriminate.
    destruct (clock sys <=? now)%Z; [|discriminate].
    assert (Hi : callers sys i <> AwaitPost) by congruence.
    unfold enter in Hstep.
    destruct (_has_valid_token (auth sys) now).
    + injection Hstep as <-. unfold single_flight; cbn [callers auth].
      apply flight_kept; try assumption. discriminate.
    + destruct (_is_authenticating (auth sys)) eqn:Ef.
      * injection Hstep as <-. unfold single_flight; cbn [callers auth].
        rewrite Ef. apply flight_kept; try assumption. discriminate.
      * assert (Hnone : forall a, callers sys a <> AwaitPost).
        { intros a Ha. assert (Ht : false = true) by (apply Hflag; now exists a).
          discriminate. }
        injection Hstep as <-.
        unfold single_flight; cbn [callers auth _is_authenticating]. split.
        -- intros a b Ha Hb.
           destruct (Nat.eq_dec a i) as [->|Na], (Nat.eq_dec b i) as [->|Nb];
             try reflexivity.
           ++ rewrite set_caller_other in Hb by assumption. now destruct (Hnone b).
           ++ rewrite set_caller_other in Ha by assumption. now destruct (Hnone a).
           ++ rewrite set_caller_other in Ha by assumption. now destruct (Hnone a).
        -- split; [intros _; exists i; apply set_caller_same | reflexivity].
  - destruct (callers sys i) as [| |k since| |] eqn:Ei; try discriminate.
    destruct ((clock sys <=? now)%Z && (since + 100 <=? now)%Z); [|discriminate].
    injection Hstep as <-. unfold single_flight; cbn [callers auth].
    apply flight_kept; try assumption; [congruence | apply wake_is_not_a_post].
  - destruct (callers sys i) eqn:Ei; try discriminate.
    destruct (clock sys <=? now)%Z; [|discriminate].
    assert (Hnone : forall a c, c <> AwaitPost ->
                                set_caller (callers sys) i c a <> AwaitPost).
    { intros a c Hc Ha. destruct (Nat.eq_dec a i) as [->|Na].
      - rewrite set_caller_same in Ha. contradiction.
      - rewrite set_caller_other in Ha by assumption. apply Na. now apply Huniq. }
    unfold reply in Hstep.
    destruct (login_token py_repr o) as [token|e]; injection Hstep as <-;
      unfold single_flight; cbn [callers auth _is_authenticating].
    + split.
      * intros a b Ha. exfalso. apply (Hnone a (Returned token)); [discriminate | exact Ha].
      * split; [discriminate|]. intros [a Ha]. exfalso.
        apply (Hnone a (Returned token)); [discriminate | exact Ha].
    + split.
      * intros a b Ha. exfalso. apply (Hnone a (Raised e)); [discriminate | exact Ha].
      * split; [discriminate|]. intros [a Ha]. exfalso.
        apply (Hnone a (Raised e)); [discriminate | exact Ha].
Qed.

(** X6. From process start (no login in flight), under every schedule of
    callers, wake-ups and answers, with or without a cached token: at most
    one caller is ever waiting for the answer to a login POST, and
    [_is_authenticating] is set exactly while one is. *)
Theorem at_most_one_login_in_flight :
  forall st0 t0 evs sys,
    _is_authenticating st0 = false ->
    run (boot st0 t0) evs = Some sys ->
    (forall i j, callers sys i = AwaitPost -> callers sys j = AwaitPost -> i = j)
    /\ (_is_authenticating (auth sys) = true <-> exists i, callers sys i = AwaitPost).
Proof.
  intros st0 t0 evs sys Hidle Hrun.
  assert (H0 : single_flight (boot st0 t0)).
  { split; [discriminate|]. simpl. rewrite Hidle.
    split; [discriminate | intros [i Hi]; discriminate]. }
  revert Hrun H0. generalize (boot st0 t0) as s0.
  induction evs as [|ev evs IH]; intros s0 Hrun H0; simpl in Hrun.
  - now injection Hrun as <-.
  - destruct (step s0 ev) as [s1|] eqn:E; [|discriminate].
    apply (IH s1 Hrun). now apply (step_single_flight s0 s1 ev).
Qed.

End Cache.

Lemma valid_token_is_served_from_cache_witness :
  let st := {| _access_token := PStr "T"; _token_expires_at := 3000000;
               _is_authenticating := false |} in
  match Crm.run "https://crm.tripandevent.com/api" "agent@example.com" "secret"
          (fun _ => "") (boot st 0) [Enter 0 5; Enter 1 5; Enter 7 2999999] with
  | Some sys => sent sys = [] /\ callers sys 7 = Returned (PStr "T")
  | None => False
  end.
Proof.
  cbv zeta.
  destruct (Crm.run "https://crm.tripandevent.com/api" "agent@example.com" "secret"
              (fun _ => "")
              (boot {| _access_token := PStr "T"; _token_expires_at := 3000000;
                       _is_authenticating := false |} 0)
              [Enter 0 5; Enter 1 5; Enter 7 2999999]) as [sys|] eqn:E;
    [|discriminate E].
  destruct (valid_token_is_served_from_cache "https://crm.tripandevent.com/api"
              "agent@example.com" "secret" (fun _ => "")
              {| _access_token := PStr "T"; _token_expires_at := 3000000;
                 _is_authenticating := false |} 0%Z
              [Enter 0 5; Enter 1 5; Enter 7 2999999] sys eq_refl eq_refl E)
    as (Hsent & _ & _).
  split; [exact Hsent|].
  injection E as <-. reflexivity.
Defined.

Lemma at_most_one_login_in_flight_witness :
  let st0 := {| _access_token := PNone; _token_expires_at := 0;
                _is_authenticating := false |} in
  match Crm.run "https://crm.tripandevent.com/api" "agent@example.com" "secret"
          (fun _ => "") (boot st0 0)
          [Enter 0 0; Enter 1 10; Reply 0 300 (HttpResponse 500 "" (Ok PNone));
           Enter 2 310] with
  | Some sys => forall i j, callers sys i = AwaitPost -> callers sys j = AwaitPost -> i = j
  | None => False
  end.
Proof.
  cbv zeta.
  destruct (Crm.run "https://crm.tripandevent.com/api" "agent@example.com" "secret"
              (fun _ => "")
              (boot {| _access_token := PNone; _token_expires_at := 0;
                       _is_authenticating := false |} 0)
              [Enter 0 0; Enter 1 10; Reply 0 300 (HttpResponse 500 "" (Ok PNone));
               Enter 2 310]) as [sys|] eqn:E;
    [|discriminate E].
  exact (proj1 (at_most_one_login_in_flight "https://crm.tripandevent.com/api"
                  "agent@example.com" "secret" (fun _ => "")
                  {| _access_token := PNone; _token_expires_at := 0;
                     _is_authenticating := false |} 0%Z
                  [Enter 0 0; Enter 1 10; Reply 0 300 (HttpResponse 500 "" (Ok PNone));
                   Enter 2 310] sys eq_refl E)).
Defined.

End TokenCache.

(* ================================================================= *)
(** ** Further properties: the CRM operations *)

Module GatewayMore.
Import Py Crm Shape CrmFacts.

Lemma truthy_not_None (v : value) : truthy v = true -> is_not_None v = true.
Proof. now destruct v. Qed.

Lemma if_same {A} (b : bool) (x : A) : (if b then x else x) = x.
Proof. now destruct b. Qed.

Lemma lookup_drop_none_cons (k' : string) (v : value) (d : list (string * value))
    (k : string) :
  lookup (drop_none ((k', v) :: d)) k
  = if is_not_None v
    then (if k' =? k then Some v else lookup (drop_none d) k)
    else lookup (drop_none d) k.
Proof. unfold drop_none; simpl. now destruct (is_not_None v). Qed.

(** Looks a key up in a payload built from a literal list of fields. *)
Ltac payload_lookup :=
  repeat (rewrite lookup_drop_none_cons;
          cbn [String.eqb Ascii.eqb Bool.eqb is_not_None];
          rewrite ?if_same);
  cbn [drop_none filter lookup].

Section Operations.

Variables CRM_BASE_URL : string.
Variable urlencode : list (string * value) -> string.
Variable py_repr : value -> string.

(* ----------------------------------------------------------------- *)
(** *** Failing requests *)

Lemma failing_response (o : http_outcome) :
  failing o = true -> exists msg, crm_response o = failure msg.
Proof.
  intros H. apply crm_response_failure.
  destruct o as [e | status text json]; [exact I|].
  simpl in H. apply orb_true_iff in H. destruct H as [H | H].
  - left. now apply Z.leb_le.
  - now right.
Qed.

(** X7. With a token cached, when the request fails - an exception of the
    transport, a status from 400 on, a body that is not JSON - each of the
    three operations returns a result with [success: false] and a message,
    provided it got as far as sending the request. *)
Theorem failing_requests_give_tagged_failures :
  forall st net,
    truthy (_access_token st) = true ->
    (forall req, failing (net req) = true) ->
    (forall params p,
        lead_payload params = Ok p ->
        Outcome.tagged_failure (fst (save_lead CRM_BASE_URL py_repr st net params)) = true)
    /\ (forall params q,
        find_packages_query py_repr params = Ok q ->
        Outcome.tagged_failure
          (fst (find_packages CRM_BASE_URL urlencode py_repr st net params)) = true)
    /\ (forall package_id,
        Outcome.tagged_failure
          (fst (get_package_details CRM_BASE_URL py_repr st net package_id)) = true).
Proof.
  intros st net Htok Hnet. repeat split.
  - intros params p Hp. unfold save_lead. rewrite Hp.
    rewrite crm_request_with_token by exact Htok.
    destruct (failing_response _ (Hnet (crm_call CRM_BASE_URL py_repr st "leads" "POST" (PDict p))))
      as [msg ->].
    apply (failures_stay_tagged py_repr msg params "").
  - intros params q Hq. unfold find_packages. rewrite Hq.
    rewrite crm_request_with_token by exact Htok.
    destruct (failing_response _
                (Hnet (crm_call CRM_BASE_URL py_repr st
                         (find_packages_endpoint urlencode q) "GET" PNone)))
      as [msg ->].
    apply (failures_stay_tagged py_repr msg [] "").
  - intros package_id. unfold get_package_details.
    rewrite crm_request_with_token by exact Htok.
    destruct (failing_response _
                (Hnet (crm_call CRM_BASE_URL py_repr st ("packages/" ^ package_id)
                         "GET" PNone)))
      as [msg ->].
    apply (failures_stay_tagged py_repr msg [] package_id).
Qed.

(* ----------------------------------------------------------------- *)
(** *** find_packages: which bodies it can take *)

Lemma package_line_raises (i : nat) (pkg : value) :
  raises (package_line py_repr i pkg) = negb (is_dict pkg).
Proof. destruct pkg; reflexivity. Qed.

Lemma package_lines_raises (pkgs : list value) :
  forall i, raises (package_lines py_repr i pkgs) = negb (forallb is_dict pkgs).
Proof.
  induction pkgs as [|pkg pkgs IH]; intros i; [reflexivity|].
  cbn [package_lines forallb].
  pose proof (package_line_raises i pkg) as Hl.
  destruct (package_line py_repr i pkg) as [line|e]; simpl in Hl.
  - cbn [bind]. specialize (IH (S i)).
    destruct (package_lines py_repr (S i) pkgs); simpl in IH |- *;
      destruct (is_dict pkg); simpl in *; congruence.
  - cbn [bind raises]. destruct (is_dict pkg); simpl in *; congruence.
Qed.

Lemma voice_summary_raises (l : list value) :
  raises (voice_summary py_repr l) = negb (forallb is_dict (firstn 3 l)).
Proof.
  unfold voice_summary. destruct l as [|p l]; [reflexivity|].
  cbn [List.length Nat.eqb].
  pose proof (package_lines_raises (firstn 3 (p :: l)) 0) as H.
  destruct (package_lines py_repr 0 (firstn 3 (p :: l))); exact H.
Qed.

(** X8. [find_packages] raises on the result of its request exactly when the
    result is not a JSON object, or is one that is not a tagged failure and
    has, among the first three entries of its package list, one that is not
    an object. Entries after the third are never looked into. *)
Theorem find_packages_raises_exactly :
  forall result,
    raises (find_packages_result py_repr result)
    = match result with
      | PDict d =>
          negb (is_False (dict_get d "success" PNone))
          && negb (forallb is_dict (firstn 3 (package_list d)))
      | _ => true
      end.
Proof.
  intros result. destruct result as [| | | | | |d]; try reflexivity.
  unfold find_packages_result. cbn [get bind].
  destruct (is_False (dict_get d "success" PNone)); [reflexivity|].
  cbn [negb andb]. unfold package_list.
  pose proof (voice_summary_raises
                (match or_ (dict_get d "packages" PNone)
                         (or_ (dict_get d "data" PNone) (PDict d)) with
                 | PList l => l
                 | _ => []
                 end)) as H.
  destruct (voice_summary py_repr _); exact H.
Qed.

(** X9. The voice summary names the first three packages and only counts
    the rest: with the same first three and as many others, whatever they
    are, the summary - or the exception - is the same. *)
Theorem voice_summary_reads_three :
  forall a b b' : list value,
    List.length a = 3%nat ->
    List.length b = List.length b' ->
    voice_summary py_repr (a ++ b) = voice_summary py_repr (a ++ b').
Proof.
  intros a b b' Ha Hb. unfold voice_summary.
  rewrite !length_app, Hb.
  rewrite !firstn_app, Ha. cbn [Nat.sub firstn]. reflexivity.
Qed.

(* ----------------------------------------------------------------- *)
(** *** get_package_details: the shape of the result *)

Lemma all_str_strings (l : list string) : forall i, all_str i (map PStr l) = Ok l.
Proof. induction l as [|x l IH]; intros i; simpl; [reflexivity | now rewrite IH]. Qed.

Lemma all_str_raises (l : list value) :
  forall i, raises (all_str i l) = negb (forallb is_str l).
Proof.
  induction l as [|v l IH]; intros i; [reflexivity|].
  destruct v; try reflexivity. cbn [all_str forallb is_str andb].
  specialize (IH (S i)). destruct (all_str (S i) l); exact IH.
Qed.

(** X10. The spoken list of inclusions holds at most four: for a list of
    strings it is the first four joined by [", "], with [" and more"] when
    there are others; and for any list it raises exactly when one of the
    first four entries is not a string. *)
Theorem inclusions_are_capped_at_four :
  (forall l : list string,
      inclusions_text (PList (map PStr l))
      = Ok (PyStr.join ", " (firstn 4 l)
            ^ (if (4 <? List.length l)%nat then " and more" else "")))
  /\ (forall l : list value,
      raises (inclusions_text (PList l)) = negb (forallb is_str (firstn 4 l))).
Proof.
  split.
  - intros l. unfold inclusions_text.
    rewrite firstn_map, all_str_strings, length_map. reflexivity.
  - intros l. unfold inclusions_text.
    pose proof (all_str_raises (firstn 4 l) 0) as H.
    destruct (all_str 0 (firstn 4 l)); exact H.
Qed.

(** X11. Whenever [get_package_details] returns, what it returns has one of
    two fixed shapes: the failure with [success: false] and a [message], or
    the twelve fields from [success: true] to [voice_description], in that
    order, whatever the body held. *)
Theorem package_details_have_fixed_shape :
  forall package_id result v,
    get_package_details_result py_repr package_id result = Ok v ->
    exists d,
      v = PDict d
      /\ ((lookup d "success" = Some (PBool false) /\ map fst d = ["success"; "message"])
          \/ (lookup d "success" = Some (PBool true) /\ map fst d = detail_keys)).
Proof.
  intros package_id result v. unfold get_package_details_result.
  destruct result as [| | | | | |r]; try discriminate. cbn [get bind].
  destruct (is_False (dict_get r "success" PNone)).
  { intros H. injection H as <-. eexists. split; [reflexivity|]. left. split; reflexivity. }
  destruct (or_ (dict_get r "data" PNone) (PDict r)) as [| | | | | |pkg]; try discriminate.
  cbn [get bind].
  destruct (if truthy (dict_get pkg "totalDays" PNone) then Ok (dict_get pkg "totalDays" PNone)
            else if truthy (dict_get pkg "total_days" PNone)
                 then Ok (dict_get pkg "total_days" PNone)
                 else if truthy (or_ (dict_get pkg "totalNights" PNone)
                                   (or_ (dict_get pkg "total_nights" PNone)
                                      (dict_get pkg "nights" (PInt 0))))
                      then plus_one (or_ (dict_get pkg "totalNights" PNone)
                                       (or_ (dict_get pkg "total_nights" PNone)
                                          (dict_get pkg "nights" (PInt 0))))
                      else Ok (PInt 0)) as [days|]; [|discriminate].
  cbn [bind].
  destruct (truthy (dict_get pkg "inclusions" (PList []))).
  - destruct (inclusions_text (dict_get pkg "inclusions" (PList []))); [|discriminate].
    cbn [bind]. intros H. injection H as <-.
    eexists. split; [reflexivity|]. right. split; reflexivity.
  - cbn [bind]. intros H. injection H as <-.
    eexists. split; [reflexivity|]. right. split; reflexivity.
Qed.

(* ----------------------------------------------------------------- *)
(** *** save_lead: what is in the payload *)

Lemma lead_payload_fields (params p : list (string * value)) :
  lead_payload params = Ok p ->
  exists durationDays hotelType mealPlan,
    (if truthy (dict_get params "nights" PNone)
     then plus_one (or_ (dict_get params "nights" PNone) (PInt 0))
     else Ok PNone) = Ok durationDays
    /\ on_str _normalize_hotel_type (dict_get params "hotel_type" (PStr "")) = Ok hotelType
    /\ on_str _normalize_meal_plan (dict_get params "meal_plan" (PStr "")) = Ok mealPlan
    /\ p = drop_none
         [ ("name", dict_get params "name" (PStr ""));
           ("email", get_or_none params "email");
           ("mobile", get_or_none params "phone");
           ("destination", get_or_none params "destination");
           ("journeyStartDate", get_or_none params "travel_date");
           ("durationNights", get_or_none params "nights");
           ("durationDays", durationDays);
           ("adults", dict_get params "adults" (PInt 2));
           ("children", dict_get params "children" (PInt 0));
           ("infants", PInt 0);
           ("hotelType", hotelType);
           ("mealPlan", mealPlan);
           ("specialRequirement", get_or_none params "special_requirements");
           ("aiSummary", get_or_none params "conversation_summary");
           ("source", PStr "Voice Agent");
           ("sourceType", PStr "voice_agent");
           ("utmSource", PStr "sanbot");
           ("utmMedium", PStr "voice");
           ("utmCampaign", PStr "orchestrated-livekit");
           ("notes", PStr "Lead captured via SanBot Voice Agent (Orchestrated Mode).") ].
Proof.
  unfold lead_payload, lead_fields. cbv zeta.
  destruct (if truthy (dict_get params "nights" PNone)
            then plus_one (or_ (dict_get params "nights" PNone) (PInt 0))
            else Ok PNone) as [dd|]; [|discriminate].
  cbn [bind].
  destruct (on_str _normalize_hotel_type (dict_get params "hotel_type" (PStr "")))
    as [ht|]; [|discriminate].
  cbn [bind].
  destruct (on_str _normalize_meal_plan (dict_get params "meal_plan" (PStr "")))
    as [mp|]; [|discriminate].
  cbn [bind]. intros H. injection H as <-.
  exists dd, ht, mp. repeat split.
Qed.

Lemma get_or_none_kept (params : list (string * value)) (k : string) :
  (if is_not_None (get_or_none params k) then Some (get_or_none params k) else None)
  = (if truthy (dict_get params k PNone) then Some (dict_get params k PNone) else None).
Proof.
  unfold get_or_none, or_.
  destruct (truthy (dict_get params k PNone)) eqn:E; [|reflexivity].
  now rewrite (truthy_not_None _ E).
Qed.

(** X12. In every payload [save_lead] sends, the six attribution tags and
    [infants: 0] are there with their fixed values, and each optional field
    is there, with the caller's value unchanged, exactly when that value is
    truthy - an absent, empty, zero or null value leaves the key out. *)
Theorem lead_payload_contents :
  forall params p,
    lead_payload params = Ok p ->
    (forall k v, In (k, v) attribution -> lookup p k = Some v)
    /\ lookup p "infants" = Some (PInt 0)
    /\ (forall pk fk,
          In (pk, fk) optional_fields ->
          lookup p fk
          = if truthy (dict_get params pk PNone)
            then Some (dict_get params pk PNone) else None).
Proof.
  intros params p Hp.
  destruct (lead_payload_fields params p Hp) as (dd & ht & mp & _ & _ & _ & ->).
  split; [|split].
  - intros k v Hin. unfold attribution in Hin. simpl in Hin.
    repeat (destruct Hin as [Hin | Hin];
            [injection Hin as <- <-; payload_lookup; reflexivity|]).
    contradiction.
  - payload_lookup. reflexivity.
  - intros pk fk Hin. unfold optional_fields in Hin. simpl in Hin.
    repeat (destruct Hin as [Hin | Hin];
            [injection Hin as <- <-; payload_lookup; apply get_or_none_kept|]).
    contradiction.
Qed.

(** X13. For a whole number of nights other than zero the payload carries
    [durationNights] as given and [durationDays] one more; with no nights
    given (or zero) both keys are left out. *)
Theorem lead_days_are_nights_plus_one :
  forall params p,
    lead_payload params = Ok p ->
    (forall n, dict_get params "nights" PNone = PInt n -> n <> 0%Z ->
       lookup p "durationNights" = Some (PInt n)
       /\ lookup p "durationDays" = Some (PInt (n + 1)))
    /\ (truthy (dict_get params "nights" PNone) = false ->
        lookup p "durationNights" = None /\ lookup p "durationDays" = None).
Proof.
  intros params p Hp.
  destruct (lead_payload_fields params p Hp) as (dd & ht & mp & Hdd & _ & _ & ->).
  split.
  - intros n Hn Hnz. unfold get_or_none. rewrite Hn in *.
    assert (Ht : truthy (PInt n) = true).
    { simpl. destruct (Z.eqb_spec n 0); [contradiction | reflexivity]. }
    rewrite Ht in Hdd. unfold or_ in *. rewrite Ht in *. simpl in Hdd.
    injection Hdd as <-. split; payload_lookup; reflexivity.
  - intros Hf. unfold get_or_none, or_. rewrite Hf in *. injection Hdd as <-.
    split; payload_lookup; reflexivity.
Qed.

(** X14. A hotel type or meal plan given as a string reaches the payload
    normalized - [hotelType] is what [_normalize_hotel_type] gives,
    [mealPlan] what [_normalize_meal_plan] gives - and the key is left out
    when the string is empty. *)
Theorem lead_preferences_are_normalized :
  forall params p,
    lead_payload params = Ok p ->
    (forall s, dict_get params "hotel_type" (PStr "") = PStr s ->
       lookup p "hotelType" = option_map PStr (_normalize_hotel_type s))
    /\ (forall s, dict_get params "meal_plan" (PStr "") = PStr s ->
       lookup p "mealPlan" = option_map PStr (_normalize_meal_plan s)).
Proof.
  intros params p Hp.
  destruct (lead_payload_fields params p Hp) as (dd & ht & mp & _ & Hht & Hmp & ->).
  split; intros s Hs.
  - rewrite Hs in Hht. simpl in Hht. injection Hht as <-.
    payload_lookup. now destruct (_normalize_hotel_type s).
  - rewrite Hs in Hmp. simpl in Hmp. injection Hmp as <-.
    payload_lookup. now destruct (_normalize_meal_plan s).
Qed.

End Operations.
Lemma failing_requests_give_tagged_failures_witness :
  let st := {| _access_token := PStr "tok"; _token_expires_at := 3000000;
               _is_authenticating := false |} in
  let net := fun _ : http_request => HttpFail (ConnectError "connection refused") in
  fst (save_lead "https://crm.tripandevent.com/api" (fun _ => "") st net
         [("name", PStr "Asha")])
  = Ok (PDict [("success", PBool false);
               ("message", PStr "Failed to save lead: connection refused")])
  /\ Outcome.tagged_failure
       (fst (get_package_details "https://crm.tripandevent.com/api" (fun _ => "") st net "42"))
     = true.
Proof.
  cbv zeta.
  destruct (failing_requests_give_tagged_failures "https://crm.tripandevent.com/api"
              (fun _ => "") (fun _ => "")
              {| _access_token := PStr "tok"; _token_expires_at := 3000000;
                 _is_authenticating := false |}
              (fun _ => HttpFail (ConnectError "connection refused"))
              eq_refl (fun _ => eq_refl)) as (_ & _ & Hdetails).
  split; [reflexivity | apply Hdetails].
Defined.

Lemma voice_summary_reads_three_witness :
  let three := [PDict [("name", PStr "Goa")]; PDict [("name", PStr "Bali")];
                PDict [("name", PStr "Dubai")]] in
  voice_summary (fun _ => "") (three ++ [PInt 1; PNone])
  = voice_summary (fun _ => "") (three ++ [PDict []; PDict []]).
Proof.
  cbv zeta. apply voice_summary_reads_three; reflexivity.
Defined.

Lemma package_details_have_fixed_shape_witness :
  exists d,
    get_package_details_result (fun _ => "") "42" (PDict [("name", PStr "Goa")]) = Ok (PDict d)
    /\ map fst d = detail_keys.
Proof.
  destruct (package_details_have_fixed_shape (fun _ => "") "42"
              (PDict [("name", PStr "Goa")]) _ eq_refl) as (d & Hv & Hshape).
  exists d. split; [now rewrite <- Hv|].
  destruct Hshape as [[Hs _] | [_ Hk]]; [|exact Hk].
  injection Hv as <-. discriminate Hs.
Defined.

Lemma lead_payload_contents_witness :
  exists p,
    lead_payload [("name", PStr "Asha"); ("phone", PStr "98765"); ("email", PStr "")] = Ok p
    /\ lookup p "mobile" = Some (PStr "98765")
    /\ lookup p "email" = None
    /\ lookup p "utmSource" = Some (PStr "sanbot").
Proof.
  eexists. split; [reflexivity|].
  destruct (lead_payload_contents
              [("name", PStr "Asha"); ("phone", PStr "98765"); ("email", PStr "")]
              _ eq_refl) as (Hattr & _ & Hopt).
  split; [|split].
  - apply (Hopt "phone" "mobile"). simpl. tauto.
  - apply (Hopt "email" "email"). simpl. tauto.
  - apply Hattr. simpl. tauto.
Defined.

Lemma lead_days_are_nights_plus_one_witness :
  exists p,
    lead_payload [("name", PStr "Asha"); ("nights", PInt 3)] = Ok p
    /\ lookup p "durationNights" = Some (PInt 3)
    /\ lookup p "durationDays" = Some (PInt 4).
Proof.
  eexists. split; [reflexivity|].
  destruct (lead_days_are_nights_plus_one [("name", PStr "Asha"); ("nights", PInt 3)]
              _ eq_refl) as (Hn & _).
  apply (Hn 3%Z eq_refl). discriminate.
Defined.

Lemma lead_preferences_are_normalized_witness :
  exists p,
    lead_payload [("name", PStr "Asha"); ("hotel_type", PStr "5 star luxury");
                  ("meal_plan", PStr "")] = Ok p
    /\ lookup p "hotelType" = Some (PStr "5 Star")
    /\ lookup p "mealPlan" = None.
Proof.
  eexists. split; [reflexivity|].
  destruct (lead_preferences_are_normalized
              [("name", PStr "Asha"); ("hotel_type", PStr "5 star luxury");
               ("meal_plan", PStr "")] _ eq_refl) as (Hh & Hm).
  split.
  - apply (Hh "5 star luxury" eq_refl).
  - apply (Hm "" eq_refl).
Defined.

End GatewayMore.

(* ================================================================= *)
(** ** Further properties: the tools of the agent *)

Module AgentFacts.
Import Py Crm Shape Agent CrmFacts.

(** X15. The command [robot_action] sends always starts with [robot_]: a
    type without the prefix gets it, a type with it is sent as it is; so
    prefixing twice changes nothing. A type that already has the prefix
    finds no entry in the key table and its value goes under [action]. *)
Theorem robot_commands_are_prefixed :
  forall type,
    prefix "robot_" (robot_command type) = true
    /\ robot_command (robot_command type) = robot_command type
    /\ (prefix "robot_" type = true ->
        forall value, robot_action type value = (type, [("action", value)])).
Proof.
  intros type.
  assert (Hp : prefix "robot_" (robot_command type) = true).
  { unfold robot_command. destruct (prefix "robot_" type) eqn:E; cbn [negb]; [exact E|].
    apply PyStrFacts.prefix_split. now exists type. }
  split; [exact Hp|]. split.
  - unfold robot_command at 1. now rewrite Hp.
  - intros H value. unfold robot_action, robot_command. rewrite H. cbn [negb].
    apply PyStrFacts.prefix_split in H. destruct H as [b ->]. reflexivity.
Qed.

Lemma robot_commands_are_prefixed_witness :
  robot_action "robot_gesture" "wave" = ("robot_gesture", [("action", "wave")])
  /\ robot_action "gesture" "wave" = ("robot_gesture", [("gesture", "wave")]).
Proof.
  destruct (robot_commands_are_prefixed "robot_gesture") as (_ & _ & H).
  split; [apply (H eq_refl) | reflexivity].
Defined.

(** X16. The lead tool cannot fail before its request: for any four strings
    the payload is built, and it holds the name, the phone as [mobile], the
    email and the details as [aiSummary] - each only when not empty - with
    two adults, no children, no infants and the attribution tags. *)
Theorem lead_tool_payload :
  forall name phone email details,
    lead_payload (save_customer_lead_params name phone email details)
    = Ok ((("name", PStr name) :: opt_entry "email" email ++ opt_entry "mobile" phone)
          ++ [("adults", PInt 2); ("children", PInt 0); ("infants", PInt 0)]
          ++ opt_entry "aiSummary" details ++ attribution).
Proof.
  intros name phone email details.
  destruct phone, email, details; reflexivity.
Qed.

Section Tools.

Variables CRM_BASE_URL : string.
Variable urlencode : list (string * value) -> string.
Variable py_repr : value -> string.

(** X17. The package tool sends nothing when the search is switched off or
    no token is cached. Otherwise it sends exactly one GET: for a package id,
    to [packages/<id>]; without one, to [packages?] followed by the encoded
    query, which holds the search text as [destination] (left out when empty)
    and [limit=5]. *)
Theorem package_tool_requests :
  forall enable st net query package_id,
    let sent := snd (find_packages_tool CRM_BASE_URL urlencode py_repr
                       enable st net query package_id) in
    (PyStr.lower enable <> "true" -> sent = [])
    /\ (truthy (_access_token st) = false -> sent = [])
    /\ (PyStr.lower enable = "true" -> truthy (_access_token st) = true ->
        sent = [crm_call CRM_BASE_URL py_repr st
                  (if package_id =? "" then
                     "packages?" ^ urlencode (opt_entry "destination" query
                                              ++ [("limit", PStr "5")])
                   else "packages/" ^ package_id)
                  "GET" PNone]).
Proof.
  intros enable st net query package_id sent. subst sent. unfold find_packages_tool.
  split; [|split].
  - intros H. destruct (String.eqb_spec (PyStr.lower enable) "true"); [contradiction|].
    reflexivity.
  - intros H. destruct (PyStr.lower enable =? "true"); [|reflexivity]. cbn [negb].
    destruct (package_id =? ""); cbn [negb].
    + unfold find_packages. destruct (find_packages_query py_repr _); [|reflexivity].
      now rewrite crm_request_no_token.
    + unfold get_package_details. now rewrite crm_request_no_token.
  - intros He Htok. rewrite He. cbn [String.eqb negb].
    replace ("true" =? "true") with true by reflexivity. cbn [negb].
    destruct (package_id =? ""); cbn [negb].
    + unfold find_packages.
      assert (Hq : find_packages_query py_repr [("query", PStr query)]
                   = Ok (opt_entry "destination" query ++ [("limit", PStr "5")])).
      { destruct query; reflexivity. }
      rewrite Hq, crm_request_with_token by exact Htok. cbn [snd].
      unfold find_packages_endpoint.
      destruct (opt_entry "destination" query ++ [("limit", PStr "5")]) eqn:E;
        [now apply app_eq_nil in E | reflexivity].
    + unfold get_package_details. now rewrite crm_request_with_token by exact Htok.
Qed.

End Tools.

Lemma package_tool_requests_witness :
  let st := {| _access_token := PStr "tok"; _token_expires_at := 3000000;
               _is_authenticating := false |} in
  let net := fun _ : http_request => HttpResponse 200 "" (Ok (PDict [])) in
  snd (find_packages_tool "https://crm.tripandevent.com/api" (fun _ => "q") (fun _ => "")
         "false" st net "goa" "") = []
  /\ map req_url
       (snd (find_packages_tool "https://crm.tripandevent.com/api" (fun _ => "q")
               (fun _ => "") "TRUE" st net "goa" "42"))
     = ["https://crm.tripandevent.com/api/packages/42"].
Proof.
  cbv zeta. split.
  - destruct (package_tool_requests "https://crm.tripandevent.com/api" (fun _ => "q")
                (fun _ => "") "false"
                {| _access_token := PStr "tok"; _token_expires_at := 3000000;
                   _is_authenticating := false |}
                (fun _ => HttpResponse 200 "" (Ok (PDict []))) "goa" "") as (H & _ & _).
    apply H. discriminate.
  - destruct (package_tool_requests "https://crm.tripandevent.com/api" (fun _ => "q")
                (fun _ => "") "TRUE"
                {| _access_token := PStr "tok"; _token_expires_at := 3000000;
                   _is_authenticating := false |}
                (fun _ => HttpResponse 200 "" (Ok (PDict []))) "goa" "42") as (_ & _ & H).
    rewrite (H eq_refl eq_refl). reflexivity.
Defined.

End AgentFacts.

(* ================================================================= *)
(** ** Further properties: the audio tap *)

Module TapMore.
Import HeyGen Sample HeyGenFacts.

Lemma bytes_eqb_eq (a b : bytes) : bytes_eqb a b = true <-> a = b.
Proof.
  revert b; induction a as [|x a IH]; intros [|y b]; simpl.
  - tauto.
  - split; discriminate.
  - split; discriminate.
  - rewrite andb_true_iff, IH. split.
    + intros [Hxy Hab]. subst b. f_equal. now apply Byte.byte_dec_bl.
    + intros Heq. injection Heq as Hx Hab. subst y b.
      split; [now apply Byte.byte_dec_lb | reflexivity].
Qed.

(** The test [item == b"__FLUSH__"] of the sender holds of a queue item
    exactly when its bytes are [__FLUSH__]: no other chunk of audio is ever
    read as a speak-end, and the sentinel is never read as audio. *)
Theorem sentinel_test_is_exact :
  forall item : bytes, is_flush item = true <-> item = FLUSH.
Proof. intros item. apply bytes_eqb_eq. Qed.

Lemma sentinel_test_is_exact_witness :
  is_flush (list_byte_of_string "__FLUSH__") = true
  /\ is_flush (list_byte_of_string "__FLUSH_") = false.
Proof.
  split.
  - apply sentinel_test_is_exact. reflexivity.
  - destruct (is_flush (list_byte_of_string "__FLUSH_")) eqn:E; [|reflexivity].
    apply sentinel_test_is_exact in E. discriminate E.
Defined.

Lemma finished_signals_app (a b : list tap_effect) :
  finished_signals (a ++ b) = finished_signals a ++ finished_signals b.
Proof.
  induction a as [|e a IH]; [reflexivity|].
  destruct e; simpl; now rewrite ?IH.
Qed.

Lemma put_nowait_bound (q : list bytes) (x : bytes) (q' : list bytes) :
  put_nowait q x = Some q' -> (List.length q' <= QUEUE_MAXSIZE)%nat.
Proof.
  unfold put_nowait.
  destruct (Nat.ltb_spec (List.length q) QUEUE_MAXSIZE) as [Hlt|Hge]; [|discriminate].
  intros Hput. injection Hput as <-. rewrite length_app. simpl. lia.
Qed.

Lemma put_until_full_bound (items q : list bytes) :
  (List.length q <= QUEUE_MAXSIZE)%nat ->
  (List.length (put_until_full q items) <= QUEUE_MAXSIZE)%nat.
Proof.
  revert q; induction items as [|x items IH]; intros q Hq; simpl; [exact Hq|].
  destruct (put_nowait q x) as [q'|] eqn:E; [|exact Hq].
  apply IH. now apply (put_nowait_bound q x).
Qed.

Lemma put_each_bound (items q : list bytes) :
  (List.length q <= QUEUE_MAXSIZE)%nat ->
  (List.length (put_each q items) <= QUEUE_MAXSIZE)%nat.
Proof.
  revert q; induction items as [|x items IH]; intros q Hq; simpl; [exact Hq|].
  destruct (put_nowait q x) as [q'|] eqn:E; [|now apply IH].
  apply IH. now apply (put_nowait_bound q x).
Qed.

Lemma put_until_full_when_full (items q : list bytes) :
  (QUEUE_MAXSIZE <= List.length q)%nat -> put_until_full q items = q.
Proof.
  intros Hq. destruct items as [|x items]; [reflexivity|]. simpl. unfold put_nowait.
  destruct (Nat.ltb_spec (List.length q) QUEUE_MAXSIZE); [lia | reflexivity].
Qed.

Lemma put_each_when_full (items q : list bytes) :
  (QUEUE_MAXSIZE <= List.length q)%nat -> put_each q items = q.
Proof.
  intros Hq. induction items as [|x items IH]; [reflexivity|]. simpl. unfold put_nowait.
  destruct (Nat.ltb_spec (List.length q) QUEUE_MAXSIZE); [lia | exact IH].
Qed.

Lemma drain_queue_empty (q : list bytes) : drain_queue q = [].
Proof. induction q; simpl; auto. Qed.

Section Tap.

Variable resampler : Type.
Variable new_resampler : Z -> Z -> Z -> resampler.
Variable resampler_push : resampler -> frame -> resampler * list frame.
Variable resampler_flush : resampler -> resampler * list frame.
Variable b64encode : bytes -> string.

Local Abbreviation tap := (HeyGen.tap resampler).
Local Abbreviation capture := (capture_frame resampler new_resampler resampler_push).
Local Abbreviation flush := (HeyGen.flush resampler resampler_flush).
Local Abbreviation clear := (clear_buffer resampler).
Local Abbreviation calls := (HeyGen.calls resampler new_resampler resampler_push resampler_flush).
Local Abbreviation call := (HeyGen.call resampler new_resampler resampler_push resampler_flush).

(** What [capture_frame] does to the fields that do not depend on the
    resampler. *)
Lemma capture_fields (t : tap) (f : frame) :
  _segment_active resampler (capture t f) = true
  /\ capturing resampler (capture t f) = true
  /\ playback_segments_count resampler (capture t f)
     = (if capturing resampler t then playback_segments_count resampler t
        else S (playback_segments_count resampler t))
  /\ _closed resampler (capture t f) = _closed resampler t
  /\ (List.length (_send_queue resampler t) <= QUEUE_MAXSIZE ->
      List.length (_send_queue resampler (capture t f)) <= QUEUE_MAXSIZE)%nat
  /\ ((QUEUE_MAXSIZE <= List.length (_send_queue resampler t))%nat ->
      _send_queue resampler (capture t f) = _send_queue resampler t)
  /\ (_closed resampler t = true ->
      _send_queue resampler (capture t f) = _send_queue resampler t
      /\ _resampler resampler (capture t f) = _resampler resampler t
      /\ _resampler_checked resampler (capture t f) = _resampler_checked resampler t).
Proof.
  unfold capture_frame. destruct (_closed resampler t) eqn:Ec.
  - cbn [_segment_active capturing playback_segments_count _closed _send_queue
         _resampler _resampler_checked].
    repeat split; auto.
  - destruct (if negb (_resampler_checked resampler t)
                 && negb (sample_rate f =? HEYGEN_SAMPLE_RATE)%Z
              then Some (new_resampler (sample_rate f) HEYGEN_SAMPLE_RATE 1)
              else _resampler resampler t) as [rs|].
    + destruct (resampler_push rs f) as [rs' out].
      cbn [_segment_active capturing playback_segments_count _closed _send_queue
           _resampler _resampler_checked].
      repeat split; auto; try discriminate.
      * apply put_until_full_bound.
      * apply put_until_full_when_full.
    + cbn [_segment_active capturing playback_segments_count _closed _send_queue
           _resampler _resampler_checked].
      repeat split; auto; try discriminate.
      * apply put_until_full_bound.
      * apply put_until_full_when_full.
Qed.

(* ----------------------------------------------------------------- *)
(** *** The queue is bounded *)

Lemma call_keeps_bound (t : tap) (c : tap_call) :
  (List.length (_send_queue resampler t) <= QUEUE_MAXSIZE)%nat ->
  (List.length (_send_queue resampler (fst (call t c))) <= QUEUE_MAXSIZE)%nat.
Proof.
  intros Hq. destruct c as [f| |]; cbn [HeyGen.call fst].
  - now apply capture_fields.
  - unfold HeyGen.flush.
    destruct (_resampler resampler t) as [rs|]; [destruct (resampler_flush rs)|];
      cbn [fst _send_queue]; apply put_each_bound; apply put_each_bound; exact Hq.
  - unfold clear_buffer. cbn [fst _send_queue]. rewrite drain_queue_empty.
    simpl. unfold QUEUE_MAXSIZE. lia.
Qed.

(** X18. The send queue never holds more than 500 items: every
    [capture_frame], [flush] and [clear_buffer] keeps the bound, so it holds
    after any sequence of calls on a fresh tap. *)
Theorem send_queue_is_bounded :
  forall cs : list tap_call,
    (List.length (_send_queue resampler (fst (calls (new_tap resampler) cs)))
     <= QUEUE_MAXSIZE)%nat.
Proof.
  intros cs.
  assert (H : forall t : tap,
             (List.length (_send_queue resampler t) <= QUEUE_MAXSIZE)%nat ->
             (List.length (_send_queue resampler (fst (calls t cs))) <= QUEUE_MAXSIZE)%nat).
  { induction cs as [|c cs IH]; intros t Hq; [exact Hq|].
    cbn [HeyGen.calls].
    pose proof (call_keeps_bound t c Hq) as H1.
    destruct (call t c) as [t1 e1]. specialize (IH t1 H1).
    destruct (calls t1 cs) as [t2 e2]. exact IH. }
  apply H. simpl. unfold QUEUE_MAXSIZE. lia.
Qed.

(** X19. With the queue full, a captured frame is dropped - the queue stays
    as it is - yet the segment is started; and a [flush()] cannot queue its
    sentinel, so the queue again stays as it is, while the finished signal
    is still given. *)
Theorem full_queue_drops :
  forall (t : tap) (f : frame),
    (QUEUE_MAXSIZE <= List.length (_send_queue resampler t))%nat ->
    _send_queue resampler (capture t f) = _send_queue resampler t
    /\ _segment_active resampler (capture t f) = true
    /\ _send_queue resampler (fst (flush t)) = _send_queue resampler t
    /\ finished_signals (snd (flush t))
       = (if _segment_active resampler t then [false] else []).
Proof.
  intros t f Hfull.
  destruct (capture_fields t f) as (Ha & _ & _ & _ & _ & Hq & _).
  split; [now apply Hq|]. split; [exact Ha|].
  split; [|apply flush_signals].
  unfold HeyGen.flush.
  destruct (_resampler resampler t) as [rs|]; [destruct (resampler_flush rs)|];
    cbn [fst _send_queue];
    repeat rewrite (put_each_when_full _ (_send_queue resampler t) Hfull);
    reflexivity.
Qed.

(* ----------------------------------------------------------------- *)
(** *** Segments started and segments finished *)

Lemma call_accounts (t : tap) (c : tap_call) :
  capturing resampler t = _segment_active resampler t ->
  let t' := fst (call t c) in
  capturing resampler t' = _segment_active resampler t'
  /\ (playback_segments_count resampler t'
      + (if _segment_active resampler t then 1 else 0)
      = playback_segments_count resampler t
        + List.length (finished_signals (snd (call t c)))
        + (if _segment_active resampler t' then 1 else 0))%nat.
Proof.
  intros Hc. destruct c as [f| |]; cbn [HeyGen.call fst snd].
  - destruct (capture_fields t f) as (Ha & Hcap & Hn & _).
    rewrite Ha, Hcap, Hn, Hc. split; [reflexivity|].
    destruct (_segment_active resampler t); simpl; lia.
  - unfold HeyGen.flush.
    destruct (_resampler resampler t) as [rs|]; [destruct (resampler_flush rs)|];
      cbn; (split; [reflexivity|]);
      destruct (_segment_active resampler t); simpl; lia.
  - unfold clear_buffer. cbn. split; [reflexivity|].
    rewrite finished_signals_app.
    destruct (_segment_active resampler t); simpl; lia.
Qed.

(** X20. After any sequence of [capture_frame], [flush] and [clear_buffer]
    calls on a fresh tap, the segments the framework counted as started are
    the finished signals it was given, plus one when a segment is still
    active: no segment is left without its signal and no signal is given
    without a segment. *)
Theorem finished_signals_match_segments :
  forall cs : list tap_call,
    let t := fst (calls (new_tap resampler) cs) in
    let signals := finished_signals (snd (calls (new_tap resampler) cs)) in
    playback_segments_count resampler t
    = (List.length signals + (if _segment_active resampler t then 1 else 0))%nat
    /\ capturing resampler t = _segment_active resampler t.
Proof.
  intros cs.
  assert (H : forall t0 : tap,
             capturing resampler t0 = _segment_active resampler t0 ->
             capturing resampler (fst (calls t0 cs))
             = _segment_active resampler (fst (calls t0 cs))
             /\ (playback_segments_count resampler (fst (calls t0 cs))
                 + (if _segment_active resampler t0 then 1 else 0)
                 = playback_segments_count resampler t0
                   + List.length (finished_signals (snd (calls t0 cs)))
                   + (if _segment_active resampler (fst (calls t0 cs)) then 1 else 0))%nat).
  { induction cs as [|c cs IH]; intros t0 H0.
    - simpl. split; [exact H0 | lia].
    - cbn [HeyGen.calls].
      destruct (call_accounts t0 c H0) as [H1 H2].
      destruct (call t0 c) as [t1 e1]. cbn [fst snd] in H1, H2.
      destruct (IH t1 H1) as [H3 H4].
      destruct (calls t1 cs) as [t2 e2]. cbn [fst snd] in *.
      split; [exact H3|]. rewrite finished_signals_app, length_app. lia. }
  destruct (H (new_tap resampler) eq_refl) as [Hc Hn].
  cbv zeta. split; [|exact Hc]. simpl in Hn. lia.
Qed.

(* ----------------------------------------------------------------- *)
(** *** Interruption and shutdown *)

(** Frames at the rate of the avatar on a tap without a resampler go into
    the queue as they are, while there is room. *)
Lemma captures_at_avatar_rate (fs : list frame) :
  forall t : tap,
    _closed resampler t = false ->
    _resampler resampler t = None ->
    forallb (fun f => (sample_rate f =? HEYGEN_SAMPLE_RATE)%Z) fs = true ->
    (List.length (_send_queue resampler t) + List.length fs <= QUEUE_MAXSIZE)%nat ->
    _send_queue resampler (fst (calls t (map CaptureFrame fs)))
    = _send_queue resampler t ++ map data fs
    /\ snd (calls t (map CaptureFrame fs)) = [].
Proof.
  induction fs as [|f fs IH]; intros t Hc Hr Hrate Hlen.
  - simpl. now rewrite app_nil_r.
  - simpl in Hrate. apply andb_true_iff in Hrate. destruct Hrate as [Hf Hrate].
    cbn [map HeyGen.calls HeyGen.call].
    assert (Hcap : capture t f
                   = {| _resampler := None; _resampler_checked := true;
                        _send_queue := _send_queue resampler t ++ [data f];
                        _closed := false; _segment_active := true; capturing := true;
                        playback_segments_count :=
                          if capturing resampler t then playback_segments_count resampler t
                          else S (playback_segments_count resampler t) |}).
    { unfold capture_frame. rewrite Hc, Hr, Hf. cbn [negb andb].
      rewrite andb_false_r. cbn [put_until_full]. unfold put_nowait.
      simpl in Hlen.
      destruct (Nat.ltb_spec (List.length (_send_queue resampler t)) QUEUE_MAXSIZE); [|lia].
      reflexivity. }
    rewrite Hcap.
    match goal with
    | |- context [HeyGen.calls _ _ _ _ ?t1 _] =>
        destruct (IH t1 eq_refl eq_refl Hrate) as [Hq He]
    end.
    { cbn. rewrite length_app. simpl in *. lia. }
    match goal with
    | |- context [HeyGen.calls _ _ _ _ ?t1 ?l] =>
        destruct (HeyGen.calls resampler new_resampler resampler_push resampler_flush t1 l)
          as [t2 e2]
    end.
    cbn [fst snd] in *. subst e2. split; [|reflexivity].
    rewrite Hq. cbn. now rewrite <- app_assoc.
Qed.

(** X21. [clear_buffer()] empties the send queue and asks HeyGen once to
    interrupt; audio queued before it is gone, so that on a tap without a
    resampler the queue after the frames that follow (at 24 kHz, at most
    500) holds those frames and nothing else. *)
Theorem clear_buffer_discards_pending_audio :
  forall (t : tap) (fs : list frame),
    _send_queue resampler (fst (clear t)) = []
    /\ List.length (filter (fun e => match e with NotifyInterrupt => true | _ => false end)
                      (snd (clear t))) = 1%nat
    /\ (_closed resampler t = false ->
        _resampler resampler t = None ->
        forallb (fun f => (sample_rate f =? HEYGEN_SAMPLE_RATE)%Z) fs = true ->
        (List.length fs <= QUEUE_MAXSIZE)%nat ->
        _send_queue resampler (fst (calls (fst (clear t)) (map CaptureFrame fs)))
        = map data fs).
Proof.
  intros t fs. split; [|split].
  - unfold clear_buffer. cbn. apply drain_queue_empty.
  - unfold clear_buffer. cbn. rewrite filter_app.
    destruct (_segment_active resampler t); reflexivity.
  - intros Hc Hr Hrate Hlen.
    destruct (captures_at_avatar_rate fs (fst (clear t))) as [Hq _]; try assumption.
    + unfold clear_buffer. cbn. rewrite drain_queue_empty. simpl. lia.
    + rewrite Hq. unfold clear_buffer. cbn. now rewrite drain_queue_empty.
Qed.

(** X22. Once [aclose()] has run, with or without an error from the wrapped
    output, the tap is closed for good as far as audio goes: a captured
    frame reaches neither the queue nor the resampler, though it still
    starts a segment, which [flush()] then reports as finished. *)
Theorem closed_tap_takes_no_audio :
  forall (t : tap) original (f : frame),
    let closed := fst (fst (aclose resampler t original)) in
    _closed resampler closed = true
    /\ _send_queue resampler (capture closed f) = _send_queue resampler t
    /\ _resampler resampler (capture closed f) = _resampler resampler t
    /\ finished_signals (snd (flush (capture closed f))) = [false].
Proof.
  intros t original f closed.
  assert (Hc : _closed resampler closed = true
               /\ _send_queue resampler closed = _send_queue resampler t
               /\ _resampler resampler closed = _resampler resampler t).
  { subst closed. unfold aclose. destruct original as [[u|e]|]; repeat split. }
  destruct Hc as (Hc & Hq & Hr).
  destruct (capture_fields closed f) as (Ha & _ & _ & _ & _ & _ & Hclosed).
  destruct (Hclosed Hc) as (Hq' & Hr' & _).
  split; [exact Hc|]. split; [congruence|]. split; [congruence|].
  destruct (flush_signals resampler resampler_flush (capture closed f)) as [Hf _].
  now rewrite Ha in Hf.
Qed.

(* ----------------------------------------------------------------- *)
(** *** From the pipeline to the channel *)

Lemma drain_batch_all (chunks : list bytes) :
  forall batch,
    forallb (fun c => negb (is_flush c)) chunks = true ->
    drain_batch batch chunks = (batch ++ List.concat chunks, false, []).
Proof.
  induction chunks as [|c chunks IH]; intros batch H; simpl.
  - now rewrite app_nil_r.
  - simpl in H. apply andb_true_iff in H. destruct H as [Hc H].
    destruct (is_flush c); [discriminate|].
    rewrite IH by exact H. now rewrite app_assoc.
Qed.

(** One utterance when the sender first runs after the [flush()]: on a
    fresh tap, frames at 24 kHz (at least one, fewer than 500, none whose
    bytes are the sentinel) followed by [flush()] give the framework one finished signal, not interrupted,
    and leave a queue from which the sender, in one turn, sends all the
    audio as a single message in the order captured and then the
    speak-end. Without the [flush()], the same frames go out as one audio
    message and no speak-end. *)
Theorem utterance_reaches_the_channel :
  forall f fs,
    forallb (fun f => (sample_rate f =? HEYGEN_SAMPLE_RATE)%Z) (f :: fs) = true ->
    forallb (fun f => negb (is_flush (data f))) (f :: fs) = true ->
    (List.length (f :: fs) < QUEUE_MAXSIZE)%nat ->
    let spoken := calls (new_tap resampler) (map CaptureFrame (f :: fs) ++ [Flush]) in
    let cut := calls (new_tap resampler) (map CaptureFrame (f :: fs)) in
    finished_signals (snd spoken) = [false]
    /\ send_iteration b64encode (_send_queue resampler (fst spoken))
       = Some ([SendAudio (b64encode (List.concat (map data (f :: fs)))); NotifySpeakEnd], [])
    /\ send_iteration b64encode (_send_queue resampler (fst cut))
       = Some ([SendAudio (b64encode (List.concat (map data (f :: fs))))], []).
Proof.
  intros f fs Hrate Hdata Hlen spoken cut.
  destruct (captures_at_avatar_rate (f :: fs) (new_tap resampler) eq_refl eq_refl Hrate)
    as [Hq He]; [simpl in *; lia|].
  assert (Hend : _resampler resampler (fst cut) = None).
  { subst cut. clear Hq He Hdata Hlen.
    assert (G : forall (l : list frame) (t : tap),
               _closed resampler t = false -> _resampler resampler t = None ->
               forallb (fun f => (sample_rate f =? HEYGEN_SAMPLE_RATE)%Z) l = true ->
               _resampler resampler (fst (calls t (map CaptureFrame l))) = None).
    { induction l as [|g l IH]; intros t Hc Hr Hl; [exact Hr|].
      simpl in Hl. apply andb_true_iff in Hl. destruct Hl as [Hg Hl].
      cbn [map HeyGen.calls HeyGen.call].
      assert (Hcap : _closed resampler (capture t g) = false
                     /\ _resampler resampler (capture t g) = None).
      { unfold capture_frame. rewrite Hc, Hr, Hg. cbn [negb andb].
        rewrite andb_false_r. split; reflexivity. }
      destruct Hcap as [Hc1 Hr1]. specialize (IH (capture t g) Hc1 Hr1 Hl).
      destruct (calls (capture t g) (map CaptureFrame l)). exact IH. }
    now apply G. }
  assert (Hchunks : forallb (fun c => negb (is_flush c)) (map data fs) = true).
  { simpl in Hdata. apply andb_true_iff in Hdata. destruct Hdata as [_ Hd].
    clear -Hd. induction fs as [|g fs IH]; [reflexivity|].
    simpl in *. apply andb_true_iff in Hd. destruct Hd as [-> Hd]. now apply IH. }
  assert (Hhead : is_flush (data f) = false).
  { simpl in Hdata. apply andb_true_iff in Hdata. destruct Hdata as [Hd _].
    now destruct (is_flush (data f)). }
  destruct (captures_are_silent resampler new_resampler resampler_push resampler_flush
              (new_tap resampler) f fs) as [_ Hactive].
  subst spoken cut. rewrite calls_app.
  destruct (calls (new_tap resampler) (map CaptureFrame (f :: fs))) as [t1 e1].
  cbn [fst snd] in Hq, He, Hend, Hactive |- *.
  subst e1. cbn [HeyGen.calls HeyGen.call].
  assert (Hflush : flush t1
                   = ({| _resampler := None;
                         _resampler_checked := _resampler_checked resampler t1;
                         _send_queue := map data (f :: fs) ++ [FLUSH];
                         _closed := _closed resampler t1;
                         _segment_active := false; capturing := false;
                         playback_segments_count := playback_segments_count resampler t1 |},
                      [PlaybackFinished 0%float false])).
  { unfold HeyGen.flush. rewrite Hend, Hactive, Hq. cbn [put_each app new_tap _send_queue].
    unfold put_nowait.
    destruct (Nat.ltb_spec (List.length (map data (f :: fs))) QUEUE_MAXSIZE) as [_|Hge];
      [reflexivity | rewrite length_map in Hge; lia]. }
  rewrite Hflush. cbn [fst snd app finished_signals _send_queue].
  split; [reflexivity|].
  rewrite Hq. cbn [new_tap _send_queue app map]. unfold send_iteration.
  rewrite Hhead. cbn [app].
  rewrite drain_batch_to_sentinel by exact Hchunks.
  rewrite drain_batch_all by exact Hchunks.
  split; reflexivity.
Qed.

End Tap.
Lemma full_queue_drops_witness :
  _send_queue unit (capture_frame unit (fun _ _ _ => tt) no_push full_tap
                      (frame_24k [x01; x02]))
  = _send_queue unit full_tap
  /\ _send_queue unit (fst (flush unit no_flush full_tap)) = _send_queue unit full_tap.
Proof.
  assert (Hfull : (QUEUE_MAXSIZE <= List.length (_send_queue unit full_tap))%nat).
  { unfold full_tap, QUEUE_MAXSIZE. cbn [_send_queue]. rewrite repeat_length. lia. }
  destruct (full_queue_drops unit (fun _ _ _ => tt) no_push no_flush full_tap
              (frame_24k [x01; x02]) Hfull) as (H1 & _ & H2 & _).
  split; assumption.
Defined.

Lemma clear_buffer_discards_pending_audio_witness :
  let t := fst (calls unit (fun _ _ _ => tt) no_push no_flush (new_tap unit)
                  [CaptureFrame (frame_24k [x01; x02])]) in
  _send_queue unit t = [[x01; x02]]
  /\ _send_queue unit
       (fst (calls unit (fun _ _ _ => tt) no_push no_flush (fst (clear_buffer unit t))
               (map CaptureFrame [frame_24k [x03; x04]])))
     = [[x03; x04]].
Proof.
  cbv zeta. split; [reflexivity|].
  destruct (clear_buffer_discards_pending_audio unit (fun _ _ _ => tt) no_push no_flush
              (fst (calls unit (fun _ _ _ => tt) no_push no_flush (new_tap unit)
                      [CaptureFrame (frame_24k [x01; x02])]))
              [frame_24k [x03; x04]]) as (_ & _ & H).
  apply H; try reflexivity. simpl. unfold QUEUE_MAXSIZE. lia.
Defined.

Lemma utterance_reaches_the_channel_witness :
  send_iteration raw
    (_send_queue unit
       (fst (calls unit (fun _ _ _ => tt) no_push no_flush (new_tap unit)
               (map CaptureFrame [frame_24k [x01; x02]; frame_24k [x03; x04]] ++ [Flush]))))
  = Some ([SendAudio (raw [x01; x02; x03; x04]); NotifySpeakEnd], []).
Proof.
  destruct (utterance_reaches_the_channel unit (fun _ _ _ => tt) no_push no_flush raw
              (frame_24k [x01; x02]) [frame_24k [x03; x04]] eq_refl eq_refl)
    as (_ & H & _).
  - simpl. unfold QUEUE_MAXSIZE. lia.
  - exact H.
Defined.

End TapMore.

(* ================================================================= *)
(** ** Further properties: the session and its channel *)

Module SessionMore.
Import HeyGen Channel Sample HeyGenFacts.

Section Session.

Variable resampler : Type.

Local Abbreviation session := (HeyGen.session resampler).
Local Abbreviation stop := (HeyGen.stop resampler).

(** X24. Messages go out only on an open WebSocket: with none, or a closed
    one, [send_audio], [notify_speak_end] and [notify_interrupt] hand
    nothing over and do not raise. On an open one the speak-end goes out
    first and the start-listening second; if the socket closes between the
    two, only the speak-end goes out. *)
Theorem sends_need_an_open_socket :
  forall (s : session) b64 id1 id2,
    (_ws resampler s <> Some false ->
     send_audio resampler s b64 = []
     /\ notify_speak_end resampler s s id1 id2 = []
     /\ notify_interrupt resampler s id1 = [])
    /\ (_ws resampler s = Some false ->
        send_audio resampler s b64 = [AgentSpeak b64]
        /\ notify_speak_end resampler s s id1 id2
           = [AgentSpeakEnd id1; AgentStartListening id2]
        /\ notify_interrupt resampler s id1 = [AgentInterrupt id1]
        /\ forall s2 : session,
             _ws resampler s2 <> Some false ->
             notify_speak_end resampler s s2 id1 id2 = [AgentSpeakEnd id1]).
Proof.
  intros s b64 id1 id2.
  unfold send_audio, notify_speak_end, notify_interrupt, _send_ws. split.
  - intros H. destruct (_ws resampler s) as [[|]|]; try tauto; repeat split.
  - intros ->. repeat split. intros s2 H2.
    destruct (_ws resampler s2) as [[|]|]; try tauto; reflexivity.
Qed.

(** X25. A [stop()] that returns on a started session leaves every session
    field as [__init__] set it, whatever it held; the stop request it sent
    carries the token and the id from before the reset, and is sent exactly
    when that token is a non-empty string; each keep-alive task that was
    running is cancelled; and from then on nothing is sent on the channel. *)
Theorem stop_resets_the_session :
  forall (s s' : session) original effs,
    _started resampler s = true ->
    stop s original = (s', None, effs) ->
    s' = idle resampler
    /\ stop_requests effs
       = match session_token resampler s with
         | Some token =>
             if token =? "" then []
             else [PostStop token (session_id resampler s)]
         | None => []
         end
    /\ (forall task, _ws_keep_alive_task resampler s = Some task -> In (CancelTask task) effs)
    /\ (forall task, _rest_keep_alive_task resampler s = Some task -> In (CancelTask task) effs)
    /\ (forall b64, send_audio resampler s' b64 = []).
Proof.
  intros s s' original effs Hs. unfold HeyGen.stop. rewrite Hs. cbn [negb].
  destruct (match _audio_tap resampler s with
            | Some t => let '(t', r, e) := aclose resampler t original in
                        (Some t', r, map TapEffect e)
            | None => (None, None, [])
            end) as [[tap' raised] e_tap] eqn:Etap.
  assert (He : stop_requests e_tap = []).
  { destruct (_audio_tap resampler s) as [t|].
    - destruct (aclose resampler t original) as [[t' r] e].
      injection Etap as <- <- <-. apply stop_requests_tap.
    - injection Etap as <- <- <-. reflexivity. }
  destruct raised as [e|]; [discriminate|].
  unfold _cleanup_ws. cbn [_ws_session _ws session_token session_id].
  intros H. injection H as Hs' Heffs. subst s' effs.
  split; [reflexivity|]. split; [|split; [|split]].
  - rewrite !stop_requests_app, He, !stop_requests_cancel.
    cbn [app]. unfold truthy_str.
    destruct (_ws resampler s) as [[|]|], (_ws_session resampler s) as [u|],
      (session_token resampler s) as [token|]; cbn;
      try destruct (token =? ""); reflexivity.
  - intros task Ht. rewrite Ht. apply in_or_app. right.
    apply in_or_app. left. apply in_or_app. left. simpl. now left.
  - intros task Ht. rewrite Ht. apply in_or_app. right.
    apply in_or_app. left. apply in_or_app. right. simpl. now left.
  - intros b64. reflexivity.
Qed.

(** X26. When closing the wrapped audio output raises, [stop()] raises too,
    before any cleanup: the session is still started with its token, the
    keep-alive tasks are not cancelled, the socket is not closed and no stop
    request is sent - only the tap is marked closed. A later [stop()] whose
    close succeeds then does the whole cleanup. *)
Theorem stop_aborts_when_the_tap_fails_to_close :
  forall (s : session) (t : tap resampler) e,
    _started resampler s = true ->
    _audio_tap resampler s = Some t ->
    let '(s1, raised, effs) := stop s (Some (Py.Raise e)) in
    raised = Some e
    /\ effs = [TapEffect CancelSenderTask; TapEffect OriginalAclose]
    /\ _started resampler s1 = true
    /\ session_token resampler s1 = session_token resampler s
    /\ _ws resampler s1 = _ws resampler s
    /\ option_map (_closed resampler) (_audio_tap resampler s1) = Some true
    /\ fst (stop s1 (Some (Py.Ok tt))) = (idle resampler, None).
Proof.
  intros s t e Hs Ht. unfold HeyGen.stop. rewrite Hs, Ht. cbn.
  repeat split.
Qed.

End Session.

Lemma sends_need_an_open_socket_witness :
  send_audio unit stopped_session "AAAA" = []
  /\ notify_speak_end unit live_session live_session "id-1" "id-2"
     = [AgentSpeakEnd "id-1"; AgentStartListening "id-2"].
Proof.
  destruct (sends_need_an_open_socket unit stopped_session "AAAA" "id-1" "id-2")
    as (Hclosed & _).
  destruct (sends_need_an_open_socket unit live_session "AAAA" "id-1" "id-2")
    as (_ & Hopen).
  split.
  - apply Hclosed. discriminate.
  - apply Hopen. reflexivity.
Defined.

Lemma stop_resets_the_session_witness :
  fst (fst (stop unit live_session (Some (Py.Ok tt)))) = idle unit
  /\ stop_requests (snd (stop unit live_session (Some (Py.Ok tt))))
     = [PostStop "stok" (Some "sid")].
Proof.
  destruct (stop_resets_the_session unit live_session
              (fst (fst (stop unit live_session (Some (Py.Ok tt)))))
              (Some (Py.Ok tt))
              (snd (stop unit live_session (Some (Py.Ok tt))))
              eq_refl eq_refl) as (H1 & H2 & _).
  split; [exact H1 | exact H2].
Defined.

Lemma stop_aborts_when_the_tap_fails_to_close_witness :
  snd (fst (stop unit live_session (Some (Py.Raise (Py.OtherError "sink")))))
  = Some (Py.OtherError "sink")
  /\ stop_requests (snd (stop unit live_session (Some (Py.Raise (Py.OtherError "sink")))))
     = [].
Proof.
  pose proof (stop_aborts_when_the_tap_fails_to_close unit live_session (new_tap unit)
                (Py.OtherError "sink") eq_refl eq_refl) as H.
  destruct (stop unit live_session (Some (Py.Raise (Py.OtherError "sink"))))
    as [[s1 raised] effs].
  destruct H as (Hr & He & _). cbn [fst snd]. split; [exact Hr|].
  rewrite He. reflexivity.
Defined.

End SessionMore.


(* ================================================================= *)
(** ** Callers that overlap one login: what each comes to *)

Module LoginOutcomes.
Import Py Crm SingleFlight Polls LoginFacts.

Lemma wakes_snoc (i : nat) (evs : list event) (ev : event) :
  wakes i (evs ++ [ev])
  = (wakes i evs
     + match ev with
       | Wake j _ => if (j =? i)%nat then 1 else 0
       | _ => 0
       end)%nat.
Proof.
  induction evs as [|e evs IH]; simpl.
  - destruct ev; lia.
  - destruct e; rewrite IH; lia.
Qed.

Lemma answer_snoc (evs : list event) (ev : event) :
  answer (evs ++ [ev])
  = match answer evs with
    | Some a => Some a
    | None => match ev with Reply _ now o => Some (now, o) | _ => None end
    end.
Proof.
  induction evs as [|e evs IH]; simpl.
  - destruct ev; reflexivity.
  - destruct e; try exact IH. reflexivity.
Qed.

Lemma answer_none (evs : list event) :
  existsb is_reply evs = false -> answer evs = None.
Proof.
  induction evs as [|e evs IH]; simpl; [reflexivity|].
  destruct e; simpl; try exact IH. discriminate.
Qed.

Lemma no_enter_snoc (evs : list event) (ev : event) :
  forallb (fun e => negb (is_enter e)) (evs ++ [ev]) = true ->
  forallb (fun e => negb (is_enter e)) evs = true /\ is_enter ev = false.
Proof.
  rewrite forallb_app. simpl. rewrite andb_true_r, andb_true_iff.
  intros [H1 H2]. split; [exact H1|]. now destruct (is_enter ev).
Qed.

(** In a schedule where callers enter before the answer, a caller can be
    the last to act only if it does not enter after an answer. *)
Lemma enters_before_reply_snoc (evs : list event) (ev : event) :
  enters_before_reply (evs ++ [ev]) = true ->
  enters_before_reply evs = true
  /\ (is_enter ev = true -> existsb is_reply evs = false).
Proof.
  induction evs as [|e evs IH]; simpl.
  - intros _. split; [reflexivity | reflexivity].
  - destruct (is_reply e) eqn:Er; simpl.
    + intros H. apply no_enter_snoc in H. destruct H as [H1 H2].
      split; [exact H1|]. intros He. congruence.
    + exact IH.
Qed.

Section Outcomes.

Variables CRM_BASE_URL CRM_EMAIL CRM_PASSWORD : string.
Variable py_repr : value -> string.

Local Abbreviation step := (Crm.step CRM_BASE_URL CRM_EMAIL CRM_PASSWORD py_repr).
Local Abbreviation run := (Crm.run CRM_BASE_URL CRM_EMAIL CRM_PASSWORD py_repr).
Local Abbreviation the_login := (login_request CRM_BASE_URL CRM_EMAIL CRM_PASSWORD).

Variable st0 : auth_state.
Variable t0 : Z.
Hypothesis idle : _is_authenticating st0 = false.
Hypothesis no_valid_token : _has_valid_token st0 t0 = false.

Local Abbreviation leader_outcome := (Polls.leader_outcome py_repr st0).

Lemma run_snoc (evs : list event) (ev : event) :
  forall sys,
    run sys (evs ++ [ev])
    = match run sys evs with
      | Some sys1 => step sys1 ev
      | None => None
      end.
Proof.
  induction evs as [|e evs IH]; intros sys; simpl.
  - now destruct (step sys ev).
  - destruct (step sys e); [apply IH | reflexivity].
Qed.

(** The token of [st0] fails the test of a polling waiter at any later time. *)
Lemma poll_finds_nothing (now : Z) :
  (t0 <= now)%Z ->
  truthy (_access_token st0) && (now <? _token_expires_at st0)%Z = false.
Proof.
  intros Hnow.
  destruct (truthy (_access_token st0)) eqn:Et; [|reflexivity].
  destruct (now <? _token_expires_at st0)%Z eqn:E; [|reflexivity].
  apply truthy_is_not_None in Et.
  rewrite (never_valid st0 t0 no_valid_token now Hnow E) in Et. discriminate.
Qed.

Lemma enter_finds_nothing (now : Z) :
  (t0 <= now)%Z -> _has_valid_token st0 now = false.
Proof.
  intros Hnow. unfold _has_valid_token.
  destruct (now <? _token_expires_at st0)%Z eqn:E; [|apply andb_false_r].
  now rewrite (never_valid st0 t0 no_valid_token now Hnow E).
Qed.

Local Abbreviation settled := (Polls.settled py_repr st0 the_login t0).

Lemma leader_is_no_sleeper leader rest sys k since :
  leader_outcome rest sys leader -> callers sys leader <> AwaitSleep k since.
Proof.
  unfold Polls.leader_outcome. intros H Hc.
  destruct (answer rest) as [[now o]|]; [destruct (login_token py_repr o)|];
    destruct H as [H _]; congruence.
Qed.

Lemma leader_has_entered leader rest sys :
  leader_outcome rest sys leader -> callers sys leader <> NotStarted.
Proof.
  unfold Polls.leader_outcome. intros H Hc.
  destruct (answer rest) as [[now o]|]; [destruct (login_token py_repr o)|];
    destruct H as [H _]; congruence.
Qed.

(** The next poll of a sleeping waiter, in a settled system. *)
Lemma wake_is_poll_result leader rest sys k now :
  leader_outcome rest sys leader ->
  (t0 <= now)%Z ->
  wake (auth sys) now k = poll_result sys leader k now.
Proof.
  unfold Polls.leader_outcome, poll_result, wake, next_poll, timed_out.
  intros H Hnow.
  destruct (answer rest) as [[T o]|].
  - destruct (login_token py_repr o) as [token|e] eqn:Eo; destruct H as [Hc Ha];
      rewrite Hc, Ha; cbn [_access_token _token_expires_at].
    + rewrite (LoginMore.login_token_is_truthy py_repr o token Eo). reflexivity.
    + now rewrite (poll_finds_nothing now Hnow).
  - destruct H as [Hc Ha]. rewrite Hc, Ha. cbn [_access_token _token_expires_at].
    now rewrite (poll_finds_nothing now Hnow).
Qed.

Lemma waiter_kept leader rest rest' sys sys' j :
  callers sys' j = callers sys j ->
  callers sys' leader = callers sys leader ->
  auth sys' = auth sys ->
  wakes j rest' = wakes j rest ->
  waiter_outcome rest sys leader j ->
  waiter_outcome rest' sys' leader j.
Proof.
  unfold waiter_outcome. intros -> -> -> ->. exact (fun H => H).
Qed.

Lemma first_enter_settles (leader : nat) (now : Z) (sys : system) :
  step (boot st0 t0) (Enter leader now) = Some sys -> settled leader [] sys.
Proof.
  unfold Crm.step, boot; cbn [callers clock auth sent].
  destruct (Z.leb_spec t0 now) as [Hnow|]; [|discriminate].
  unfold enter. rewrite (enter_finds_nothing now Hnow), idle.
  intros H. injection H as <-.
  unfold Polls.settled, Polls.leader_outcome, waiter_outcome;
    cbn [callers clock auth sent answer app].
  rewrite set_caller_same. repeat split; try assumption.
  intros j Hj. rewrite set_caller_other by exact Hj. reflexivity.
Qed.

Lemma step_settled (leader : nat) (rest : list event) (sys sys' : system) (ev : event) :
  settled leader rest sys ->
  (is_enter ev = true -> answer rest = None) ->
  step sys ev = Some sys' ->
  settled leader (rest ++ [ev]) sys'.
Proof.
  intros (Hsent & Hclk & Hl & Hw) Horder Hstep.
  destruct ev as [i now | i now | i now o]; unfold Crm.step in Hstep.
  - (* a caller enters while the POST is out: it goes to sleep *)
    specialize (Horder eq_refl).
    destruct (callers sys i) eqn:Ei; try discriminate.
    destruct (Z.leb_spec (clock sys) now) as [Hnow|]; [|discriminate].
    assert (Hi : i <> leader).
    { intros ->. now apply (leader_has_entered leader rest sys Hl). }
    pose proof Hl as Hl0. unfold Polls.leader_outcome in Hl0. rewrite Horder in Hl0.
    destruct Hl0 as [Hlc Hauth].
    unfold enter, _has_valid_token in Hstep. rewrite Hauth in Hstep.
    cbn [_access_token _token_expires_at _is_authenticating] in Hstep.
    fold (_has_valid_token st0 now) in Hstep.
    rewrite (enter_finds_nothing now ltac:(lia)) in Hstep.
    injection Hstep as <-.
    unfold Polls.settled; cbn [sent clock]. rewrite app_nil_r.
    split; [exact Hsent|]. split; [lia|]. split.
    + unfold Polls.leader_outcome. rewrite answer_snoc, Horder. cbn [callers auth].
      rewrite set_caller_other by congruence. split; [exact Hlc | reflexivity].
    + intros j Hj. destruct (Nat.eq_dec j i) as [->|Hji].
      * pose proof (Hw i Hi) as Hwi. unfold waiter_outcome in Hwi |- *.
        rewrite Ei in Hwi. cbn [callers]. rewrite set_caller_same.
        rewrite wakes_snoc. split; lia.
      * apply (waiter_kept leader rest _ sys); cbn [callers auth];
          rewrite ?set_caller_other by congruence; try reflexivity.
        -- symmetry. exact Hauth.
        -- rewrite wakes_snoc. lia.
        -- now apply Hw.
  - (* a waiter polls *)
    destruct (callers sys i) as [| |k since| |] eqn:Ei; try discriminate.
    destruct ((clock sys <=? now)%Z && (since + 100 <=? now)%Z) eqn:Et; [|discriminate].
    apply andb_true_iff in Et. destruct Et as [Hnow _]. apply Z.leb_le in Hnow.
    assert (Hi : i <> leader).
    { intros ->. now apply (leader_is_no_sleeper leader rest sys k since Hl). }
    injection Hstep as <-.
    rewrite (wake_is_poll_result leader rest sys k now Hl ltac:(lia)).
    pose proof (Hw i Hi) as Hwi. unfold waiter_outcome in Hwi. rewrite Ei in Hwi.
    destruct Hwi as [Hk Hk50].
    unfold Polls.settled; cbn [sent clock].
    split; [exact Hsent|]. split; [lia|]. split.
    + unfold Polls.leader_outcome in Hl |- *. rewrite answer_snoc. cbn [callers auth].
      rewrite set_caller_other by congruence.
      destruct (answer rest) as [[T o]|]; exact Hl.
    + intros j Hj. destruct (Nat.eq_dec j i) as [->|Hji].
      * unfold waiter_outcome. cbn [callers auth]. rewrite set_caller_same.
        rewrite wakes_snoc, Nat.eqb_refl.
        unfold poll_result, next_poll.
        assert (Hnext : match (if (S k <? 50)%nat then AwaitSleep (S k) now
                               else Raised timed_out) with
                        | NotStarted => (wakes i rest + 1 = 0)%nat
                        | AwaitPost => False
                        | AwaitSleep k0 _ => k0 = (wakes i rest + 1)%nat /\ (k0 < 50)%nat
                        | Returned token =>
                            set_caller (callers sys) i
                              (if (S k <? 50)%nat then AwaitSleep (S k) now
                               else Raised timed_out) leader = Returned token
                            /\ _access_token (auth sys) = token
                            /\ (1 <= wakes i rest + 1 <= 50)%nat
                        | Raised e => e = timed_out /\ (wakes i rest + 1)%nat = 50%nat
                        end).
        { destruct (Nat.ltb_spec (S k) 50); [split; lia | split; [reflexivity | lia]]. }
        destruct (callers sys leader) as [| | |token|] eqn:El; try exact Hnext.
        destruct (now <? _token_expires_at (auth sys))%Z.
        -- rewrite set_caller_other by congruence. split; [exact El|].
           split; [|lia].
           unfold Polls.leader_outcome in Hl.
           destruct (answer rest) as [[T o]|];
             [destruct (login_token py_repr o)|]; destruct Hl as [Hc Ha];
             rewrite Ha; cbn [_access_token]; congruence.
        -- destruct (Nat.ltb_spec (S k) 50); [split; lia | split; [reflexivity | lia]].
      * apply (waiter_kept leader rest _ sys); cbn [callers auth];
          rewrite ?set_caller_other by congruence; try reflexivity.
        -- rewrite wakes_snoc.
           destruct (Nat.eqb_spec i j); [congruence | lia].
        -- now apply Hw.
  - (* the answer arrives at the leader *)
    destruct (callers sys i) eqn:Ei; try discriminate.
    destruct (Z.leb_spec (clock sys) now) as [Hnow|]; [|discriminate].
    assert (Hi : i = leader).
    { destruct (Nat.eq_dec i leader) as [e|n]; [exact e|].
      specialize (Hw i n). unfold waiter_outcome in Hw. rewrite Ei in Hw. contradiction. }
    subst i.
    assert (Hnone : answer rest = None).
    { unfold Polls.leader_outcome in Hl.
      destruct (answer rest) as [[T o']|]; [|reflexivity].
      destruct (login_token py_repr o'); destruct Hl as [Hc _]; congruence. }
    pose proof Hl as Hl0. unfold Polls.leader_outcome in Hl0. rewrite Hnone in Hl0.
    destruct Hl0 as [_ Hauth].
    unfold reply in Hstep. rewrite Hauth in Hstep.
    cbn [_access_token _token_expires_at] in Hstep.
    assert (Hwaiters : forall (a : auth_state) (c : caller) j,
               j <> leader ->
               waiter_outcome (rest ++ [Reply leader now o])
                 {| auth := a; clock := now;
                    callers := set_caller (callers sys) leader c;
                    sent := sent sys |} leader j).
    { intros a c j Hj. specialize (Hw j Hj). unfold waiter_outcome in Hw |- *.
      cbn [callers auth]. rewrite set_caller_other by exact Hj.
      rewrite wakes_snoc, Nat.add_0_r.
      destruct (callers sys j); try exact Hw.
      destruct Hw as [Hc _]. congruence. }
    unfold Polls.settled, Polls.leader_outcome. rewrite answer_snoc, Hnone.
    destruct (login_token py_repr o) as [token|e]; injection Hstep as <-;
      cbn [sent clock callers auth]; rewrite set_caller_same;
      (split; [exact Hsent|]; split; [lia|]; split;
       [split; reflexivity | intros j Hj; now apply Hwaiters]).
Qed.

Lemma run_settled (leader : nat) (sys1 : system) (rest : list event) :
  settled leader [] sys1 ->
  forall sys,
    enters_before_reply rest = true ->
    run sys1 rest = Some sys ->
    settled leader rest sys.
Proof.
  intros H1. induction rest as [|ev rest IH] using rev_ind; intros sys Horder Hrun.
  - simpl in Hrun. now injection Hrun as <-.
  - rewrite run_snoc in Hrun.
    destruct (run sys1 rest) as [sys2|] eqn:E; [|discriminate].
    apply enters_before_reply_snoc in Horder. destruct Horder as [Horder Hlast].
    apply (step_settled leader rest sys2 sys ev); [now apply IH | | exact Hrun].
    intros He. apply answer_none. now apply Hlast.
Qed.


End Outcomes.


End LoginOutcomes.

(* ================================================================= *)
(** ** The sender under any schedule *)

Module SenderSchedules.
Import HeyGen Sample Schedule HeyGenFacts TapMore.

Lemma queue_stream_app (a b : list bytes) :
  queue_stream (a ++ b) = queue_stream a ++ queue_stream b.
Proof. unfold queue_stream. apply flat_map_app. Qed.

Lemma marks_app (a b : list token) : marks (a ++ b) = (marks a + marks b)%nat.
Proof. unfold marks. now rewrite filter_app, length_app. Qed.

Lemma marks_audio (b : bytes) : marks (map AudioByte b) = 0%nat.
Proof. induction b as [|x b IH]; [reflexivity | exact IH]. Qed.

Lemma marks_queue (q : list bytes) :
  marks (queue_stream q) = count_occ bytes_eq_dec q FLUSH.
Proof.
  induction q as [|item q IH]; [reflexivity|].
  change (queue_stream (item :: q))
    with ((if is_flush item then [SpeakEnd] else map AudioByte item) ++ queue_stream q).
  rewrite marks_app, IH. cbn [count_occ].
  destruct (bytes_eq_dec item FLUSH) as [->|Hne].
  - reflexivity.
  - destruct (is_flush item) eqn:E.
    + apply bytes_eqb_eq in E. contradiction.
    + now rewrite marks_audio.
Qed.

Lemma audio_only_stream (items : list bytes) :
  forallb (fun c => negb (is_flush c)) items = true ->
  queue_stream items = map AudioByte (List.concat items).
Proof.
  induction items as [|c items IH]; [reflexivity|].
  simpl. intros H. apply andb_true_iff in H. destruct H as [Hc H].
  change (queue_stream (c :: items))
    with ((if is_flush c then [SpeakEnd] else map AudioByte c) ++ queue_stream items).
  destruct (is_flush c); [discriminate|]. now rewrite IH, map_app.
Qed.

Section Sender.

Variable resampler : Type.
Variable new_resampler : Z -> Z -> Z -> resampler.
Variable resampler_push : resampler -> frame -> resampler * list frame.
Variable resampler_flush : resampler -> resampler * list frame.
Variable b64encode : bytes -> string.

Local Abbreviation tap := (HeyGen.tap resampler).
Local Abbreviation call := (HeyGen.call resampler new_resampler resampler_push resampler_flush).
Local Abbreviation interleave :=
  (Schedule.interleave resampler new_resampler resampler_push resampler_flush b64encode).

Lemma speak_ends_encoded (ms : list (option bytes)) :
  speak_ends (map (encode_message b64encode) ms) = marks (message_stream ms).
Proof.
  induction ms as [|m ms IH]; [reflexivity|].
  change (message_stream (m :: ms))
    with (match m with Some batch => map AudioByte batch | None => [SpeakEnd] end
          ++ message_stream ms).
  rewrite marks_app, <- IH. destruct m as [batch|].
  - rewrite marks_audio. reflexivity.
  - reflexivity.
Qed.

(** X27. Over any queue, the sender gives exactly one speak-end for each
    item whose bytes are [__FLUSH__] and none for any other item, however
    the sentinels are mixed with the audio. *)
Theorem one_speak_end_per_sentinel :
  forall q : list bytes,
    speak_ends (fst (send_loop b64encode (List.length q) q))
    = count_occ bytes_eq_dec q FLUSH.
Proof.
  intros q.
  destruct (send_loop_stream b64encode (List.length q) q (le_n _)) as (ms & Hrun & Hs).
  rewrite Hrun. cbn [fst].
  now rewrite speak_ends_encoded, Hs, marks_queue.
Qed.

(** A call that only adds audio, on an open tap without a resampler and
    with room in the queue, appends what it queues. *)
Lemma call_appends (t : tap) (c : tap_call) :
  _closed resampler t = false ->
  _resampler resampler t = None ->
  adds_audio c = true ->
  (List.length (_send_queue resampler t) < QUEUE_MAXSIZE)%nat ->
  _send_queue resampler (fst (call t c)) = _send_queue resampler t ++ queued_by c
  /\ _closed resampler (fst (call t c)) = false
  /\ _resampler resampler (fst (call t c)) = None.
Proof.
  intros Hc Hr Ha Hlen. destruct c as [f| |]; [| |discriminate]; cbn [HeyGen.call fst].
  - simpl in Ha. unfold capture_frame. rewrite Hc, Hr, Ha. cbn [negb andb].
    rewrite andb_false_r. cbn [put_until_full]. unfold put_nowait.
    destruct (Nat.ltb_spec (List.length (_send_queue resampler t)) QUEUE_MAXSIZE); [|lia].
    repeat split.
  - unfold HeyGen.flush. rewrite Hr. cbn [fst put_each _send_queue _closed _resampler].
    unfold put_nowait.
    destruct (Nat.ltb_spec (List.length (_send_queue resampler t)) QUEUE_MAXSIZE); [|lia].
    repeat split. exact Hc.
Qed.

(** Under any schedule, what was sent so far and what is still queued make
    up, in order, what was queued at the start and what the pipeline queued
    since. *)
Lemma interleave_keeps_order (sched : list turn) :
  forall t : tap,
    _closed resampler t = false ->
    _resampler resampler t = None ->
    forallb adds_audio (pipeline_of sched) = true ->
    (List.length (_send_queue resampler t) + List.length (pipeline_of sched)
     <= QUEUE_MAXSIZE)%nat ->
    exists ms,
      snd (interleave t sched) = map (encode_message b64encode) ms
      /\ message_stream ms ++ queue_stream (_send_queue resampler (fst (fst (interleave t sched))))
         = queue_stream (_send_queue resampler t)
           ++ queue_stream (flat_map queued_by (pipeline_of sched)).
Proof.
  induction sched as [|x sched IH]; intros t Hc Hr Hadds Hlen.
  - exists []. simpl. now rewrite app_nil_r.
  - destruct x as [c|].
    + cbn [pipeline_of flat_map app] in Hadds, Hlen |- *.
      fold (pipeline_of sched) in Hadds, Hlen |- *.
      cbn [forallb] in Hadds. apply andb_true_iff in Hadds. destruct Hadds as [Ha Hadds].
      cbn [List.length] in Hlen.
      destruct (call_appends t c Hc Hr Ha ltac:(lia)) as (Hq & Hc1 & Hr1).
      cbn [Schedule.interleave].
      destruct (call t c) as [t1 e1]. cbn [fst] in Hq, Hc1, Hr1.
      assert (Hone : List.length (queued_by c) = 1%nat)
        by (destruct c; [reflexivity | reflexivity | discriminate]).
      destruct (IH t1 Hc1 Hr1 Hadds) as (ms & Hm & Hs).
      { rewrite Hq, length_app. lia. }
      destruct (interleave t1 sched) as [[t2 e2] m2]. cbn [fst snd] in Hm, Hs |- *.
      exists ms. split; [exact Hm|].
      rewrite Hs, Hq, !queue_stream_app, <- app_assoc. reflexivity.
    + cbn [pipeline_of flat_map app] in Hadds, Hlen |- *.
      fold (pipeline_of sched) in Hadds, Hlen |- *.
      cbn [Schedule.interleave].
      destruct (send_iteration b64encode (_send_queue resampler t)) as [[m1 q']|] eqn:E.
      * apply send_iteration_stream in E. destruct E as (ms1 & -> & Hs1 & Hlt).
        destruct (IH (set_queue resampler t q') Hc Hr Hadds) as (ms & Hm & Hs).
        { cbn [set_queue _send_queue]. lia. }
        destruct (interleave (set_queue resampler t q') sched) as [[t2 e2] m2].
        cbn [fst snd set_queue _send_queue] in Hm, Hs |- *.
        exists (ms1 ++ ms). split; [now rewrite map_app, Hm|].
        rewrite message_stream_app, <- app_assoc, Hs, app_assoc, Hs1. reflexivity.
      * now apply IH.
Qed.

(** X23. One utterance under any schedule: on a fresh tap, frames at 24 kHz
    (fewer than 500, none whose bytes are the sentinel) followed by
    [flush()], with turns of the sender anywhere between them. Whatever the
    schedule, what the sender has sent by the end, followed by what it sends
    when it then empties the queue, is all the audio, byte for byte in the
    order captured, and after it one speak-end - nothing lost, nothing
    repeated, no speak-end before the last byte. How the audio is cut into
    messages depends on the schedule. *)
Theorem utterance_arrives_in_order_under_any_schedule :
  forall (fs : list frame) (sched : list turn),
    forallb (fun f => (sample_rate f =? HEYGEN_SAMPLE_RATE)%Z) fs = true ->
    forallb (fun f => negb (is_flush (data f))) fs = true ->
    (List.length fs < QUEUE_MAXSIZE)%nat ->
    pipeline_of sched = map CaptureFrame fs ++ [Flush] ->
    let t := fst (fst (interleave (new_tap resampler) sched)) in
    let sent := snd (interleave (new_tap resampler) sched) in
    let left := _send_queue resampler t in
    exists ms ms',
      sent = map (encode_message b64encode) ms
      /\ send_loop b64encode (List.length left) left
         = (map (encode_message b64encode) ms', [])
      /\ message_stream (ms ++ ms')
         = map AudioByte (List.concat (map data fs)) ++ [SpeakEnd].
Proof.
  intros fs sched Hrate Hdata Hlen Hsched t sent left.
  assert (Hadds : forallb adds_audio (pipeline_of sched) = true).
  { rewrite Hsched, forallb_app. simpl. rewrite andb_true_r.
    clear -Hrate. induction fs as [|f fs IH]; [reflexivity|].
    simpl in *. apply andb_true_iff in Hrate. destruct Hrate as [-> Hrate]. now apply IH. }
  assert (Hitems : flat_map queued_by (pipeline_of sched) = map data fs ++ [FLUSH]).
  { rewrite Hsched, flat_map_app. simpl. f_equal.
    clear. induction fs as [|f fs IH]; [reflexivity | simpl; now rewrite IH]. }
  destruct (interleave_keeps_order sched (new_tap resampler) eq_refl eq_refl Hadds)
    as (ms & Hm & Hs).
  { rewrite Hsched, length_app, length_map. simpl. lia. }
  destruct (send_loop_stream b64encode (List.length left) left (le_n _)) as (ms' & Hrun & Hs').
  exists ms, ms'. split; [exact Hm|]. split; [exact Hrun|].
  rewrite message_stream_app, Hs'. subst left t. rewrite Hs, Hitems.
  cbn [new_tap _send_queue queue_stream flat_map app].
  fold (queue_stream (map data fs ++ [FLUSH])).
  rewrite queue_stream_app. f_equal.
  apply audio_only_stream.
  clear -Hdata. induction fs as [|f fs IH]; [reflexivity|].
  simpl in *. apply andb_true_iff in Hdata. destruct Hdata as [-> Hdata]. now apply IH.
Qed.

End Sender.

Lemma utterance_arrives_in_order_under_any_schedule_witness :
  let sched := [Pipeline (CaptureFrame (frame_24k [x01; x02])); Sender;
                Pipeline (CaptureFrame (frame_24k [x03; x04])); Pipeline Flush] in
  snd (interleave unit (fun _ _ _ => tt) no_push no_flush raw (new_tap unit) sched)
  = [SendAudio (raw [x01; x02])]
  /\ exists ms ms',
       snd (interleave unit (fun _ _ _ => tt) no_push no_flush raw (new_tap unit) sched)
       = map (encode_message raw) ms
       /\ message_stream (ms ++ ms')
          = map AudioByte [x01; x02; x03; x04] ++ [SpeakEnd].
Proof.
  cbv zeta. split; [reflexivity|].
  destruct (utterance_arrives_in_order_under_any_schedule unit (fun _ _ _ => tt)
              no_push no_flush raw
              [frame_24k [x01; x02]; frame_24k [x03; x04]]
              [Pipeline (CaptureFrame (frame_24k [x01; x02])); Sender;
               Pipeline (CaptureFrame (frame_24k [x03; x04])); Pipeline Flush]
              eq_refl eq_refl) as (ms & ms' & Hm & _ & Hs).
  - simpl. unfold QUEUE_MAXSIZE. lia.
  - reflexivity.
  - exists ms, ms'. split; [exact Hm | exact Hs].
Defined.

End SenderSchedules.

